(** * A shallow embedding of the site archiver

    Source files: [scraper.py] (class [WorkAndIncomeScraper]) and
    [nav_scraper.py] (class [NavScraper]).

    Conventions of the embedding:
    - Python [str] and [bytes] values are Rocq [string]s (sequences of
      characters below U+0100); [str.lower] acts on the letters A-Z.
    - The file system is a finite map from path strings to file contents.
      Paths are compared as strings and directories are implicit (so
      [os.makedirs] has no effect on the map). On disk two different path
      strings can name one file, through [.], [..] or empty components,
      and the crawler does not normalise the path of a page. A statement
      on the content of a file after writes to other paths therefore
      carries the hypothesis that the paths involved have no such
      component ([Notions.pages_below_html], [Notions.plain_path]).
    - The loops are modelled on the runs in which no write and no function
      of [urllib.parse] raises. A run of the source in which one does
      ([os.makedirs] on a path below a saved page, [urljoin] on a
      malformed host) ends in that iteration; up to there it goes through
      the states of the model.
    - [urllib.parse], the HTTP session, the HTML parser and the PDF text
      extractor are collaborators of the crawler; they are interfaces here
      ([UrlLib], a function from URLs to fetch results, the [hrefs] field of
      a response, a function from paths to text).
    - Every side effect that a claim talks about (a request, a sleep, a log
      line, a call of the text extractor) is an [event] appended to the
      trace of the run.
    - A [while] loop is a step function iterated under a fuel bound; the
      state after [n] iterations is a state the real run goes through. *)

From Stdlib Require Import String Ascii List ZArith QArith Bool Lia.
From Stdlib Require OrderedTypeEx.
From stdpp Require Import gmap strings list sorting.

Local Open Scope Z_scope.

(** ** Python string methods *)

Module PyStr.

Definition is_upper (c : ascii) : bool :=
  let n := nat_of_ascii c in (65 <=? n)%nat && (n <=? 90)%nat.

Definition lower_char (c : ascii) : ascii :=
  if is_upper c then ascii_of_nat (nat_of_ascii c + 32) else c.

(** [s.lower()] *)
Fixpoint lower (s : string) : string :=
  match s with
  | EmptyString => EmptyString
  | String c s' => String (lower_char c) (lower s')
  end.

(** [s.startswith(p)] *)
Definition startswith (s p : string) : bool := String.prefix p s.

(** [s.endswith(suf)] *)
Fixpoint endswith (s suf : string) : bool :=
  String.eqb s suf ||
  match s with
  | EmptyString => false
  | String _ s' => endswith s' suf
  end.

(** [sub in s] *)
Fixpoint contains (s sub : string) : bool :=
  String.prefix sub s ||
  match s with
  | EmptyString => false
  | String _ s' => contains s' sub
  end.

(** [c in s] for a single character *)
Fixpoint has_char (c : ascii) (s : string) : bool :=
  match s with
  | EmptyString => false
  | String x s' => Ascii.eqb x c || has_char c s'
  end.

(** [s.lstrip(chars)] *)
Fixpoint lstrip (chars s : string) : string :=
  match s with
  | EmptyString => EmptyString
  | String c s' => if has_char c chars then lstrip chars s' else s
  end.

(** [s.rstrip(chars)] *)
Fixpoint rstrip (chars s : string) : string :=
  match s with
  | EmptyString => EmptyString
  | String c s' =>
      match rstrip chars s' with
      | EmptyString => if has_char c chars then EmptyString else String c EmptyString
      | r => String c r
      end
  end.

(** The characters [str.strip()] removes, among the first 256: the
    ASCII white space, the separators U+001C to U+001F, U+0085 and
    U+00A0. *)
Definition whitespace : string :=
  String (ascii_of_nat 9) (String (ascii_of_nat 10) (String (ascii_of_nat 11)
  (String (ascii_of_nat 12) (String (ascii_of_nat 13) (String (ascii_of_nat 28)
  (String (ascii_of_nat 29) (String (ascii_of_nat 30) (String (ascii_of_nat 31)
  (String (ascii_of_nat 32) (String (ascii_of_nat 133) (String (ascii_of_nat 160)
  EmptyString))))))))))).

(** [s.strip()] *)
Definition strip (s : string) : string := rstrip whitespace (lstrip whitespace s).

(** [s.partition(sep)] for a one-character separator: the text before
    the first [sep] and the text after it, or [None] without [sep]. *)
Fixpoint partition (sep : ascii) (s : string) : option (string * string) :=
  match s with
  | EmptyString => None
  | String c s' =>
      if Ascii.eqb c sep then Some (EmptyString, s')
      else match partition sep s' with
           | Some (a, b) => Some (String c a, b)
           | None => None
           end
  end.

(** [s.rpartition(sep)]: the same around the last [sep]. *)
Fixpoint rpartition (sep : ascii) (s : string) : option (string * string) :=
  match s with
  | EmptyString => None
  | String c s' =>
      match rpartition sep s' with
      | Some (a, b) => Some (String c a, b)
      | None => if Ascii.eqb c sep then Some (EmptyString, s') else None
      end
  end.

(** [s.rsplit(sep, 1)[0]] *)
Definition rsplit1_head (sep : ascii) (s : string) : string :=
  match rpartition sep s with
  | Some (a, _) => a
  | None => s
  end.

(** [s.split(sep)] for a one-character separator *)
Fixpoint split (sep : ascii) (s : string) : list string :=
  match s with
  | EmptyString => [EmptyString]
  | String c s' =>
      if Ascii.eqb c sep then EmptyString :: split sep s'
      else match split sep s' with
           | x :: xs => String c x :: xs
           | [] => [String c EmptyString]
           end
  end.

(** [re.sub("[" + chars + "]", repl, s)]: every character of the class
    [chars] is replaced by the character [repl]. *)
Fixpoint re_sub_class (chars : string) (repl : ascii) (s : string) : string :=
  match s with
  | EmptyString => EmptyString
  | String c s' =>
      String (if has_char c chars then repl else c) (re_sub_class chars repl s')
  end.

Definition digit_of (c : ascii) : option Z :=
  let n := nat_of_ascii c in
  if (48 <=? n)%nat && (n <=? 57)%nat then Some (Z.of_nat n - 48) else None.

(** The digits of an integer literal: decimal digits, where single
    underscores may stand between two digits. [prev] tells whether the
    previous character was a digit. *)
Fixpoint int_digits (acc : Z) (prev : bool) (s : string) : option Z :=
  match s with
  | EmptyString => if prev then Some acc else None
  | String c s' =>
      match digit_of c with
      | Some d => int_digits (10 * acc + d) true s'
      | None =>
          if Ascii.eqb c "_"%char && prev then
            match s' with
            | EmptyString => None
            | String c' _ =>
                match digit_of c' with
                | Some _ => int_digits acc false s'
                | None => None
                end
            end
          else None
      end
  end.

(** [int(s)] on a string of characters below 256, where the decimal
    digits are the ASCII ones: [None] stands for [ValueError]. The
    interpreter may refuse long literals (more than 4300 digits, by
    default, since CPython 3.11); this function reads a literal of any
    length. *)
Definition int (s : string) : option Z :=
  match strip s with
  | String "-" r => Z.opp <$> int_digits 0 false r
  | String "+" r => int_digits 0 false r
  | r => int_digits 0 false r
  end.

Fixpoint digits_of_pos_fuel (fuel : nat) (n : Z) (acc : string) : string :=
  match fuel with
  | O => acc
  | S f =>
      let acc' := String (ascii_of_nat (48 + Z.to_nat (n mod 10))) acc in
      if n <? 10 then acc' else digits_of_pos_fuel f (n / 10) acc'
  end.

(** [str(n)] for an integer [n] *)
Definition str_of_int (n : Z) : string :=
  if n <? 0 then String "-" (digits_of_pos_fuel (S (Z.to_nat (Z.log2 (- n)))) (- n) EmptyString)
  else digits_of_pos_fuel (S (Z.to_nat (Z.log2 n))) n EmptyString.

End PyStr.

(** ** [os.path] on a POSIX host *)

Module PosixPath.
Import PyStr.

(** [os.path.basename(p)] *)
Definition basename (p : string) : string :=
  match rpartition "/" p with
  | Some (_, b) => b
  | None => p
  end.

(** [os.path.join(a, b)] *)
Definition join (a b : string) : string :=
  if startswith b "/" then b
  else if String.eqb a "" || endswith a "/" then a +:+ b
  else a +:+ "/" +:+ b.

(** Whether [s] consists of dots only. *)
Fixpoint all_dots (s : string) : bool :=
  match s with
  | EmptyString => true
  | String c s' => Ascii.eqb c "." && all_dots s'
  end.

(** [os.path.splitext(p)[0]]: the path without the extension of its last
    component; a component made of leading dots only up to its last dot
    has no extension. *)
Definition splitext_root (p : string) : string :=
  let '(dir, name) := match rpartition "/" p with
                      | Some (d, b) => (d +:+ "/", b)
                      | None => (EmptyString, p)
                      end in
  match rpartition "." name with
  | Some (stem, _) => if all_dots stem then p else dir +:+ stem
  | None => p
  end.

End PosixPath.

(** ** [urllib.parse] *)

Module Url.

(** [urllib.parse.ParseResult] *)
Record ParseResult := {
  scheme : string;
  netloc : string;
  path : string;
  params : string;
  query : string;
  fragment : string
}.

(** [p._replace(fragment=f)] *)
Definition replace_fragment (p : ParseResult) (f : string) : ParseResult :=
  {| scheme := scheme p; netloc := netloc p; path := path p;
     params := params p; query := query p; fragment := f |}.

(** The three functions of [urllib.parse] the crawler calls. They belong
    to the Python library, so the crawler is defined and verified against
    this interface. *)
Class UrlLib := {
  urlparse : string -> ParseResult;
  urljoin : string -> string -> string;
  geturl : ParseResult -> string
}.

End Url.

(** A model of [urllib.parse] for [http]/[https] URLs, without the
    validation of the host (for which the library raises [ValueError]). It
    follows [urlsplit], [urlunsplit] and [urljoin] of CPython 3.11 and
    instantiates the interface in the worked examples below; the general
    statements are about any [UrlLib]. *)

Module SimpleUrl.
Import PyStr Url.

Definition is_alpha (c : ascii) : bool :=
  let n := nat_of_ascii (lower_char c) in (97 <=? n)%nat && (n <=? 122)%nat.

Definition is_scheme_char (c : ascii) : bool :=
  is_alpha c || match digit_of c with Some _ => true | None => false end
  || has_char c "+-.".

Fixpoint all_chars (f : ascii -> bool) (s : string) : bool :=
  match s with
  | EmptyString => true
  | String c s' => f c && all_chars f s'
  end.

(** The longest prefix without a character of [chars], and the rest. *)
Fixpoint break_at (chars s : string) : string * string :=
  match s with
  | EmptyString => (EmptyString, EmptyString)
  | String c s' =>
      if has_char c chars then (EmptyString, s)
      else let '(a, b) := break_at chars s' in (String c a, b)
  end.

Definition split_scheme (url : string) : string * string :=
  match url, partition ":" url with
  | String c _, Some (String c' a as sch, rest) =>
      if is_alpha c && all_chars is_scheme_char sch then (lower sch, rest)
      else (EmptyString, url)
  | _, _ => (EmptyString, url)
  end.

Definition uses_params (sch : string) : bool :=
  String.eqb sch "http" || String.eqb sch "https" || String.eqb sch "ftp"
  || String.eqb sch "".

Definition split_params (url : string) : string * string :=
  match rpartition "/" url with
  | Some (d, b) =>
      match partition ";" b with
      | Some (x, y) => (d +:+ "/" +:+ x, y)
      | None => (url, EmptyString)
      end
  | None =>
      match partition ";" url with
      | Some (x, y) => (x, y)
      | None => (url, EmptyString)
      end
  end.

(** [url.lstrip(_WHATWG_C0_CONTROL_OR_SPACE)]: the characters up to
    U+0020 are stripped from the front. *)
Fixpoint lstrip_c0 (url : string) : string :=
  match url with
  | EmptyString => EmptyString
  | String c r => if (nat_of_ascii c <=? 32)%nat then lstrip_c0 r else url
  end.

(** [url.replace(b, "")] for the characters tab, line feed and carriage
    return. *)
Fixpoint remove_unsafe (url : string) : string :=
  match url with
  | EmptyString => EmptyString
  | String c r =>
      let n := nat_of_ascii c in
      if (n =? 9)%nat || (n =? 10)%nat || (n =? 13)%nat then remove_unsafe r
      else String c (remove_unsafe r)
  end.

Definition parse_with (default_scheme : string) (url : string) : ParseResult :=
  let url := remove_unsafe (lstrip_c0 url) in
  let '(sch, url) := split_scheme url in
  let sch := if String.eqb sch "" then default_scheme else sch in
  let '(loc, url) :=
    match url with
    | String "/" (String "/" r) => break_at "/?#" r
    | _ => (EmptyString, url)
    end in
  let '(url, frag) := match partition "#" url with
                      | Some (a, b) => (a, b)
                      | None => (url, EmptyString)
                      end in
  let '(url, qry) := match partition "?" url with
                     | Some (a, b) => (a, b)
                     | None => (url, EmptyString)
                     end in
  let '(url, prm) := if uses_params sch then split_params url
                     else (url, EmptyString) in
  {| scheme := sch; netloc := loc; path := url; params := prm;
     query := qry; fragment := frag |}.

Definition parse : string -> ParseResult := parse_with "".

Definition uses_netloc (sch : string) : bool :=
  String.eqb sch "http" || String.eqb sch "https" || String.eqb sch "ftp".

Definition unparse (p : ParseResult) : string :=
  let url := if String.eqb (params p) "" then path p
             else path p +:+ ";" +:+ params p in
  let url :=
    if negb (String.eqb (netloc p) "")
       || (uses_netloc (scheme p) && negb (startswith url "//"))
    then "//" +:+ netloc p +:+
         (if negb (String.eqb url "") && negb (startswith url "/")
          then "/" +:+ url else url)
    else url in
  let url := if String.eqb (scheme p) "" then url else scheme p +:+ ":" +:+ url in
  let url := if String.eqb (query p) "" then url else url +:+ "?" +:+ query p in
  if String.eqb (fragment p) "" then url else url +:+ "#" +:+ fragment p.

(** [segments[1:-1] = filter(None, segments[1:-1])] *)
Definition drop_inner_empty (segs : list string) : list string :=
  match segs with
  | [] => []
  | x :: r =>
      match List.rev r with
      | [] => [x]
      | z :: mid => x :: List.filter (fun s => negb (String.eqb s "")) (List.rev mid) ++ [z]
      end
  end.

Definition resolve_dots (segs : list string) : list string :=
  let step (acc : list string) (seg : string) :=
    if String.eqb seg ".." then List.removelast acc
    else if String.eqb seg "." then acc
    else acc ++ [seg] in
  let out := fold_left step segs [] in
  match List.last segs "" with
  | "." | ".." => out ++ [EmptyString]
  | _ => out
  end.

Fixpoint join_segments (segs : list string) : string :=
  match segs with
  | [] => EmptyString
  | [x] => x
  | x :: r => x +:+ "/" +:+ join_segments r
  end.

Definition join (base url : string) : string :=
  if String.eqb base "" then url
  else if String.eqb url "" then base
  else
    let b := parse base in
    let u := parse_with (scheme b) url in
    if negb (String.eqb (scheme u) (scheme b)) || negb (uses_netloc (scheme u)) then url
    else if negb (String.eqb (netloc u) "") then unparse u
    else if String.eqb (path u) "" && String.eqb (params u) "" then
      unparse {| scheme := scheme u; netloc := netloc b; path := path b;
                 params := params b;
                 query := if String.eqb (query u) "" then query b else query u;
                 fragment := fragment u |}
    else
      let base_parts := split "/" (path b) in
      let base_parts := match List.last base_parts "" with
                        | EmptyString => base_parts
                        | _ => List.removelast base_parts
                        end in
      let segments := if startswith (path u) "/" then split "/" (path u)
                      else drop_inner_empty (base_parts ++ split "/" (path u)) in
      let joined := join_segments (resolve_dots segments) in
      unparse {| scheme := scheme u; netloc := netloc b;
                 path := if String.eqb joined "" then "/" else joined;
                 params := params u; query := query u; fragment := fragment u |}.

Definition lib : UrlLib :=
  {| urlparse := parse; urljoin := join; geturl := unparse |}.

End SimpleUrl.

(** ** The collaborators and the observable effects *)

(** What the crawler reads of a [requests.Response]. [hrefs] is the list
    [a_tag["href"]] for the tags of
    [BeautifulSoup(text, "html.parser").find_all("a", href=True)], in
    document order. *)
Record response := {
  status_code : Z;
  content_type : string;   (* headers.get("Content-Type", "") *)
  content : string;        (* the body as bytes *)
  text : string;           (* the decoded body *)
  hrefs : list string
}.

(** The outcome of [session.get(url, timeout=30)]: an exception of the
    transport or a response. *)
Inductive get_result :=
| GetRaised (exc : string)
| GetOk (r : response).

(** Effects in the order in which the run performs them. *)
Inductive event :=
| EvGet (url : string)                      (* session.get / requests.get *)
| EvWarnFetch (url exc : string)            (* logging.warning("Failed to fetch ...") *)
| EvWarnStatus (url : string) (code : Z)    (* logging.warning("Non-200 status ...") *)
| EvWritePdf (pdf_path : string)            (* open(pdf_path, "wb").write(...) *)
| EvWriteHtml (local_path : string)         (* open(local_path, "w").write(...) *)
| EvSleep (seconds : Q)                     (* time.sleep(self.delay) *)
| EvExtract (pdf_path : string).            (* extract_text_from_pdf(pdf_path) *)

(** The result of a call that may raise or, in the model, run out of fuel
    before its loop ends. *)
Inductive outcome (A : Type) :=
| Returned (a : A)
| Raised (exc : string)
| Unfinished.
Arguments Returned {A} a.
Arguments Raised {A} exc.
Arguments Unfinished {A}.

(** ** The crawl loop

    [WorkAndIncomeScraper.scrape] (scraper.py, lines 73-129) and
    [NavScraper._crawl_category] (nav_scraper.py, lines 98-147) run the
    same loop. The category loop has one more test on a discovered link
    (its path must start with [base_dir]) and does not log saved pages. *)

Module Crawl.
Import PyStr PosixPath Url.

(** The constructor arguments the two classes share. *)
Record config := {
  start_url : string;
  output_dir : string;
  delay : Q
}.

Definition html_dir (c : config) : string := join (output_dir c) "html".
Definition pdf_dir (c : config) : string := join (output_dir c) "pdfs".
Definition text_dir (c : config) : string := join (output_dir c) "pdf_text".

Inductive mode :=
| FullSite                         (* scraper.py *)
| Category (base_dir : string).    (* nav_scraper.py *)

(** The variables of a running loop, the file system and the effects so
    far. *)
Record state := {
  queue : list string;
  visited : gset string;
  files : gmap string string;
  trace : list event
}.

Section WithCollaborators.
Context {urllib : UrlLib}.
Variable http : string -> get_result.
Variable cfg : config.
Variable m : mode.
Variable base_domain : string.

(** ["application/pdf" in content_type or current_url.lower().endswith(".pdf")] *)
Definition is_pdf (r : response) (current_url : string) : bool :=
  contains (lower (content_type r)) "application/pdf"
  || endswith (lower current_url) ".pdf".

(** The file name of a PDF: the base name of the URL path with the
    characters of [[<>:/\\|?*]] replaced, [.pdf] appended if missing. *)
Definition pdf_filename (current_url : string) : string :=
  let filename :=
    re_sub_class "<>:/\|?*" "_" (basename (path (urlparse current_url))) in
  if endswith (lower filename) ".pdf" then filename else filename +:+ ".pdf".

Definition pdf_path (current_url : string) : string :=
  join (pdf_dir cfg) (pdf_filename current_url).

Definition html_rel_path (current_url : string) : string :=
  let rel_path := lstrip "/" (path (urlparse current_url)) in
  if String.eqb rel_path "" || endswith rel_path "/"
  then rel_path +:+ "index.html" else rel_path.

Definition local_path (current_url : string) : string :=
  join (html_dir cfg) (html_rel_path current_url).

(** The body of the [for a_tag in ...] loop for one [href]: the URL it
    appends to the queue, if any. *)
Definition discover_one (vis : gset string) (current_url href : string)
  : list string :=
  let next_url := urljoin current_url href in
  let parsed_next := urlparse next_url in
  if negb (String.eqb (scheme parsed_next) "http"
           || String.eqb (scheme parsed_next) "https") then []
  else if negb (String.eqb (netloc parsed_next) base_domain) then []
  else if match m with
          | FullSite => true
          | Category base_dir => startswith (path parsed_next) base_dir
          end
  then
    let normalised := geturl (replace_fragment parsed_next "") in
    if bool_decide (normalised ∈ vis) then [] else [normalised]
  else [].

(** What the [for] loop appends to the queue, in order. The loop does
    not change the visited set. *)
Definition discover (vis : gset string) (current_url : string)
    (hs : list string) : list string :=
  flat_map (discover_one vis current_url) hs.

(** One iteration of [while queue:]; [None] when the queue is empty.
    The iteration is the one in which [urljoin], [urlparse],
    [os.makedirs] and [open] return: when one of them raises, the run
    of the source ends within this iteration. *)
Definition step (st : state) : option state :=
  match queue st with
  | [] => None
  | current_url :: rest =>
      Some
        (if bool_decide (current_url ∈ visited st) then
           {| queue := rest; visited := visited st;
              files := files st; trace := trace st |}
         else
           let vis := {[current_url]} ∪ visited st in
           match http current_url with
           | GetRaised exc =>
               {| queue := rest; visited := vis; files := files st;
                  trace := trace st
                           ++ [EvGet current_url; EvWarnFetch current_url exc] |}
           | GetOk r =>
               if negb (status_code r =? 200) then
                 {| queue := rest; visited := vis; files := files st;
                    trace := trace st
                             ++ [EvGet current_url;
                                 EvWarnStatus current_url (status_code r)] |}
               else if is_pdf r current_url then
                 let p := pdf_path current_url in
                 match files st !! p with
                 | Some _ =>
                     {| queue := rest; visited := vis; files := files st;
                        trace := trace st
                                 ++ [EvGet current_url; EvSleep (delay cfg)] |}
                 | None =>
                     {| queue := rest; visited := vis;
                        files := <[p := content r]> (files st);
                        trace := trace st
                                 ++ [EvGet current_url; EvWritePdf p;
                                     EvSleep (delay cfg)] |}
                 end
               else
                 let lp := local_path current_url in
                 {| queue := rest ++ discover vis current_url (hrefs r);
                    visited := vis;
                    files := <[lp := text r]> (files st);
                    trace := trace st
                             ++ [EvGet current_url; EvWriteHtml lp;
                                 EvSleep (delay cfg)] |}
           end)
  end.

(** At most [fuel] iterations of the loop. *)
Fixpoint loop (fuel : nat) (st : state) : state :=
  match fuel with
  | O => st
  | S n =>
      match step st with
      | None => st
      | Some st' => loop n st'
      end
  end.

End WithCollaborators.

(** The URLs requested in a trace, in order. *)
Definition fetched (t : list event) : list string :=
  omap (fun e => match e with EvGet u => Some u | _ => None end) t.

End Crawl.

(** ** The extraction pass

    [WorkAndIncomeScraper.extract_all_pdfs] (scraper.py, lines 135-162) and
    [NavScraper._extract_all_pdfs] (nav_scraper.py, lines 149-165). The two
    differ in when they call [os.makedirs] and in a [try] around
    [os.path.getsize]; on the file map they are the same function. *)

Module PdfText.
Import PyStr PosixPath Crawl.

(** [s[n:]] *)
Fixpoint drop_chars (n : nat) (s : string) : string :=
  match n, s with
  | S k, String _ s' => drop_chars k s'
  | _, _ => s
  end.

(** [os.path.relpath(p, start)] for a path [p] below the directory
    [start]. *)
Definition relpath (p start : string) : string :=
  if startswith p (start +:+ "/") then drop_chars (String.length start + 1) p
  else p.

(** The files below [top]: one pair [(root, name)] of a directory and a
    file name for every stored path [top/.../name], in no particular
    order. *)
Definition files_below (fs : gmap string string) (top : string)
  : list (string * string) :=
  omap (fun kv : string * string =>
          let k := kv.1 in
          if startswith k (top +:+ "/") then
            let rel := drop_chars (String.length top + 1) k in
            match rpartition "/" rel with
            | Some (d, b) => Some (top +:+ "/" +:+ d, b)
            | None => Some (top, rel)
            end
          else None)
       (map_to_list fs).

(** The order of two directories in a walk from the top down, on their
    components: a directory comes before the directories below it, and
    the tree below one name before the tree below a greater name. *)
Fixpoint dir_leb (a b : list string) : bool :=
  match a, b with
  | [], _ => true
  | _ :: _, [] => false
  | x :: a', y :: b' =>
      match String.compare x y with
      | Lt => true
      | Eq => dir_leb a' b'
      | Gt => false
      end
  end.

(** The order of two entries of a walk: by directory, and within one
    directory by name. *)
Definition entry_leb (e1 e2 : string * string) : bool :=
  if String.eqb e1.1 e2.1 then
    match String.compare e1.2 e2.2 with Gt => false | _ => true end
  else dir_leb (split "/" e1.1) (split "/" e2.1).

Fixpoint insert_entry (e : string * string) (l : list (string * string))
  : list (string * string) :=
  match l with
  | [] => [e]
  | x :: r => if entry_leb e x then e :: l else x :: insert_entry e r
  end.

(** The [(root, name)] pairs that the loops over [os.walk(top)] go
    through, in their order: one for every file below [top]. [os.walk]
    goes from the top down: the files of a directory come before the
    files of the directories below it, and the tree below one
    sub-directory comes before the tree below the next. The order of the
    names within one directory is that of the directory listing, which
    the file system chooses; here it is the ascending one. *)
Definition walk (fs : gmap string string) (top : string) : list (string * string) :=
  fold_right insert_entry [] (files_below fs top).

Section WithExtractor.
(** [ocr_utils.extract_text_from_pdf]: reads the file at the path and
    returns its text, the empty string on any failure. *)
Variable extract_text_from_pdf : gmap string string -> string -> string.
Variable cfg : config.

Definition txt_full (root name : string) : string :=
  let pdf_path := join root name in
  let rel_path := relpath pdf_path (pdf_dir cfg) in
  let txt_rel := splitext_root rel_path +:+ ".txt" in
  join (text_dir cfg) txt_rel.

(** [os.path.exists(p) and os.path.getsize(p) > 0] *)
Definition exists_nonempty (fs : gmap string string) (p : string) : bool :=
  match fs !! p with
  | Some s => (0 <? String.length s)%nat
  | None => false
  end.

(** The body of the inner [for name in files] loop. *)
Definition extract_one (st : gmap string string * list event)
    (entry : string * string) : gmap string string * list event :=
  let '(fs, tr) := st in
  let '(root, name) := entry in
  if negb (endswith (lower name) ".pdf") then st
  else
    let pdf_path := join root name in
    let txt := txt_full root name in
    if exists_nonempty fs txt then st
    else
      let text := extract_text_from_pdf fs pdf_path in
      (<[txt := text]> fs, tr ++ [EvExtract pdf_path]).

Definition extract_entries (entries : list (string * string))
    (st : gmap string string * list event) : gmap string string * list event :=
  fold_left extract_one entries st.

Definition extract_all_pdfs (st : gmap string string * list event)
  : gmap string string * list event :=
  extract_entries (walk st.1 (pdf_dir cfg)) st.

End WithExtractor.

End PdfText.

(** [int(x)] for a float [x]: truncation towards zero. A clock reading is
    the rational number the float denotes. *)
Definition int_of_float (x : Q) : Z := Z.quot (Qnum x) (Zpos (Qden x)).

(** ** [scraper.py]: class [WorkAndIncomeScraper] *)

Module Scraper.
Import PyStr PosixPath Url Crawl.

Record WorkAndIncomeScraper := {
  cfg : config;
  _visited : gset string
}.

(** [WorkAndIncomeScraper()] with the defaults of the dataclass. *)
Definition default : WorkAndIncomeScraper :=
  {| cfg := {| start_url := "https://www.workandincome.govt.nz/map/index.html";
               output_dir := "data";
               delay := 3 # 10 |};
     _visited := ∅ |}.

Definition last_scrape_file (self : WorkAndIncomeScraper) : string :=
  join (output_dir (cfg self)) "last_scrape.txt".

Section WithCollaborators.
Context {urllib : UrlLib}.
Variable http : string -> get_result.

Definition base_domain (self : WorkAndIncomeScraper) : string :=
  netloc (urlparse (start_url (cfg self))).

(** The state in which [scrape] enters its loop. *)
Definition scrape_init (self : WorkAndIncomeScraper)
    (fs : gmap string string) : state :=
  {| queue := [start_url (cfg self)]; visited := _visited self;
     files := fs; trace := [] |}.

Definition scrape_step (self : WorkAndIncomeScraper) : state -> option state :=
  step http (cfg self) FullSite (base_domain self).

(** The state of [scrape] after at most [fuel] iterations. *)
Definition scrape_loop (self : WorkAndIncomeScraper) (fuel : nat)
    (fs : gmap string string) : state :=
  loop http (cfg self) FullSite (base_domain self) fuel (scrape_init self fs).

(** [scrape()]: the loop, then the time stamp. [now] is the value of
    [time.time()] when the loop has ended. *)
Definition scrape (self : WorkAndIncomeScraper) (now : Q) (fuel : nat)
    (fs : gmap string string)
  : outcome (WorkAndIncomeScraper * gmap string string * list event) :=
  let st := scrape_loop self fuel fs in
  match queue st with
  | [] =>
      Returned ({| cfg := cfg self; _visited := visited st |},
                <[last_scrape_file self := str_of_int (int_of_float now)]> (files st),
                trace st)
  | _ :: _ => Unfinished
  end.

(** [extract_all_pdfs()] *)
Definition extract_all_pdfs
    (extract_text_from_pdf : gmap string string -> string -> string)
    (self : WorkAndIncomeScraper) (st : gmap string string * list event)
  : gmap string string * list event :=
  PdfText.extract_all_pdfs extract_text_from_pdf (cfg self) st.

End WithCollaborators.

(** The conversion of the integer operand of [time.time() - last_ts] to
    a float: the integer is rounded to the nearest float, and the
    conversion raises [OverflowError] when that is beyond the largest
    one, which is so from [2^1024 - 2^970] on. [round] is the rounding
    of a real number to the nearest float. *)
Definition float_of_int (round : Q -> Q) (n : Z) : option Q :=
  if 2 ^ 1024 - 2 ^ 970 <=? Z.abs n then None else Some (round (inject_Z n)).

(** [needs_update(days)], lines 174-181. [read] is the outcome of opening
    and reading a text file, [None] when [open] or [read] raises; [py_int]
    is [int] of the interpreter, [None] when it raises [ValueError];
    [now] is the value of [time.time()]. The [try] ends before the
    subtraction, so the [OverflowError] of the conversion leaves the
    function. *)
Definition needs_update_with (py_int : string -> option Z) (round : Q -> Q)
    (self : WorkAndIncomeScraper) (read : string -> option string)
    (now : Q) (days : Z) : outcome bool :=
  match read (last_scrape_file self) with
  | None => Returned true
  | Some content =>
      let last_ts_str := strip content in
      match py_int last_ts_str with
      | None => Returned true
      | Some last_ts =>
          match float_of_int round last_ts with
          | None => Raised "OverflowError"
          | Some ts =>
              let age_seconds := round (now - ts)%Q in
              Returned (negb (Qle_bool age_seconds (inject_Z (days * 24 * 3600))))
          end
      end
  end.

(** [needs_update(days)] in exact arithmetic: the answer of
    [needs_update_with] when [int] reads the stamp as [PyStr.int] does,
    the stamp is within the range of the floats, and neither the
    conversion nor the subtraction rounds. *)
Definition needs_update (self : WorkAndIncomeScraper)
    (read : string -> option string) (now : Q) (days : Z) : bool :=
  match read (last_scrape_file self) with
  | None => true
  | Some content =>
      let last_ts_str := strip content in
      match int last_ts_str with
      | None => true
      | Some last_ts =>
          let age_seconds := (now - inject_Z last_ts)%Q in
          negb (Qle_bool age_seconds (inject_Z (days * 24 * 3600)))
      end
  end.

(** Reading a file of the file map. *)
Definition read_text (fs : gmap string string) (p : string) : option string :=
  fs !! p.

Section RunUpdate.
Context {urllib : UrlLib}.
Variable http : string -> get_result.
Variable extract_text_from_pdf : gmap string string -> string -> string.

(** [run_update(force)]; [now0] is the clock when the age is tested,
    [now1] when the crawl ends. The age test is the exact one: the
    stamp is taken to be within the range of the floats, as every
    stamp that [scrape] writes is. *)
Definition run_update (self : WorkAndIncomeScraper) (force : bool)
    (now0 now1 : Q) (fuel : nat) (fs : gmap string string)
  : outcome (WorkAndIncomeScraper * gmap string string * list event) :=
  if force || needs_update self (read_text fs) now0 30 then
    match scrape http self now1 fuel fs with
    | Returned (self', fs', tr) =>
        let '(fs'', tr') := extract_all_pdfs extract_text_from_pdf self' (fs', tr) in
        Returned (self', fs'', tr')
    | Raised exc => Raised exc
    | Unfinished => Unfinished
    end
  else Returned (self, fs, []).

End RunUpdate.

End Scraper.

(** ** [nav_scraper.py]: class [NavScraper] *)

Module Nav.
Import PyStr PosixPath Url Crawl.

Record NavScraper := { cfg : config }.

Definition default : NavScraper :=
  {| cfg := {| start_url := "https://www.workandincome.govt.nz/map/index.html";
               output_dir := "data";
               delay := 3 # 10 |} |}.

Definition last_scrape_file (self : NavScraper) : string :=
  join (output_dir (cfg self)) "last_nav_scrape.txt".

(** Insertion of a string into a strictly increasing list. *)
Fixpoint insert_sorted (x : string) (l : list string) : list string :=
  match l with
  | [] => [x]
  | y :: r =>
      match String.compare x y with
      | Lt => x :: l
      | Eq => l
      | Gt => y :: insert_sorted x r
      end
  end.

(** [sorted(set(l))] *)
Definition sorted_set (l : list string) : list string :=
  fold_right insert_sorted [] l.

Section WithCollaborators.
Context {urllib : UrlLib}.
Variable http : string -> get_result.

(** Lines 88-92: the directory of a category. *)
Definition base_dir_of (category_url : string) : string :=
  let start_path := path (urlparse category_url) in
  if endswith start_path ".html" then rsplit1_head "/" start_path +:+ "/"
  else rstrip "/" start_path +:+ "/".

Definition category_domain (category_url : string) : string :=
  netloc (urlparse category_url).

Definition category_init (category_url : string)
    (w : gmap string string * list event) : state :=
  {| queue := [category_url]; visited := ∅; files := w.1; trace := w.2 |}.

Definition category_step (self : NavScraper) (category_url : string)
  : state -> option state :=
  step http (cfg self) (Category (base_dir_of category_url))
       (category_domain category_url).

(** The state of [_crawl_category] after at most [fuel] iterations. *)
Definition category_loop (self : NavScraper) (category_url : string)
    (fuel : nat) (w : gmap string string * list event) : state :=
  loop http (cfg self) (Category (base_dir_of category_url))
       (category_domain category_url) fuel (category_init category_url w).

(** [_crawl_category(category_url)] *)
Definition _crawl_category (self : NavScraper) (category_url : string)
    (fuel : nat) (w : gmap string string * list event)
  : outcome (gmap string string * list event) :=
  let st := category_loop self category_url fuel w in
  match queue st with
  | [] => Returned (files st, trace st)
  | _ :: _ => Unfinished
  end.

(** Lines 55-72: the category links of the navigation page. *)
Definition nav_link (self : NavScraper) (href : string) : list string :=
  if negb (startswith href "/map/") then []
  else
    let segments :=
      List.filter (fun seg => negb (String.eqb seg ""))
                  (split "/" (path (urlparse href))) in
    if (length segments <=? 3)%nat then
      if bool_decide (segments = ["map"; "index.html"]) then []
      else [urljoin (start_url (cfg self)) href]
    else [].

Definition nav_links (self : NavScraper) (resp : response) : list string :=
  sorted_set (flat_map (nav_link self) (hrefs resp)).

(** [for link in nav_links: self._crawl_category(link)] *)
Fixpoint crawl_categories (self : NavScraper) (links : list string)
    (fuel : nat) (w : gmap string string * list event)
  : outcome (gmap string string * list event) :=
  match links with
  | [] => Returned w
  | link :: rest =>
      match _crawl_category self link fuel w with
      | Returned w' => crawl_categories self rest fuel w'
      | Raised exc => Raised exc
      | Unfinished => Unfinished
      end
  end.

(** [_extract_all_pdfs()] *)
Definition _extract_all_pdfs
    (extract_text_from_pdf : gmap string string -> string -> string)
    (self : NavScraper) (st : gmap string string * list event)
  : gmap string string * list event :=
  PdfText.extract_all_pdfs extract_text_from_pdf (cfg self) st.

(** [resp.raise_for_status()] raises [HTTPError] for the status codes
    400 to 599. *)
Definition raise_for_status (resp : response) : bool :=
  (400 <=? status_code resp) && (status_code resp <? 600).

(** [scrape()]. [fuel] bounds the iterations of each category loop. *)
Definition scrape
    (extract_text_from_pdf : gmap string string -> string -> string)
    (self : NavScraper) (now : Q) (fuel : nat) (fs : gmap string string)
  : outcome (gmap string string * list event) :=
  match http (start_url (cfg self)) with
  | GetRaised exc => Raised exc
  | GetOk resp =>
      if raise_for_status resp then Raised "HTTPError"
      else
        match crawl_categories self (nav_links self resp) fuel
                               (fs, [EvGet (start_url (cfg self))]) with
        | Returned w =>
            let '(fs', tr) := _extract_all_pdfs extract_text_from_pdf self w in
            Returned (<[last_scrape_file self := str_of_int (int_of_float now)]> fs', tr)
        | Raised exc => Raised exc
        | Unfinished => Unfinished
        end
  end.

End WithCollaborators.

End Nav.

(** ** Crawl depth

    The crawl depth of a queue entry is 0 for the start URL and one more
    than the depth of the page on which the entry was discovered. The loop
    does not store it; [Depth] runs the loop of the source unchanged and
    keeps, next to it, the depth of every pending entry and the log of the
    entries dequeued and of the entries fetched so far. *)

Module Depth.
Import Crawl.

Record tagged := {
  st : state;
  pending : list nat;                (* the depths of [queue st], entry by entry *)
  dequeued : list (string * nat);    (* every entry taken by [popleft], in order *)
  got : list (string * nat)          (* those of them that were requested *)
}.

Definition start (s : state) : tagged :=
  {| st := s; pending := (fun _ => O) <$> queue s; dequeued := []; got := [] |}.

Section WithStep.
Variable step : state -> option state.

Definition tstep (t : tagged) : option tagged :=
  match queue (st t), pending t, step (st t) with
  | u :: rest, d :: ds, Some s' =>
      Some {| st := s';
              pending := ds ++ replicate (length (queue s') - length rest) (S d);
              dequeued := dequeued t ++ [(u, d)];
              got := if bool_decide (u ∈ visited (st t)) then got t
                     else got t ++ [(u, d)] |}
  | _, _, _ => None
  end.

Fixpoint tloop (fuel : nat) (t : tagged) : tagged :=
  match fuel with
  | O => t
  | S n =>
      match tstep t with
      | None => t
      | Some t' => tloop n t'
      end
  end.

End WithStep.

(** Every entry that was ever in the queue, in the order of the queue:
    the dequeued ones, then the pending ones. *)
Definition timeline (t : tagged) : list (string * nat) :=
  dequeued t ++ zip (queue (st t)) (pending t).

(** What the bookkeeping maintains: the depths stand entry by entry next
    to the queue; in queue order the depths never decrease; no pending
    depth exceeds the depth of the head by more than one; the requested
    entries are dequeued entries, in order; and the requests of the trace
    are the requests of the log. [t0] is the trace before the run. *)
Definition inv (t0 : list event) (t : tagged) : Prop :=
  length (pending t) = length (queue (st t))
  /\ StronglySorted le ((dequeued t).*2 ++ pending t)
  /\ (forall h x, head (pending t) = Some h -> x ∈ pending t -> (x <= S h)%nat)
  /\ StronglySorted le (got t).*2
  /\ (forall x, x ∈ (got t).*2 -> x ∈ (dequeued t).*2)
  /\ fetched (trace (st t)) = fetched t0 ++ (got t).*1.

End Depth.

(** ** The claim on the category prefix, in the words of the specification *)

Module SpecWords.
Import PyStr.

(** The prefix of a category is its start path without the trailing file
    name: the path up to its last slash, slash included. *)
Fixpoint drop_trailing_filename (p : string) : string :=
  match p with
  | EmptyString => EmptyString
  | String c p' =>
      if has_char "/" p' then String c (drop_trailing_filename p')
      else if Ascii.eqb c "/" then "/" else EmptyString
  end.

(** The scope rule: "a target is in-scope iff its domain matches and
    (category mode only) its path starts with the prefix", for targets
    with an [http] or [https] scheme. *)
Definition in_scope `{Url.UrlLib} (category_mode : bool) (start_url : string)
    (target : Url.ParseResult) : Prop :=
  (Url.scheme target = "http" \/ Url.scheme target = "https")
  /\ Url.netloc target = Url.netloc (Url.urlparse start_url)
  /\ (category_mode = true ->
      startswith (Url.path target)
                 (drop_trailing_filename (Url.path (Url.urlparse start_url))) = true).

End SpecWords.

(** ** Fixture sites for the worked examples *)

Module Fixtures.
Import Crawl.

Definition html (links : list string) : get_result :=
  GetOk {| status_code := 200; content_type := "text/html; charset=utf-8";
           content := "<html>"; text := "<html>"; hrefs := links |}.

Definition pdf (body : string) : get_result :=
  GetOk {| status_code := 200; content_type := "application/pdf";
           content := body; text := body; hrefs := [] |}.

Definition status (code : Z) : get_result :=
  GetOk {| status_code := code; content_type := "text/html";
           content := ""; text := ""; hrefs := [] |}.

(** A site given by the list of its pages; every other URL fails. *)
Fixpoint site (pages : list (string * get_result)) (url : string) : get_result :=
  match pages with
  | [] => GetRaised "ConnectionError"
  | (u, r) :: rest => if String.eqb u url then r else site rest url
  end.

Definition scraper_at (url : string) : Scraper.WorkAndIncomeScraper :=
  {| Scraper.cfg := {| start_url := url; output_dir := "data"; delay := 3 # 10 |};
     Scraper._visited := ∅ |}.

Definition nav_at (url : string) : Nav.NavScraper :=
  {| Nav.cfg := {| start_url := url; output_dir := "data"; delay := 3 # 10 |} |}.

(** The page graph A -> {B, C}, B -> {D}, C -> {}. *)
Definition site_abcd : string -> get_result :=
  site [("https://x/A", html ["/B"; "/C"]);
        ("https://x/B", html ["/D"]);
        ("https://x/C", html []);
        ("https://x/D", html [])].

(** A -> {B, C}, B -> {C}: C is found on two pages. *)
Definition site_shared : string -> get_result :=
  site [("https://x/A", html ["/B"; "/C"]);
        ("https://x/B", html ["/C"]);
        ("https://x/C", html [])].

(** One page that links to two of its own sections. The HTTP client does
    not send fragments, so the page answers under every fragment. *)
Definition site_fragments : string -> get_result :=
  site [("https://x/y#top", html ["#section1"; "#section2"]);
        ("https://x/y", html ["#section1"; "#section2"])].

(** A navigation page whose category link carries a fragment; the
    category page links to itself. *)
Definition site_nav_fragment : string -> get_result :=
  site [("https://h/map/index.html", html ["/map/card-services/index.html#main"]);
        ("https://h/map/card-services/index.html#main", html ["index.html"]);
        ("https://h/map/card-services/index.html", html ["index.html"])].

(** A -> {B, D, C}, where B answers 404 and D does not answer. *)
Definition site_failures : string -> get_result :=
  site [("https://x/A", html ["/B"; "/D"; "/C"]);
        ("https://x/B", status 404);
        ("https://x/C", html [])].

(** Two PDFs with the same file name in different directories. *)
Definition site_two_pdfs : string -> get_result :=
  site [("https://x/A", html ["/a/doc.pdf"; "/b/doc.pdf"]);
        ("https://x/a/doc.pdf", pdf "%PDF-first");
        ("https://x/b/doc.pdf", pdf "%PDF-second")].

(** A navigation page with one category; the category page links into
    its own directory and into another category. *)
Definition site_category : string -> get_result :=
  site [("https://h/map/index.html", html ["/map/card-services/index.html"]);
        ("https://h/map/card-services/index.html",
         html ["sub/page.html"; "/map/deskfile/page.html"]);
        ("https://h/map/card-services/sub/page.html", html [])].

(** The content of a time stamp file: the digit 1 followed by 400
    zeros. *)
Definition huge_stamp : string :=
  String "1" (string_of_list_ascii (replicate 400 "0"%char)).

(** A text extractor: the text of a PDF is its content without the first
    five characters, the empty string when the file is missing. *)
Definition extractor (fs : gmap string string) (p : string) : string :=
  match fs !! p with
  | Some s => PdfText.drop_chars 5 s
  | None => EmptyString
  end.

End Fixtures.

(** ** Notions of the statements

    Some of the statements below need a condition or a quantity that the
    source leaves implicit. They are the notions of this module; none of
    them is a function of the source. *)

Module Notions.
Import PyStr PosixPath Url Crawl.

Section Scope.
Context {urllib : UrlLib}.
Variable m : mode.
Variable base_domain : string.

(** The tests of the [for] loop over the links of a page, as one
    condition on the page and the [href]. *)
Definition passes (cur href : string) : bool :=
  let target := urlparse (urljoin cur href) in
  (String.eqb (scheme target) "http" || String.eqb (scheme target) "https")
  && String.eqb (netloc target) base_domain
  && match m with
     | FullSite => true
     | Category base_dir => startswith (path target) base_dir
     end.

(** A URL that is the target of a link that passed these tests: an
    [http] or [https] URL of the domain, below the category prefix in
    category mode, without its fragment. *)
Definition scoped (u : string) : Prop :=
  exists current_url href,
    let target := urlparse (urljoin current_url href) in
    u = geturl (replace_fragment target "")
    /\ (scheme target = "http" \/ scheme target = "https")
    /\ netloc target = base_domain
    /\ match m with
       | FullSite => True
       | Category base_dir => startswith (path target) base_dir = true
       end.

End Scope.

(** A bound on the iterations that a loop has left: the entries of the
    queue, and, for every URL of [W] that is not visited yet, its request
    and the links that its page may add. *)
Definition budget (W : gset string) (L : nat) (s : state) : nat :=
  length (queue s) + (L + 1) * size (W ∖ visited s).

Section Count.
Context {urllib : UrlLib}.
Variable http : string -> get_result.
Variable cfg : config.
Variable m : mode.
Variable base_domain : string.

(** The number of times that the body of [while queue:] runs from the
    state [s] on, counted up to [bound]. *)
Fixpoint iterations (bound : nat) (s : state) : nat :=
  match bound with
  | O => O
  | S n =>
      match step http cfg m base_domain s with
      | None => O
      | Some s' => S (iterations n s')
      end
  end.

End Count.

(** Decimal digits, and the characters that [str.strip()] keeps. *)
Definition is_digit (c : ascii) : bool :=
  match digit_of c with Some _ => true | None => false end.

Definition not_space (c : ascii) : bool := negb (has_char c whitespace).

(** What [os.path.join] puts before a relative name below the output
    directory [od]. *)
Definition prefix_of (od : string) : string :=
  if String.eqb od "" || endswith od "/" then od else od +:+ "/".

(** A relative path without a [..] component: joined to a directory, it
    names a file below that directory. *)
Definition no_parent_segment (p : string) : bool :=
  forallb (fun seg => negb (String.eqb seg "..")) (split "/" p).

(** A relative path in normal form: no component is empty, [.] or
    [..]. Two such paths name the same file only if they are equal. *)
Definition plain_path (p : string) : bool :=
  forallb (fun seg => negb (String.eqb seg "" || String.eqb seg "."
                            || String.eqb seg ".."))
          (split "/" p).

Section Layout.
Context {urllib : UrlLib}.
Variable cfg : config.

(** The text file of the PDF that the crawler stores for a URL. *)
Definition text_path (u : string) : string :=
  text_dir cfg +:+ "/" +:+ splitext_root (pdf_filename u) +:+ ".txt".

(** No stored path has an empty component right below [pdfs]; no path
    of a file system has one. *)
Definition tidy (fs : gmap string string) : Prop :=
  forall k, is_Some (fs !! k) -> startswith k (pdf_dir cfg +:+ "//") = false.

(** The pages requested in a trace are saved below [html]: the
    relative path of none of them has a [..] component, so the path of
    none of them leaves the directory. *)
Definition pages_below_html (t : list event) : Prop :=
  forall u, u ∈ fetched t -> no_parent_segment (html_rel_path u) = true.

End Layout.

(** Whether a run returned, and the statement that it returned with a
    result that has the property [P]. *)
Definition is_returned {A : Type} (o : outcome A) : bool :=
  match o with Returned _ => true | _ => false end.

Definition on_return {A : Type} (o : outcome A) (P : A -> Prop) : Prop :=
  match o with Returned x => P x | _ => False end.

(** The order in which [sorted] puts strings. *)
Definition str_lt (a b : string) : Prop := String.compare a b = Lt.

End Notions.

(** * Properties *)

(** ** The model on small inputs *)

Module Examples.
Import PyStr PosixPath Url Crawl.

Example lower_and_suffix :
  lower "Report.PDF" = "report.pdf"
  /\ endswith "report.pdf" ".pdf" = true
  /\ endswith "report.pdfx" ".pdf" = false
  /\ contains "text/html; application/pdf" "application/pdf" = true.
Proof. repeat split; reflexivity. Qed.

Example strip_and_split :
  lstrip "/" "//map/a/" = "map/a/"
  /\ rstrip "/" "/map/a//" = "/map/a"
  /\ rsplit1_head "/" "/map/card-services/index.html" = "/map/card-services"
  /\ split "/" "/map//x/" = [""; "map"; ""; "x"; ""].
Proof. repeat split; reflexivity. Qed.

Example int_literals :
  int " 1730000000 " = Some 1730000000
  /\ int "-12" = Some (-12)
  /\ int "1_000" = Some 1000
  /\ int "1__0" = None
  /\ int "12a" = None
  /\ int "" = None
  /\ str_of_int 1730000000 = "1730000000"
  /\ str_of_int 0 = "0".
Proof. repeat split; reflexivity. Qed.

Example paths :
  basename "/a/b/c.pdf" = "c.pdf"
  /\ basename "/a/b/" = ""
  /\ join "data" "pdfs" = "data/pdfs"
  /\ join "data/" "pdfs" = "data/pdfs"
  /\ join "" "pdfs" = "pdfs"
  /\ splitext_root "sub/a.pdf" = "sub/a"
  /\ splitext_root ".pdf" = ".pdf"
  /\ splitext_root "a.tar.PDF" = "a.tar".
Proof. repeat split; reflexivity. Qed.

Example urls :
  SimpleUrl.parse "https://h/map/index.html?a=1#top"
  = {| scheme := "https"; netloc := "h"; path := "/map/index.html";
       params := ""; query := "a=1"; fragment := "top" |}
  /\ SimpleUrl.join "https://h/map/a/index.html" "../b/./c.html?q=1"
     = "https://h/map/b/c.html?q=1"
  /\ SimpleUrl.join "https://h/map/index.html" "/map/card/index.html#a"
     = "https://h/map/card/index.html#a"
  /\ SimpleUrl.join "https://h/y#top" "#s1" = "https://h/y#s1"
  /\ SimpleUrl.join "https://h/y" "mailto:me" = "mailto:me"
  /\ SimpleUrl.unparse (replace_fragment (SimpleUrl.parse "https://h/y?q#s1") "")
     = "https://h/y?q".
Proof. repeat split; reflexivity. Qed.

Example archive_paths :
  let cfg := Scraper.cfg Scraper.default in
  @pdf_path SimpleUrl.lib cfg "https://h/docs/a:b.pdf" = "data/pdfs/a_b.pdf"
  /\ @pdf_path SimpleUrl.lib cfg "https://h/docs/FORM.PDF?v=2" = "data/pdfs/FORM.PDF"
  /\ @pdf_path SimpleUrl.lib cfg "https://h/download/form1" = "data/pdfs/form1.pdf"
  /\ @pdf_path SimpleUrl.lib cfg "https://h/" = "data/pdfs/.pdf"
  /\ @local_path SimpleUrl.lib cfg "https://h" = "data/html/index.html"
  /\ @local_path SimpleUrl.lib cfg "https://h/map/" = "data/html/map/index.html"
  /\ @local_path SimpleUrl.lib cfg "https://h/map/a.html" = "data/html/map/a.html".
Proof. repeat split; reflexivity. Qed.

(** A category crawl stays in its category, and the time stamp is
    written at the end. *)
Example nav_scrape_of_one_category :
  @Nav.nav_links SimpleUrl.lib (Fixtures.nav_at "https://h/map/index.html")
     {| status_code := 200; content_type := "text/html"; content := ""; text := "";
        hrefs := ["/map/deskfile/index.html"; "/map/index.html"; "/about/x.html";
                  "/map/card-services/index.html"; "/map/a/b/c/d.html";
                  "/map/deskfile/index.html"] |}
  = ["https://h/map/card-services/index.html"; "https://h/map/deskfile/index.html"]
  /\ exists fs,
       @Nav.scrape SimpleUrl.lib Fixtures.site_category Fixtures.extractor
          (Fixtures.nav_at "https://h/map/index.html") (3460000001 # 2) 10 ∅
       = Returned (fs,
           [EvGet "https://h/map/index.html";
            EvGet "https://h/map/card-services/index.html";
            EvWriteHtml "data/html/map/card-services/index.html"; EvSleep (3 # 10);
            EvGet "https://h/map/card-services/sub/page.html";
            EvWriteHtml "data/html/map/card-services/sub/page.html"; EvSleep (3 # 10)])
       /\ fs !! "data/last_nav_scrape.txt" = Some "1730000000".
Proof.
  split; [vm_compute; reflexivity|].
  eexists. split; [vm_compute; reflexivity|]. vm_compute. reflexivity.
Qed.

End Examples.

(** ** Strings and paths *)

Module StrFacts.
Import PyStr PosixPath.

#[local] Arguments String.append !s1 s2 : simpl nomatch.

Lemma append_cons (x : ascii) (a b : string) :
  String x a +:+ b = String x (a +:+ b).
Proof. reflexivity. Qed.

Lemma append_assoc (a b c : string) : (a +:+ b) +:+ c = a +:+ (b +:+ c).
Proof.
  induction a as [|x a IH]; [reflexivity|]. by rewrite !append_cons, IH.
Qed.

Lemma endswith_snoc_char (a : string) (c d : ascii) :
  c <> d -> endswith (a +:+ String c "") (String d "") = false.
Proof.
  intros Hcd. induction a as [|x a IH].
  - cbn. destruct (Ascii.eqb_spec c d); [done|reflexivity].
  - rewrite append_cons. cbn. rewrite IH, orb_false_r.
    destruct (Ascii.eqb x d); [|reflexivity].
    destruct a; reflexivity.
Qed.

Lemma lstrip_head (chars s : string) (c : ascii) (r : string) :
  lstrip chars s = String c r -> has_char c chars = false.
Proof.
  induction s as [|x s IH]; cbn; [discriminate|].
  destruct (has_char x chars) eqn:Hx; [exact IH|].
  intros [= <- <-]. exact Hx.
Qed.

Lemma re_sub_class_head (chars : string) (repl c : ascii) (s r : string) :
  has_char repl chars = false ->
  re_sub_class chars repl s = String c r -> has_char c chars = false.
Proof.
  intros Hr. destruct s as [|x s]; cbn; [discriminate|].
  intros [= <- _]. destruct (has_char x chars) eqn:Hx; [exact Hr|exact Hx].
Qed.

(** [os.path.join] of a directory that does not end in a slash and a
    relative name. *)
Lemma join_relative (a b : string) :
  a <> "" -> endswith a "/" = false -> startswith b "/" = false ->
  join a b = a +:+ "/" +:+ b.
Proof.
  intros Ha He Hb. unfold join. rewrite Hb, He, orb_false_r.
  destruct (String.eqb_spec a ""); [done|reflexivity].
Qed.

(** The sub-directories of the output directory: a common prefix, then
    the name of the sub-directory. *)
Lemma join_output_dir (od name : string) :
  startswith name "/" = false ->
  join od name = (if String.eqb od "" || endswith od "/" then od else od +:+ "/") +:+ name.
Proof.
  intros Hn. unfold join. rewrite Hn.
  destruct (String.eqb od "" || endswith od "/"); [reflexivity|].
  by rewrite append_assoc.
Qed.

Lemma rpartition_none (sep : ascii) (p : string) :
  has_char sep p = false -> rpartition sep p = None.
Proof.
  induction p as [|c p IH]; [reflexivity|]. cbn.
  intros [Hc Hp]%orb_false_iff. by rewrite (IH Hp), Hc.
Qed.

Lemma rpartition_slash (p : string) :
  has_char "/" p = true ->
  exists a b, rpartition "/" p = Some (a, b)
              /\ a +:+ "/" = SpecWords.drop_trailing_filename p.
Proof.
  induction p as [|c p IH]; [discriminate|].
  cbn [has_char rpartition SpecWords.drop_trailing_filename].
  destruct (has_char "/" p) eqn:Hp.
  - intros _. destruct (IH eq_refl) as (a & b & -> & Ha).
    exists (String c a), b. by rewrite append_cons, Ha.
  - rewrite orb_false_r. intros Hc. rewrite (rpartition_none _ _ Hp), Hc.
    by exists "", p.
Qed.

(** [s.rsplit("/", 1)[0] + "/"] is the path without its trailing file
    name as soon as the path has a slash. *)
Lemma rsplit1_head_slash (p : string) :
  has_char "/" p = true ->
  rsplit1_head "/" p +:+ "/" = SpecWords.drop_trailing_filename p.
Proof.
  intros (a & b & Hr & Ha)%rpartition_slash. unfold rsplit1_head. by rewrite Hr.
Qed.

End StrFacts.

(** ** The crawl loop *)

Module CrawlFacts.
Import PyStr PosixPath Url Crawl StrFacts.

#[local] Arguments String.append !s1 s2 : simpl nomatch.

Lemma startswith_slash_false (c : ascii) (r chars : string) :
  has_char "/" chars = true -> has_char c chars = false ->
  startswith (String c r) "/" = false.
Proof.
  intros Hs Hc. unfold startswith.
  change (String.prefix "/" (String c r))
    with (if ascii_dec "/" c then String.prefix "" r else false).
  destruct (ascii_dec "/" c) as [<-|]; [congruence|reflexivity].
Qed.

Section Paths.
Context {urllib : UrlLib}.
Variable cfg : config.

Lemma pdf_filename_relative (u : string) :
  startswith (pdf_filename u) "/" = false.
Proof.
  unfold pdf_filename.
  destruct (re_sub_class _ _ _) as [|c r] eqn:Hf; [reflexivity|].
  apply re_sub_class_head in Hf; [|reflexivity].
  destruct (endswith _ _); [|rewrite append_cons];
    by apply startswith_slash_false with (chars := "<>:/\|?*").
Qed.

Lemma html_rel_path_relative (u : string) :
  startswith (html_rel_path u) "/" = false.
Proof.
  unfold html_rel_path.
  destruct (lstrip "/" _) as [|c r] eqn:Hf; [reflexivity|].
  apply lstrip_head in Hf.
  destruct (_ || _); [rewrite append_cons|];
    by apply startswith_slash_false with (chars := "/").
Qed.

(** A page is never saved at the path of a PDF: the two paths leave
    the output directory through different sub-directories. *)
Lemma local_path_ne_pdf_path (u v : string) : local_path cfg u <> pdf_path cfg v.
Proof.
  unfold local_path, pdf_path, html_dir, pdf_dir.
  rewrite !(join_output_dir (output_dir cfg)) by reflexivity.
  set (x := if String.eqb _ _ || _ then _ else _).
  rewrite (join_relative (x +:+ "html")), (join_relative (x +:+ "pdfs")).
  - rewrite !append_assoc. intros H%(inj (String.append x)). discriminate H.
  - destruct x; discriminate.
  - change "pdfs" with ("pdf" +:+ "s"). rewrite <- append_assoc.
    by apply endswith_snoc_char.
  - apply pdf_filename_relative.
  - destruct x; discriminate.
  - change "html" with ("htm" +:+ "l"). rewrite <- append_assoc.
    by apply endswith_snoc_char.
  - apply html_rel_path_relative.
Qed.

End Paths.

(** Membership in a given set, settled by evaluation. *)
Lemma not_elem_of_by_evaluation (x : string) (X : gset string) :
  bool_decide (x ∈ X) = false -> x ∉ X.
Proof. apply bool_decide_eq_false. Qed.

Lemma fetched_app (a b : list event) : fetched (a ++ b) = fetched a ++ fetched b.
Proof. apply omap_app. Qed.

Section Loop.
Context {urllib : UrlLib}.
Variable http : string -> get_result.
Variable cfg : config.
Variable m : mode.
Variable base_domain : string.

Lemma discover_fresh (vis : gset string) (cur : string) (hs : list string) (x : string) :
  x ∈ discover m base_domain vis cur hs -> x ∉ vis.
Proof.
  unfold discover. rewrite list_elem_of_In, in_flat_map.
  intros (h & _ & Hx). unfold discover_one in Hx.
  repeat (match type of Hx with
          | In _ (if ?c then _ else _) => destruct c eqn:?
          end; try (by destruct Hx)).
  destruct Hx as [<-|[]].
  match goal with H : bool_decide _ = false |- _ => by apply bool_decide_eq_false in H end.
Qed.

(** Two links that differ only in their fragment are one target. *)
Lemma discover_one_modulo_fragment (vis : gset string) (cur h1 h2 : string) :
  replace_fragment (urlparse (urljoin cur h1)) ""
  = replace_fragment (urlparse (urljoin cur h2)) "" ->
  discover_one m base_domain vis cur h1 = discover_one m base_domain vis cur h2.
Proof.
  intros Heq. unfold discover_one. rewrite <- Heq.
  apply (f_equal scheme) in Heq as Hs. apply (f_equal netloc) in Heq as Hn.
  apply (f_equal path) in Heq as Hp. cbn in Hs, Hn, Hp. by rewrite Hs, Hn, Hp.
Qed.

(** One iteration: either the entry is dropped because it was visited,
    or it is marked, requested once, and only unvisited URLs join the
    tail of the queue; stored PDFs are never touched. *)
Lemma step_inv (s s' : state) :
  step http cfg m base_domain s = Some s' ->
  exists u rest, queue s = u :: rest /\
    ((u ∈ visited s /\ queue s' = rest /\ visited s' = visited s
      /\ files s' = files s /\ trace s' = trace s)
     \/ ((u ∉ visited s) /\ visited s' = {[u]} ∪ visited s
         /\ exists new t,
             queue s' = rest ++ new
             /\ (forall x, x ∈ new -> x ∉ visited s')
             /\ trace s' = trace s ++ EvGet u :: t
             /\ fetched t = []
             /\ (forall v b, files s !! pdf_path cfg v = Some b ->
                             files s' !! pdf_path cfg v = Some b))).
Proof.
  unfold step. destruct (queue s) as [|u rest] eqn:Hq; [discriminate|].
  intros [= <-]. exists u, rest. split; [reflexivity|].
  case_bool_decide as Hv; [left; by repeat split|right].
  split; [exact Hv|].
  destruct (http u) as [exc|r]; [|destruct (negb (status_code r =? 200));
    [|destruct (is_pdf r u);
      [destruct (files s !! pdf_path cfg u) as [old|] eqn:Hp|]]];
    cbn [queue visited files trace]; (split; [reflexivity|]).
  - exists [], [EvWarnFetch u exc]. rewrite app_nil_r.
    repeat split; auto. intros x Hx. by apply elem_of_nil in Hx.
  - exists [], [EvWarnStatus u (status_code r)]. rewrite app_nil_r.
    repeat split; auto. intros x Hx. by apply elem_of_nil in Hx.
  - exists [], [EvSleep (delay cfg)]. rewrite app_nil_r.
    repeat split; auto. intros x Hx. by apply elem_of_nil in Hx.
  - exists [], [EvWritePdf (pdf_path cfg u); EvSleep (delay cfg)].
    rewrite app_nil_r. repeat split; auto.
    + intros x Hx. by apply elem_of_nil in Hx.
    + intros v b Hb. rewrite lookup_insert_ne; [exact Hb|]. congruence.
  - exists (discover m base_domain ({[u]} ∪ visited s) u (hrefs r)),
           [EvWriteHtml (local_path cfg u); EvSleep (delay cfg)].
    repeat split; auto.
    + intros x. apply discover_fresh.
    + intros v b Hb. rewrite lookup_insert_ne; [exact Hb|].
      apply local_path_ne_pdf_path.
Qed.

(** The visited set only grows. *)
Lemma loop_visited_mono (n : nat) (s : state) :
  visited s ⊆ visited (loop http cfg m base_domain n s).
Proof.
  revert s. induction n as [|n IH]; intros s; [done|].
  cbn. destruct (step http cfg m base_domain s) as [s'|] eqn:Hs; [|done].
  etrans; [|apply IH].
  destruct (step_inv _ _ Hs) as (u & rest & _ & [(_ & _ & -> & _)|(_ & -> & _)]);
    [done|]. intros x Hx. apply elem_of_union. by right.
Qed.

(** Once the queue is empty, more fuel changes nothing. *)
Lemma loop_finished_stable (n k : nat) (s : state) :
  queue (loop http cfg m base_domain n s) = [] ->
  loop http cfg m base_domain (n + k) s = loop http cfg m base_domain n s.
Proof.
  revert s. induction n as [|n IH]; intros s Hq.
  - cbn in Hq. destruct k; [reflexivity|]. cbn. unfold step. by rewrite Hq.
  - cbn in Hq |- *. destruct (step http cfg m base_domain s) as [s'|] eqn:Hs;
      [by apply IH|reflexivity].
Qed.

(** The requests of a run: each URL at most once, none that was
    visited before, all of them visited afterwards. *)
Lemma loop_requests (n : nat) (s : state) :
  exists t, trace (loop http cfg m base_domain n s) = trace s ++ t
            /\ NoDup (fetched t)
            /\ forall u, u ∈ fetched t ->
                 (u ∉ visited s) /\ u ∈ visited (loop http cfg m base_domain n s).
Proof.
  revert s. induction n as [|n IH]; intros s.
  { exists []. rewrite app_nil_r. split; [reflexivity|split; [apply NoDup_nil_2|]].
    intros u Hu. by apply elem_of_nil in Hu. }
  cbn. destruct (step http cfg m base_domain s) as [s'|] eqn:Hs.
  2:{ exists []. rewrite app_nil_r. split; [reflexivity|split; [apply NoDup_nil_2|]].
      intros u Hu. by apply elem_of_nil in Hu. }
  destruct (IH s') as (t' & Ht' & Hnd & Hin).
  destruct (step_inv _ _ Hs)
    as (u & rest & _ & [(_ & _ & Hv & _ & Htr)|(Hu & Hv & new & t & _ & _ & Htr & Hf & _)]).
  - exists t'. rewrite Ht', Htr. split; [reflexivity|]. split; [exact Hnd|].
    intros x Hx. destruct (Hin x Hx) as [H1 H2]. by rewrite Hv in H1.
  - exists (EvGet u :: t ++ t'). rewrite Ht', Htr, <- app_assoc. split; [reflexivity|].
    change (fetched (EvGet u :: t ++ t')) with (u :: fetched (t ++ t')).
    rewrite fetched_app, Hf. cbn [app]. split.
    + constructor; [|exact Hnd]. intros Hx. apply Hin in Hx as [Hx _].
      apply Hx. rewrite Hv. apply elem_of_union. left. by apply elem_of_singleton.
    + intros x [->|Hx]%elem_of_cons.
      * split; [exact Hu|]. apply (loop_visited_mono n s'). rewrite Hv.
        apply elem_of_union. left. by apply elem_of_singleton.
      * destruct (Hin x Hx) as [H1 H2]. split; [|exact H2].
        intros Hxs. apply H1. rewrite Hv. apply elem_of_union. by right.
Qed.

(** A stored PDF keeps its content for the rest of the run. *)
Lemma loop_pdf_frame (n : nat) (s : state) (v b : string) :
  files s !! pdf_path cfg v = Some b ->
  files (loop http cfg m base_domain n s) !! pdf_path cfg v = Some b.
Proof.
  revert s. induction n as [|n IH]; intros s Hb; [exact Hb|].
  cbn. destruct (step http cfg m base_domain s) as [s'|] eqn:Hs; [|exact Hb].
  apply IH.
  destruct (step_inv _ _ Hs)
    as (u & rest & _ & [(_ & _ & _ & -> & _)|(_ & _ & new & t & _ & _ & _ & _ & Hfr)]);
    auto.
Qed.

(** The iteration for a target that is fetched with status 200 and
    handled as a PDF. *)
Lemma step_pdf (s : state) (u : string) (rest : list string) (r : response) :
  queue s = u :: rest -> u ∉ visited s -> http u = GetOk r ->
  status_code r = 200 -> is_pdf r u = true ->
  exists s',
    step http cfg m base_domain s = Some s'
    /\ queue s' = rest
    /\ (forall old, files s !! pdf_path cfg u = Some old ->
          files s' = files s
          /\ trace s' = trace s ++ [EvGet u; EvSleep (delay cfg)])
    /\ (files s !! pdf_path cfg u = None ->
          files s' = <[pdf_path cfg u := content r]> (files s)
          /\ trace s' = trace s ++ [EvGet u; EvWritePdf (pdf_path cfg u);
                                     EvSleep (delay cfg)]).
Proof.
  intros Hq Hv Hget Hst Hpdf. unfold step.
  rewrite Hq, bool_decide_eq_false_2, Hget, Hst, Hpdf by done.
  cbn [Z.eqb Pos.eqb negb].
  destruct (files s !! pdf_path cfg u) as [old|] eqn:Hp; eexists;
    (split; [reflexivity|]); cbn [queue files trace]; (split; [reflexivity|]).
  - split; [by intros old' _|discriminate].
  - split; [discriminate|done].
Qed.

End Loop.

End CrawlFacts.

(** ** Crawl depth *)

Module DepthFacts.
Import Crawl Depth CrawlFacts.

Lemma sorted_lookup_lt (l : list nat) (i j a b : nat) :
  StronglySorted le l -> l !! i = Some a -> l !! j = Some b -> (a < b)%nat -> (i < j)%nat.
Proof.
  intros Hs Hi Hj Hab. destruct (decide (i < j)%nat) as [|Hge]; [done|exfalso].
  destruct (decide (i = j)) as [->|Hne]; [simplify_eq; lia|].
  assert (Hji : (j < i)%nat) by lia. clear Hge Hne.
  apply (take_drop_middle l j b) in Hj as Hsplit. rewrite <- Hsplit in Hs, Hi.
  apply StronglySorted_app in Hs as (_ & _ & Hs).
  apply StronglySorted_cons in Hs as [Hall _].
  rewrite lookup_app_r in Hi by (rewrite length_take; lia).
  rewrite length_take in Hi.
  apply lookup_lt_Some in Hj as Hlen.
  replace (i - j `min` length l)%nat with (S (i - j - 1)) in Hi by lia.
  cbn in Hi. rewrite Forall_forall in Hall.
  apply list_elem_of_lookup_2 in Hi. apply Hall in Hi. lia.
Qed.

Section Inv.
Context {urllib : Url.UrlLib}.
Variable http : string -> get_result.
Variable cfg : config.
Variable m : mode.
Variable base_domain : string.

Abbreviation cstep := (Crawl.step http cfg m base_domain).
Abbreviation cloop := (Crawl.loop http cfg m base_domain).

Lemma inv_start (s : state) : inv (trace s) (start s).
Proof.
  unfold inv, start. cbn.
  split; [by rewrite length_fmap|].
  split.
  { induction (queue s) as [|q l IH]; cbn; constructor; [exact IH|].
    apply Forall_forall. intros x (y & -> & _)%list_elem_of_fmap. done. }
  split; [intros h x _ (y & -> & _)%list_elem_of_fmap; lia|].
  split; [constructor|].
  split; [intros x Hx; by apply elem_of_nil in Hx|].
  by rewrite app_nil_r.
Qed.

Lemma inv_tstep (t0 : list event) (t t' : tagged) :
  inv t0 t -> tstep cstep t = Some t' -> inv t0 t' /\ cstep (st t) = Some (st t').
Proof.
  intros (Hlen & Hsort & Hbound & Hgs & Hgd & Hfe). unfold tstep.
  destruct (queue (st t)) as [|u rest] eqn:Hq; [discriminate|].
  destruct (pending t) as [|d ds] eqn:Hp; [discriminate|].
  destruct (cstep (st t)) as [s'|] eqn:Hs; [|discriminate].
  intros [= <-]. split; [|reflexivity]. cbn in Hlen.
  assert (Hdeq : forall x, x ∈ (dequeued t).*2 -> (x <= d)%nat).
  { intros x Hx. eapply (StronglySorted_app_1_elem_of le); [exact Hsort|exact Hx|].
    apply elem_of_cons; by left. }
  assert (Hds : forall x, x ∈ ds -> (d <= x <= S d)%nat).
  { intros x Hx. split.
    - apply StronglySorted_app_1_r, StronglySorted_cons in Hsort as [Hall _].
      rewrite Forall_forall in Hall. by apply Hall.
    - apply (Hbound d x); [reflexivity|]. apply elem_of_cons; by right. }
  destruct (step_inv _ _ _ _ _ _ Hs) as (u' & rest' & Hq' & Hcase).
  rewrite Hq in Hq'. injection Hq' as <- <-.
  unfold inv. cbn [st pending dequeued got].
  assert (Hnew : exists k, queue s' = rest ++ k
            /\ (length (queue s') - length rest = length k)%nat).
  { destruct Hcase as [(_ & -> & _)|(_ & _ & new & tr & -> & _)].
    - exists []. rewrite app_nil_r. split; [done|cbn; lia].
    - exists new. split; [done|]. rewrite length_app. lia. }
  destruct Hnew as (k & Hk & ->).
  rewrite fmap_app. cbn [fmap list_fmap snd].
  repeat split.
  - rewrite Hk, !length_app, length_replicate. lia.
  - replace (((dequeued t).*2 ++ [d]) ++ ds ++ replicate (length k) (S d))
      with (((dequeued t).*2 ++ d :: ds) ++ replicate (length k) (S d))
      by (by rewrite <- !app_assoc).
    apply StronglySorted_app_2.
    + intros x1 x2 Hx1 [-> _]%elem_of_replicate.
      apply elem_of_app in Hx1 as [Hx1|Hx1]; [apply Hdeq in Hx1; lia|].
      apply elem_of_cons in Hx1 as [->|Hx1]; [lia|]. apply Hds in Hx1. lia.
    + exact Hsort.
    + induction (length k) as [|j IH]; cbn; constructor; [exact IH|].
      apply Forall_forall. intros x [-> _]%elem_of_replicate. done.
  - intros h x Hh Hx.
    assert (d <= h)%nat.
    { destruct ds as [|d1 ds']; cbn in Hh.
      - destruct (length k); cbn in Hh; [discriminate|]. injection Hh as <-. lia.
      - injection Hh as <-. apply (Hds d1). apply elem_of_cons; by left. }
    apply elem_of_app in Hx as [Hx|[-> _]%elem_of_replicate]; [|lia].
    apply Hds in Hx. lia.
  - case_bool_decide; [exact Hgs|].
    rewrite fmap_app. cbn [fmap list_fmap snd].
    apply StronglySorted_app_2; [|exact Hgs|repeat constructor].
    intros x1 x2 Hx1 ->%list_elem_of_singleton. by apply Hdeq, Hgd.
  - intros x. case_bool_decide.
    + intros Hx. apply elem_of_app. left. by apply Hgd.
    + rewrite fmap_app. cbn [fmap list_fmap snd].
      intros [Hx| ->%list_elem_of_singleton]%elem_of_app; apply elem_of_app.
      * left. by apply Hgd.
      * right. by apply list_elem_of_singleton.
  - destruct Hcase as [(Hv & _ & _ & _ & ->)|(Hv & _ & new & tr & _ & _ & -> & Hf & _)].
    + rewrite bool_decide_eq_true_2 by done. exact Hfe.
    + rewrite bool_decide_eq_false_2 by done.
      rewrite fetched_app, Hfe, fmap_app, <- app_assoc. f_equal.
      change (fetched (EvGet u :: tr)) with (u :: fetched tr). by rewrite Hf.
Qed.

Lemma tstep_none (t0 : list event) (t : tagged) :
  inv t0 t -> tstep cstep t = None -> cstep (st t) = None.
Proof.
  intros (Hlen & _) Hn. unfold tstep in Hn. unfold Crawl.step.
  destruct (queue (st t)) as [|u rest] eqn:Hq; [reflexivity|].
  destruct (pending t) as [|d ds]; [discriminate|].
  unfold Crawl.step in Hn. rewrite Hq in Hn. discriminate.
Qed.

(** The bookkeeping follows the loop of the source and keeps [inv]. *)
Lemma inv_tloop (t0 : list event) (n : nat) (t : tagged) :
  inv t0 t -> inv t0 (tloop cstep n t) /\ st (tloop cstep n t) = cloop n (st t).
Proof.
  revert t. induction n as [|n IH]; intros t Hinv; [done|].
  cbn. destruct (tstep cstep t) as [t'|] eqn:Ht.
  - destruct (inv_tstep _ _ _ Hinv Ht) as [Hinv' ->]. by apply IH.
  - by rewrite (tstep_none _ _ Hinv Ht).
Qed.

End Inv.

End DepthFacts.

(** ** The extraction pass: facts *)

Module PdfTextFacts.
Import PyStr PosixPath Crawl PdfText.

Lemma insert_entry_elem (e x : string * string) (l : list (string * string)) :
  x ∈ insert_entry e l <-> x = e \/ x ∈ l.
Proof.
  induction l as [|y l IH]; cbn [insert_entry].
  - rewrite list_elem_of_singleton, elem_of_nil. tauto.
  - destruct (entry_leb e y).
    + by rewrite elem_of_cons.
    + rewrite !elem_of_cons, IH. tauto.
Qed.

(** The walk goes through the files below [top], and through nothing
    else. *)
Lemma walk_elem (fs : gmap string string) (top : string) (x : string * string) :
  x ∈ walk fs top <-> x ∈ files_below fs top.
Proof.
  unfold walk. induction (files_below fs top) as [|e l IH]; [reflexivity|].
  cbn [fold_right]. rewrite insert_entry_elem, IH, elem_of_cons. tauto.
Qed.

Section Facts.
Variable ext : gmap string string -> string -> string.
Variable cfg : config.

Lemma extract_one_cases (fs : gmap string string) (tr : list event)
    (root name : string) :
  extract_one ext cfg (fs, tr) (root, name)
  = if endswith (lower name) ".pdf"
       && negb (exists_nonempty fs (txt_full cfg root name))
    then (<[txt_full cfg root name := ext fs (join root name)]> fs,
          tr ++ [EvExtract (join root name)])
    else (fs, tr).
Proof.
  unfold extract_one. destruct (endswith _ _); cbn [negb andb]; [|reflexivity].
  by destruct (exists_nonempty _ _).
Qed.

Lemma exists_nonempty_spec (fs : gmap string string) (p : string) :
  exists_nonempty fs p = true
  <-> exists s, fs !! p = Some s /\ (0 < String.length s)%nat.
Proof.
  unfold exists_nonempty. destruct (fs !! p) as [s|].
  - rewrite Nat.ltb_lt. split; [by exists s|]. by intros (s' & [= <-] & Hs).
  - split; [discriminate|]. by intros (s' & [=] & _).
Qed.

Lemma exists_nonempty_insert_ne (fs : gmap string string) (p q s : string) :
  p <> q -> exists_nonempty (<[p := s]> fs) q = exists_nonempty fs q.
Proof. intros Hne. unfold exists_nonempty. by rewrite lookup_insert_ne. Qed.

Lemma txt_full_of_path (root name root' name' : string) :
  join root name = join root' name' ->
  txt_full cfg root name = txt_full cfg root' name'.
Proof. unfold txt_full. by intros ->. Qed.

Lemma extract_entries_cons (e : string * string) (l : list (string * string))
    (st : gmap string string * list event) :
  extract_entries ext cfg (e :: l) st
  = extract_entries ext cfg l (extract_one ext cfg st e).
Proof. reflexivity. Qed.

(** The trace of a pass extends the trace before it. *)
Lemma pass_trace (entries : list (string * string))
    (st : gmap string string * list event) :
  exists t, (extract_entries ext cfg entries st).2 = st.2 ++ t.
Proof.
  revert st. induction entries as [|[root name] l IH]; intros [fs tr].
  - exists []. cbn. by rewrite app_nil_r.
  - rewrite extract_entries_cons, extract_one_cases. destruct (_ && _).
    + destruct (IH (<[txt_full cfg root name := ext fs (join root name)]> fs,
                    tr ++ [EvExtract (join root name)])) as (t & Ht).
      exists (EvExtract (join root name) :: t).
      rewrite Ht. cbn [snd]. by rewrite <- app_assoc.
    + apply (IH (fs, tr)).
Qed.

(** A file that exists keeps existing. *)
Lemma pass_keeps_files (entries : list (string * string))
    (st : gmap string string * list event) (p : string) :
  is_Some (st.1 !! p) -> is_Some ((extract_entries ext cfg entries st).1 !! p).
Proof.
  revert st. induction entries as [|[root name] l IH]; intros [fs tr] Hp;
    [exact Hp|].
  rewrite extract_entries_cons, extract_one_cases.
  destruct (_ && _); apply (IH (_, _)); cbn [fst]; [|exact Hp].
  rewrite lookup_insert. case_decide; [by eexists|exact Hp].
Qed.

(** A non-empty text file is left alone, and no PDF that is mirrored
    there is passed to the extractor. *)
Lemma pass_skips_nonempty (entries : list (string * string))
    (fs : gmap string string) (tr : list event) (txt : string) :
  exists_nonempty fs txt = true ->
  (extract_entries ext cfg entries (fs, tr)).1 !! txt = fs !! txt
  /\ exists t, (extract_entries ext cfg entries (fs, tr)).2 = tr ++ t
               /\ forall root name, txt_full cfg root name = txt ->
                                    EvExtract (join root name) ∉ t.
Proof.
  revert fs tr. induction entries as [|[r0 n0] l IH]; intros fs tr Hne.
  { split; [reflexivity|]. exists []. cbn. rewrite app_nil_r. split; [reflexivity|].
    intros root name _ Hin. by apply elem_of_nil in Hin. }
  rewrite extract_entries_cons, extract_one_cases.
  destruct (_ && _) eqn:Hc; [|by apply IH].
  apply andb_true_iff in Hc as [_ Hempty]. apply negb_true_iff in Hempty.
  assert (Hdiff : txt_full cfg r0 n0 <> txt) by congruence.
  destruct (IH (<[txt_full cfg r0 n0 := ext fs (join r0 n0)]> fs)
               (tr ++ [EvExtract (join r0 n0)])) as (Hkeep & t & Ht & Hnot).
  { by rewrite exists_nonempty_insert_ne. }
  split; [by rewrite Hkeep, lookup_insert_ne|].
  exists (EvExtract (join r0 n0) :: t). split; [by rewrite Ht, <- app_assoc|].
  intros root name Htxt [Heq|Hin]%elem_of_cons; [|by apply (Hnot root name)].
  injection Heq as Heq. apply Hdiff. rewrite <- Htxt. symmetry.
  by apply txt_full_of_path.
Qed.

(** A missing or empty text file is written by the pass: the first PDF
    of the walk that is mirrored there is passed to the extractor. *)
Lemma pass_extracts_missing (entries : list (string * string))
    (fs : gmap string string) (tr : list event) (root name : string) :
  (root, name) ∈ entries ->
  endswith (lower name) ".pdf" = true ->
  exists_nonempty fs (txt_full cfg root name) = false ->
  is_Some ((extract_entries ext cfg entries (fs, tr)).1 !! txt_full cfg root name)
  /\ exists t root' name',
       (extract_entries ext cfg entries (fs, tr)).2 = tr ++ t
       /\ (root', name') ∈ entries
       /\ endswith (lower name') ".pdf" = true
       /\ txt_full cfg root' name' = txt_full cfg root name
       /\ EvExtract (join root' name') ∈ t.
Proof.
  revert fs tr. induction entries as [|[r0 n0] l IH]; intros fs tr Hin Hpdf Hempty.
  { by apply elem_of_nil in Hin. }
  rewrite extract_entries_cons, extract_one_cases.
  destruct (decide (endswith (lower n0) ".pdf" = true
                    /\ txt_full cfg r0 n0 = txt_full cfg root name)) as [[Hp0 Ht0]|Hother].
  - rewrite Hp0, Ht0, Hempty. cbn [negb andb].
    split.
    { apply (pass_keeps_files l (_, _)). cbn [fst]. rewrite lookup_insert_eq. by eexists. }
    destruct (pass_trace l (<[txt_full cfg root name := ext fs (join r0 n0)]> fs,
                            tr ++ [EvExtract (join r0 n0)])) as (t & Ht).
    exists (EvExtract (join r0 n0) :: t), r0, n0.
    rewrite Ht. cbn [snd]. rewrite <- app_assoc.
    repeat split; try done; apply elem_of_cons; by left.
  - assert (Hin' : (root, name) ∈ l).
    { apply elem_of_cons in Hin as [[= -> ->]|Hin]; [|exact Hin].
      destruct Hother. by split. }
    assert (Hnext : forall fs1 tr1 t0,
              exists_nonempty fs1 (txt_full cfg root name) = false ->
              tr1 = tr ++ t0 ->
              is_Some ((extract_entries ext cfg l (fs1, tr1)).1 !! txt_full cfg root name)
              /\ exists t root' name',
                   (extract_entries ext cfg l (fs1, tr1)).2 = tr ++ t
                   /\ (root', name') ∈ (r0, n0) :: l
                   /\ endswith (lower name') ".pdf" = true
                   /\ txt_full cfg root' name' = txt_full cfg root name
                   /\ EvExtract (join root' name') ∈ t).
    { intros fs1 tr1 t0 He1 ->.
      destruct (IH fs1 (tr ++ t0) Hin' Hpdf He1)
        as (Hsome & t & r' & n' & Ht & Hl & Hp' & Htx & Hev).
      split; [exact Hsome|]. exists (t0 ++ t), r', n'.
      rewrite Ht, <- app_assoc. repeat split; try done.
      - apply elem_of_cons; by right.
      - apply elem_of_app; by right. }
    destruct (_ && _) eqn:Hc.
    + apply andb_true_iff in Hc as [Hp0 _].
      apply (Hnext _ _ [EvExtract (join r0 n0)]); [|reflexivity].
      rewrite exists_nonempty_insert_ne; [exact Hempty|].
      intros Heq. apply Hother. by split.
    + apply (Hnext _ _ []); [exact Hempty|by rewrite app_nil_r].
Qed.

End Facts.

End PdfTextFacts.

(** * The claims *)

Import PyStr PosixPath Url Crawl.

(** C1. The frontier is drained breadth first. An iteration takes the head
    of the queue and appends what it finds to the tail. Every entry that is
    ever in the queue has a crawl depth (0 for the start URL, one more than
    the page it was found on). In first-in-first-out order, which is the
    order of dequeuing, an entry of smaller depth always stands before an
    entry of larger depth, and the same holds for the requests that are
    made. On
    the page graph A -> {B, C}, B -> {D}, C -> {} the crawl from A requests
    A, B, C, D in this order and ends. *)
Theorem scrape_is_breadth_first `{UrlLib} (http : string -> get_result)
    (self : Scraper.WorkAndIncomeScraper) (fs : gmap string string) (fuel : nat) :
  let t := Depth.tloop (Scraper.scrape_step http self) fuel
                       (Depth.start (Scraper.scrape_init self fs)) in
  let final := Scraper.scrape_loop http self fuel fs in
  Depth.st t = final
  /\ (forall s s', Scraper.scrape_step http self s = Some s' ->
        exists new, queue s' = tail (queue s) ++ new)
  /\ (Depth.timeline t).*1 = (Depth.dequeued t).*1 ++ queue final
  /\ (forall i j x y d d',
        Depth.timeline t !! i = Some (x, d) -> Depth.timeline t !! j = Some (y, d') ->
        (d < d')%nat -> (i < j)%nat)
  /\ (Depth.got t).*1 = fetched (trace final)
  /\ (forall i j x y d d',
        Depth.got t !! i = Some (x, d) -> Depth.got t !! j = Some (y, d') ->
        (d < d')%nat -> (i < j)%nat)
  /\ (let done := @Scraper.scrape_loop SimpleUrl.lib Fixtures.site_abcd
                    (Fixtures.scraper_at "https://x/A") 4 ∅ in
      fetched (trace done) = ["https://x/A"; "https://x/B"; "https://x/C"; "https://x/D"]
      /\ queue done = []).
Proof.
  intros t final.
  destruct (DepthFacts.inv_tloop http (Scraper.cfg self) FullSite (Scraper.base_domain self)
              [] fuel (Depth.start (Scraper.scrape_init self fs)))
    as [(Hlen & Hsort & _ & Hgs & _ & Hfe) Hst].
  { apply (DepthFacts.inv_start (Scraper.scrape_init self fs)). }
  fold (Scraper.scrape_step http self) in Hlen, Hsort, Hgs, Hfe, Hst.
  fold t in Hlen, Hsort, Hgs, Hfe, Hst.
  change (Depth.st t = final) in Hst.
  assert (Hsnd : (Depth.timeline t).*2 = (Depth.dequeued t).*2 ++ Depth.pending t).
  { unfold Depth.timeline. rewrite fmap_app, snd_zip; [done|lia]. }
  split; [exact Hst|].
  split.
  { intros s s' Hs.
    destruct (CrawlFacts.step_inv _ _ _ _ _ _ Hs)
      as (u & rest & -> & [(_ & -> & _)|(_ & _ & new & tr & -> & _)]).
    - exists []. by rewrite app_nil_r.
    - by exists new. }
  split.
  { unfold Depth.timeline. rewrite fmap_app, fst_zip, Hst; [done|lia]. }
  split.
  { intros i j x y d d' Hi Hj Hlt.
    apply (DepthFacts.sorted_lookup_lt ((Depth.timeline t).*2) i j d d'); [| | |exact Hlt].
    - by rewrite Hsnd.
    - by rewrite list_lookup_fmap, Hi.
    - by rewrite list_lookup_fmap, Hj. }
  split; [by rewrite <- Hst, Hfe|].
  split.
  { intros i j x y d d' Hi Hj Hlt.
    apply (DepthFacts.sorted_lookup_lt ((Depth.got t).*2) i j d d'); [exact Hgs| | |exact Hlt].
    - by rewrite list_lookup_fmap, Hi.
    - by rewrite list_lookup_fmap, Hj. }
  vm_compute. split; reflexivity.
Qed.

(** C2, as the specification states it, fails: the queue can hold a target
    twice. On the site A -> {B, C}, B -> {C} the queue is [C; C] after two
    iterations: C was pending when B was processed and was appended again,
    because the test before [queue.append] looks at the visited set only. *)
Lemma queue_can_hold_a_target_twice :
  ~ NoDup (queue (@Scraper.scrape_loop SimpleUrl.lib Fixtures.site_shared
                    (Fixtures.scraper_at "https://x/A") 2 ∅)).
Proof.
  assert (Hq : queue (@Scraper.scrape_loop SimpleUrl.lib Fixtures.site_shared
                        (Fixtures.scraper_at "https://x/A") 2 ∅)
               = ["https://x/C"; "https://x/C"]) by (vm_compute; reflexivity).
  rewrite Hq. intros Hnd. apply NoDup_cons in Hnd as [Hnotin _].
  apply Hnotin. by apply list_elem_of_singleton.
Qed.

(** C2, amended. In both crawl loops an iteration appends a discovered
    target to the tail of the queue only if it is not in the visited set (a
    target that is already pending may be appended again); the visited set
    only grows during a run; and no target is requested twice in a run,
    nor one that was visited before the run. *)
Theorem enqueue_tests_visited_only `{UrlLib} (http : string -> get_result)
    (cfg : config) (m : mode) (base_domain : string) (s : state) (n : nat) :
  (forall s', step http cfg m base_domain s = Some s' ->
     exists new, queue s' = tail (queue s) ++ new
                 /\ forall x, x ∈ new -> x ∉ visited s')
  /\ (forall u rest, queue s = u :: rest -> u ∈ visited s ->
        step http cfg m base_domain s
        = Some {| queue := rest; visited := visited s; files := files s;
                  trace := trace s |})
  /\ visited s ⊆ visited (loop http cfg m base_domain n s)
  /\ (exists t, trace (loop http cfg m base_domain n s) = trace s ++ t
                /\ NoDup (fetched t)
                /\ forall u, u ∈ fetched t -> u ∉ visited s).
Proof.
  split; [|split; [|split]].
  - intros s' Hs.
    destruct (CrawlFacts.step_inv _ _ _ _ _ _ Hs)
      as (u & rest & -> & [(_ & -> & _)|(_ & _ & new & t & -> & Hnew & _)]).
    + exists []. rewrite app_nil_r. split; [done|]. intros x Hx. by apply elem_of_nil in Hx.
    + by exists new.
  - intros u rest Hq Hu. unfold step. by rewrite Hq, bool_decide_eq_true_2.
  - apply CrawlFacts.loop_visited_mono.
  - destruct (CrawlFacts.loop_requests http cfg m base_domain n s) as (t & Ht & Hnd & Hin).
    exists t. repeat split; [exact Ht|exact Hnd|]. intros u Hu. by apply Hin.
Qed.

(** C3 at a start URL with a fragment. The start URL enters the queue and
    the visited set as it is given; a link of the page to itself is
    normalised to the URL without fragment, which is not in the visited
    set, so the same page is requested a second time. The same happens in
    a category crawl: the category link of the navigation page keeps its
    fragment and the category page is requested under both URLs. *)
Theorem start_url_with_fragment_is_fetched_twice :
  let u1 := "https://x/y#top" in
  let u2 := "https://x/y" in
  let done := @Scraper.scrape_loop SimpleUrl.lib Fixtures.site_fragments
                (Fixtures.scraper_at u1) 4 ∅ in
  replace_fragment (SimpleUrl.parse u1) "" = replace_fragment (SimpleUrl.parse u2) ""
  /\ fetched (trace done) = [u1; u2]
  /\ queue done = []
  /\ exists fs tr,
       @Nav.scrape SimpleUrl.lib Fixtures.site_nav_fragment Fixtures.extractor
          (Fixtures.nav_at "https://h/map/index.html") (1730000000 # 1) 10 ∅
       = Returned (fs, tr)
       /\ fetched tr = ["https://h/map/index.html";
                        "https://h/map/card-services/index.html#main";
                        "https://h/map/card-services/index.html"].
Proof.
  split; [reflexivity|]. split; [vm_compute; reflexivity|].
  split; [vm_compute; reflexivity|].
  eexists _, _. split; [vm_compute; reflexivity|]. reflexivity.
Qed.



(** C5 at a site with failing targets. The delay is 0.3 seconds by default
    and follows the request of every target that is stored, but not a
    request that fails. On A -> {B, D, C}, where B answers 404 and the
    request for D raises, there is a sleep after the requests for A and C
    and none between the requests for B, D and C. *)
Theorem no_delay_after_a_failed_fetch :
  delay (Scraper.cfg Scraper.default) = 3 # 10
  /\ trace (@Scraper.scrape_loop SimpleUrl.lib Fixtures.site_failures
              (Fixtures.scraper_at "https://x/A") 10 ∅)
     = [EvGet "https://x/A"; EvWriteHtml "data/html/A"; EvSleep (3 # 10);
        EvGet "https://x/B"; EvWarnStatus "https://x/B" 404;
        EvGet "https://x/D"; EvWarnFetch "https://x/D" "ConnectionError";
        EvGet "https://x/C"; EvWriteHtml "data/html/C"; EvSleep (3 # 10)].
Proof. split; [reflexivity|]. vm_compute. reflexivity. Qed.

(** C6. [needs_update] returns [True] when the time stamp file cannot be
    opened or read and when [int] rejects its content. With a time stamp
    [last_run] within the range of the floats it returns [True] exactly
    when the float [now - last_run] is above [max_age_days * 86400]: for a
    threshold of 30 days a time stamp that is 31 days old is stale and one
    that is 29 days old is not. With a time stamp that [int] accepts and
    that is beyond the range of the floats, such as the digit 1 followed
    by 400 zeros, the function does not return: the subtraction stands
    after the [try] and raises [OverflowError]. *)
Theorem needs_update_raises_on_a_stamp_beyond_the_floats
    (py_int : string -> option Z) (round : Q -> Q)
    (self : Scraper.WorkAndIncomeScraper)
    (read : string -> option string) (now : Q) (max_age_days : Z) :
  let answer := Scraper.needs_update_with py_int round self read now max_age_days in
  (read (Scraper.last_scrape_file self) = None -> answer = Returned true)
  /\ (forall content,
        read (Scraper.last_scrape_file self) = Some content ->
        py_int (strip content) = None ->
        answer = Returned true)
  /\ (forall content last_run,
        read (Scraper.last_scrape_file self) = Some content ->
        py_int (strip content) = Some last_run ->
        Z.abs last_run < 2 ^ 1024 - 2 ^ 970 ->
        exists stale,
          answer = Returned stale
          /\ (stale = true
              <-> (inject_Z (max_age_days * 86400)
                   < round (now - round (inject_Z last_run)))%Q))
  /\ (forall content last_run,
        read (Scraper.last_scrape_file self) = Some content ->
        py_int (strip content) = Some last_run ->
        2 ^ 1024 - 2 ^ 970 <= Z.abs last_run ->
        answer = Raised "OverflowError")
  /\ (int (strip Fixtures.huge_stamp) = Some (10 ^ 400)
      /\ Scraper.needs_update_with int round Scraper.default
           (fun _ => Some Fixtures.huge_stamp) now max_age_days
         = Raised "OverflowError")
  /\ (let clock := (3460000001 # 2)%Q in
      let exact (x : Q) : Q := x in
      let stored (age_days : Z) : string -> option string :=
        fun _ => Some (str_of_int (1730000000 - age_days * 86400)) in
      Scraper.needs_update_with int exact Scraper.default (stored 31) clock 30
      = Returned true
      /\ Scraper.needs_update_with int exact Scraper.default (stored 29) clock 30
         = Returned false
      /\ Scraper.needs_update_with int exact Scraper.default (Scraper.read_text ∅) clock 30
         = Returned true
      /\ Scraper.needs_update_with int exact Scraper.default
           (fun _ => Some "yesterday") clock 30
         = Returned true).
Proof.
  intros answer. unfold answer, Scraper.needs_update_with.
  split; [by intros ->|]. split; [by intros c -> ->|].
  split.
  { intros c last_run -> -> Hrange. unfold Scraper.float_of_int.
    rewrite (proj2 (Z.leb_gt _ _) Hrange). eexists. split; [reflexivity|].
    replace (max_age_days * 24 * 3600) with (max_age_days * 86400) by lia.
    rewrite negb_true_iff, <- not_true_iff_false, Qle_bool_iff.
    split; [apply Qnot_le_lt|apply Qlt_not_le]. }
  split.
  { intros c last_run -> -> Hrange. unfold Scraper.float_of_int.
    by rewrite (proj2 (Z.leb_le _ _) Hrange). }
  split; [split; vm_compute; reflexivity|].
  vm_compute. repeat split; reflexivity.
Qed.


(** C8. The comment of [_crawl_category] (nav_scraper.py, lines 85-87)
    says what the claim says: if the start URL of a category includes a
    file, the file name is dropped. The code drops it only when the path
    ends in [.html]. For the category URL
    [https://h/map/card-services/index.htm] the prefix is
    [/map/card-services/index.htm/] and not [/map/card-services/]; the link
    [sub/page.html] of the category page is in scope (same domain, path
    below [/map/card-services/]), and the loop does not follow it, while
    it follows the same link from [index.html]. So the claim fails on the
    code. *)
Theorem category_prefix_keeps_a_file_name_that_is_not_html :
  let category_url := "https://h/map/card-services/index.htm" in
  let follow (url : string) :=
    @discover_one SimpleUrl.lib (Category (@Nav.base_dir_of SimpleUrl.lib url))
       (@Nav.category_domain SimpleUrl.lib url) ∅ url in
  @Nav.base_dir_of SimpleUrl.lib category_url = "/map/card-services/index.htm/"
  /\ SpecWords.drop_trailing_filename (path (SimpleUrl.parse category_url))
     = "/map/card-services/"
  /\ @SpecWords.in_scope SimpleUrl.lib true category_url
       (SimpleUrl.parse (SimpleUrl.join category_url "sub/page.html"))
  /\ follow category_url "sub/page.html" = []
  /\ follow "https://h/map/card-services/index.html" "sub/page.html"
     = ["https://h/map/card-services/sub/page.html"]
  /\ ~ (forall url href : string,
          follow url href <> []
          <-> @SpecWords.in_scope SimpleUrl.lib true url
                (SimpleUrl.parse (SimpleUrl.join url href))).
Proof.
  intros category_url follow.
  assert (Hscope : @SpecWords.in_scope SimpleUrl.lib true category_url
                     (SimpleUrl.parse (SimpleUrl.join category_url "sub/page.html"))).
  { split; [right; reflexivity|]. split; reflexivity. }
  split; [reflexivity|]. split; [reflexivity|]. split; [exact Hscope|].
  split; [reflexivity|]. split; [reflexivity|].
  intros Hclaim.
  destruct (Hclaim category_url "sub/page.html") as [_ Hfollow].
  by apply Hfollow.
Qed.

(** The scope rule of the two loops. A discovered link is appended to the
    queue if and only if its scheme is [http] or [https], its domain
    equals the domain of the start URL of the loop, in category mode its
    path starts with the prefix of the category, and its normalised URL is
    not visited. When the start path of a category ends in [.html], the
    prefix is that path without its trailing file name; otherwise the code
    takes the whole start path, with its trailing slashes replaced by one
    slash. With the category [https://h/map/card-services/index.html] the
    prefix is [/map/card-services/], the link to [sub/page.html] is
    followed and the link to [/map/deskfile/page.html] is not. *)
Theorem scope_rule_of_the_crawl_loops `{UrlLib} (m : mode) (base_domain : string)
    (vis : gset string) (current_url href : string) :
  let target := urlparse (urljoin current_url href) in
  let normalised := geturl (replace_fragment target "") in
  (discover_one m base_domain vis current_url href = [normalised]
   \/ discover_one m base_domain vis current_url href = [])
  /\ (discover_one m base_domain vis current_url href = [normalised]
      <-> (scheme target = "http" \/ scheme target = "https")
          /\ netloc target = base_domain
          /\ match m with
             | FullSite => True
             | Category base_dir => startswith (path target) base_dir = true
             end
          /\ normalised ∉ vis)
  /\ (forall http self,
        Scraper.scrape_step http self
        = step http (Scraper.cfg self) FullSite
               (netloc (urlparse (start_url (Scraper.cfg self)))))
  /\ (forall http self category_url,
        Nav.category_step http self category_url
        = step http (Nav.cfg self) (Category (Nav.base_dir_of category_url))
               (netloc (urlparse category_url)))
  /\ (forall category_url,
        let start_path := path (urlparse category_url) in
        (endswith start_path ".html" = true -> has_char "/" start_path = true ->
         Nav.base_dir_of category_url = SpecWords.drop_trailing_filename start_path)
        /\ (endswith start_path ".html" = false ->
            Nav.base_dir_of category_url = rstrip "/" start_path +:+ "/"))
  /\ (let category_url := "https://h/map/card-services/index.html" in
      let follow := @discover_one SimpleUrl.lib
                      (Category (@Nav.base_dir_of SimpleUrl.lib category_url))
                      (@Nav.category_domain SimpleUrl.lib category_url) ∅ category_url in
      @Nav.base_dir_of SimpleUrl.lib category_url = "/map/card-services/"
      /\ follow "sub/page.html" = ["https://h/map/card-services/sub/page.html"]
      /\ follow "/map/deskfile/page.html" = []).
Proof.
  intros target normalised.
  assert (Hcases :
    discover_one m base_domain vis current_url href
    = if (String.eqb (scheme target) "http" || String.eqb (scheme target) "https")
         && String.eqb (netloc target) base_domain
         && match m with
            | FullSite => true
            | Category base_dir => startswith (path target) base_dir
            end
         && negb (bool_decide (normalised ∈ vis))
      then [normalised] else []).
  { unfold discover_one. fold target. fold normalised.
    destruct (_ || _); cbn [negb andb]; [|reflexivity].
    destruct (String.eqb (netloc target) base_domain); cbn [negb andb]; [|reflexivity].
    destruct (match m with FullSite => true | Category b => _ end); cbn [andb]; [|reflexivity].
    by destruct (bool_decide _). }
  split; [rewrite Hcases; destruct (_ && _); auto|].
  split.
  { rewrite Hcases. split.
    - destruct (_ && _) eqn:Hc; [intros _|discriminate].
      apply andb_true_iff in Hc as [Hc Hvis].
      apply andb_true_iff in Hc as [Hc Hpre].
      apply andb_true_iff in Hc as [Hsch Hdom].
      apply orb_true_iff in Hsch.
      rewrite !String.eqb_eq in Hsch. apply String.eqb_eq in Hdom.
      apply negb_true_iff, bool_decide_eq_false in Hvis.
      repeat split; try done. by destruct m.
    - intros (Hsch & Hdom & Hpre & Hvis).
      rewrite <- !String.eqb_eq in Hsch. apply orb_true_iff in Hsch.
      apply String.eqb_eq in Hdom.
      rewrite Hsch, Hdom, (bool_decide_eq_false_2 _ Hvis). cbn [andb negb].
      destruct m; [reflexivity|]. by rewrite Hpre. }
  split; [reflexivity|]. split; [reflexivity|].
  split.
  { intros category_url start_path. unfold Nav.base_dir_of. fold start_path. split.
    - intros -> Hslash. by apply StrFacts.rsplit1_head_slash.
    - by intros ->. }
  vm_compute. repeat split; reflexivity.
Qed.

(** C9, as the specification states it, fails for the category-scoped
    scrape: the request for the navigation page is outside any [try], and
    [raise_for_status] raises on an error status. A transport error and a
    404 for the navigation page both leave [NavScraper.scrape] as an
    exception. *)
Lemma nav_scrape_raises_when_the_navigation_page_fails :
  @Nav.scrape SimpleUrl.lib (Fixtures.site []) Fixtures.extractor
     (Fixtures.nav_at "https://h/map/index.html") (1730000000 # 1) 10 ∅
  = Raised "ConnectionError"
  /\ @Nav.scrape SimpleUrl.lib
       (Fixtures.site [("https://h/map/index.html", Fixtures.status 404)])
       Fixtures.extractor (Fixtures.nav_at "https://h/map/index.html")
       (1730000000 # 1) 10 ∅
     = Raised "HTTPError".
Proof. split; reflexivity. Qed.

(** C9, amended. In both crawl loops a target whose request raises or
    answers with a status other than 200 is logged with a warning and
    abandoned: it is marked visited, nothing is stored, no link is
    followed, the loop goes on with the rest of the queue and never
    requests the target again. The request for the navigation page in
    [NavScraper.scrape] stands before the loops and outside any [try]:
    whatever it raises leaves [scrape], and a status from 400 to 599 of
    that page leaves it as [HTTPError]. *)
Theorem failed_fetch_is_logged_and_skipped `{UrlLib} (http : string -> get_result)
    (cfg : config) (m : mode) (base_domain : string)
    (s : state) (u : string) (rest : list string) :
  queue s = u :: rest ->
  u ∉ visited s ->
  match http u with GetRaised _ => True | GetOk r => status_code r <> 200 end ->
  exists warning s',
    step http cfg m base_domain s = Some s'
    /\ s' = {| queue := rest; visited := {[u]} ∪ visited s; files := files s;
               trace := trace s ++ [EvGet u; warning] |}
    /\ match http u with
       | GetRaised exc => warning = EvWarnFetch u exc
       | GetOk r => warning = EvWarnStatus u (status_code r)
       end
    /\ (forall n, exists t,
          trace (loop http cfg m base_domain n s') = trace s' ++ t /\ u ∉ fetched t)
    /\ (forall ext self now fuel fs exc,
          http (start_url (Nav.cfg self)) = GetRaised exc ->
          Nav.scrape http ext self now fuel fs = Raised exc)
    /\ (forall ext self now fuel fs resp,
          http (start_url (Nav.cfg self)) = GetOk resp ->
          400 <= status_code resp < 600 ->
          Nav.scrape http ext self now fuel fs = Raised "HTTPError").
Proof.
  intros Hq Hv Hfail.
  assert (Hretry : forall s', visited s' = {[u]} ∪ visited s ->
            forall n, exists t,
              trace (loop http cfg m base_domain n s') = trace s' ++ t /\ u ∉ fetched t).
  { intros s' Hvis n.
    destruct (CrawlFacts.loop_requests http cfg m base_domain n s') as (t & Ht & _ & Hin).
    exists t. split; [exact Ht|]. intros Hu. apply Hin in Hu as [Hu _].
    apply Hu. rewrite Hvis. apply elem_of_union. left. by apply elem_of_singleton. }
  assert (Hnav : forall ext self now fuel fs exc,
            http (start_url (Nav.cfg self)) = GetRaised exc ->
            Nav.scrape http ext self now fuel fs = Raised exc).
  { intros ext self now fuel fs exc Hexc. unfold Nav.scrape. by rewrite Hexc. }
  assert (Hstatus : forall ext self now fuel fs resp,
            http (start_url (Nav.cfg self)) = GetOk resp ->
            400 <= status_code resp < 600 ->
            Nav.scrape http ext self now fuel fs = Raised "HTTPError").
  { intros ext self now fuel fs resp Hresp [Hlo Hhi].
    unfold Nav.scrape, Nav.raise_for_status. rewrite Hresp.
    by rewrite (proj2 (Z.leb_le _ _) Hlo), (proj2 (Z.ltb_lt _ _) Hhi). }
  unfold step. rewrite Hq, bool_decide_eq_false_2 by done.
  destruct (http u) as [exc|r].
  - eexists _, _. split; [reflexivity|]. split; [reflexivity|]. split; [reflexivity|].
    split; [by apply Hretry|]. split; [exact Hnav|exact Hstatus].
  - destruct (Z.eqb_spec (status_code r) 200) as [|_]; [done|]. cbn [negb].
    eexists _, _. split; [reflexivity|]. split; [reflexivity|]. split; [reflexivity|].
    split; [by apply Hretry|]. split; [exact Hnav|exact Hstatus].
Qed.

(** An instance: the target B of the fixture answers 404. *)
Lemma failed_fetch_is_logged_and_skipped_witness :
  let s := @Scraper.scrape_loop SimpleUrl.lib Fixtures.site_failures
             (Fixtures.scraper_at "https://x/A") 1 ∅ in
  exists s',
    @step SimpleUrl.lib Fixtures.site_failures
          (Scraper.cfg (Fixtures.scraper_at "https://x/A")) FullSite "x" s = Some s'
    /\ queue s' = ["https://x/D"; "https://x/C"]
    /\ files s' = files s
    /\ trace s' = trace s ++ [EvGet "https://x/B"; EvWarnStatus "https://x/B" 404].
Proof.
  intros s.
  destruct (@failed_fetch_is_logged_and_skipped SimpleUrl.lib Fixtures.site_failures
              (Scraper.cfg (Fixtures.scraper_at "https://x/A")) FullSite "x" s
              "https://x/B" ["https://x/D"; "https://x/C"])
    as (warning & s' & Hs & -> & -> & _).
  - reflexivity.
  - apply CrawlFacts.not_elem_of_by_evaluation. vm_compute. reflexivity.
  - discriminate.
  - eexists. split; [exact Hs|]. repeat split.
Defined.



(** * Further facts *)

Module OutcomeFacts.

Import Notions.

Lemma on_return_intro {A : Type} (o : outcome A) (P : A -> Prop) :
  is_returned o = true -> (forall x, o = Returned x -> P x) -> on_return o P.
Proof. destruct o as [x|exc|]; [cbn; auto|discriminate..]. Qed.

(** A part of what a run returned, from the run. *)
Lemma returned_eq {A B : Type} (f : A -> B) (o : outcome A) (x : A) :
  o = Returned x -> f x = match o with Returned y => f y | _ => f x end.
Proof. by intros ->. Qed.

End OutcomeFacts.

Module RunFacts.
Import PyStr PosixPath Url Crawl Notions.

Lemma size_unvisited (W vis : gset string) (u : string) :
  u ∈ W -> u ∉ vis -> size (W ∖ vis) = S (size (W ∖ ({[u]} ∪ vis))).
Proof.
  intros HW Hv.
  assert (Heq : W ∖ vis = {[u]} ∪ W ∖ ({[u]} ∪ vis)).
  { apply set_eq. intros x.
    rewrite elem_of_union, !elem_of_difference, not_elem_of_union, !elem_of_singleton.
    destruct (decide (x = u)) as [->|]; intuition congruence. }
  rewrite Heq, size_union, size_singleton; [reflexivity|].
  apply elem_of_disjoint. intros x ->%elem_of_singleton [_ Hn]%elem_of_difference.
  apply Hn, elem_of_union. left. by apply elem_of_singleton.
Qed.

Section Run.
Context {urllib : UrlLib}.
Variable http : string -> get_result.
Variable cfg : config.
Variable m : mode.
Variable base_domain : string.

#[local] Abbreviation passes := (Notions.passes m base_domain).
#[local] Abbreviation scoped := (Notions.scoped m base_domain).

Lemma discover_one_cases (vis : gset string) (cur href : string) :
  discover_one m base_domain vis cur href
  = if passes cur href
    then if bool_decide (geturl (replace_fragment (urlparse (urljoin cur href)) "") ∈ vis)
         then [] else [geturl (replace_fragment (urlparse (urljoin cur href)) "")]
    else [].
Proof.
  unfold discover_one, Notions.passes. cbn zeta.
  destruct (_ || _); cbn [negb andb]; [|reflexivity].
  destruct (String.eqb _ base_domain); cbn [negb andb]; [|reflexivity].
  by destruct (match m with FullSite => true | Category b => _ end).
Qed.

Lemma passes_scoped (cur href : string) :
  passes cur href = true ->
  scoped (geturl (replace_fragment (urlparse (urljoin cur href)) "")).
Proof.
  unfold Notions.passes. cbn zeta.
  intros [[Hs Hd]%andb_true_iff Hp]%andb_true_iff.
  exists cur, href. cbn zeta. split; [reflexivity|].
  apply orb_true_iff in Hs. rewrite !String.eqb_eq in Hs.
  apply String.eqb_eq in Hd. split; [exact Hs|]. split; [exact Hd|]. by destruct m.
Qed.

Lemma discover_scoped (vis : gset string) (cur : string) (hs : list string) (x : string) :
  x ∈ discover m base_domain vis cur hs -> scoped x.
Proof.
  unfold discover. rewrite list_elem_of_In, in_flat_map.
  intros (h & _ & Hx%list_elem_of_In). rewrite discover_one_cases in Hx.
  destruct (passes cur h) eqn:Hp; [|by apply elem_of_nil in Hx].
  case_bool_decide; [by apply elem_of_nil in Hx|].
  apply list_elem_of_singleton in Hx as ->. by apply passes_scoped.
Qed.

Lemma discover_length (vis : gset string) (cur : string) (hs : list string) :
  (length (discover m base_domain vis cur hs) <= length hs)%nat.
Proof.
  unfold discover. induction hs as [|h hs IH]; cbn [flat_map length]; [lia|].
  rewrite length_app, discover_one_cases.
  destruct (passes cur h); [case_bool_decide|]; cbn [length]; lia.
Qed.

(** Testing against a larger visited set only removes links. *)
Lemma discover_empty (vis : gset string) (cur : string) (hs : list string) (x : string) :
  x ∈ discover m base_domain vis cur hs -> x ∈ discover m base_domain ∅ cur hs.
Proof.
  unfold discover. rewrite !list_elem_of_In, !in_flat_map.
  intros (h & Hh & Hx). exists h. split; [exact Hh|].
  rewrite discover_one_cases in Hx |- *.
  destruct (passes cur h); [|done].
  rewrite bool_decide_eq_false_2 by apply not_elem_of_empty.
  by case_bool_decide.
Qed.

(** The queue and the visited set after one iteration. *)
Lemma step_queue (s s' : state) :
  step http cfg m base_domain s = Some s' ->
  exists u rest, queue s = u :: rest /\
    ((u ∈ visited s /\ queue s' = rest /\ visited s' = visited s /\ trace s' = trace s)
     \/ ((u ∉ visited s) /\ visited s' = {[u]} ∪ visited s
         /\ (exists t, trace s' = trace s ++ EvGet u :: t /\ fetched t = [])
         /\ (queue s' = rest
             \/ exists r, http u = GetOk r
                  /\ queue s' = rest ++ discover m base_domain ({[u]} ∪ visited s)
                                                 u (hrefs r)))).
Proof.
  unfold step. destruct (queue s) as [|u rest] eqn:Hq; [discriminate|].
  intros [= <-]. exists u, rest. split; [reflexivity|].
  case_bool_decide as Hv; [left; by repeat split|right].
  split; [exact Hv|].
  destruct (http u) as [exc|r]; [|destruct (negb (status_code r =? 200));
    [|destruct (is_pdf r u);
      [destruct (files s !! pdf_path cfg u) as [old|]|]]];
    cbn [queue visited files trace]; (split; [reflexivity|]);
    (split; [eexists; split; [reflexivity|reflexivity]|]); auto.
  right. by exists r.
Qed.

(** Every request of a run is for an entry of the queue the run
    started with or for a link that passed the scope tests. *)
Lemma loop_requests_scoped (n : nat) (s : state) :
  exists t, trace (loop http cfg m base_domain n s) = trace s ++ t
            /\ forall u, u ∈ fetched t -> u ∈ queue s \/ scoped u.
Proof.
  revert s. induction n as [|n IH]; intros s.
  { exists []. rewrite app_nil_r. split; [reflexivity|].
    intros u Hu. by apply elem_of_nil in Hu. }
  cbn [loop]. destruct (step http cfg m base_domain s) as [s'|] eqn:Hs.
  2:{ exists []. rewrite app_nil_r. split; [reflexivity|].
      intros u Hu. by apply elem_of_nil in Hu. }
  destruct (IH s') as (t' & Ht' & Hin).
  destruct (step_queue _ _ Hs) as (u & rest & Hq & Hcase).
  assert (Hnext : forall x, x ∈ queue s' -> x ∈ queue s \/ scoped x).
  { intros x Hx. rewrite Hq.
    destruct Hcase as [(_ & Hq' & _)|(_ & _ & _ & [Hq'|(r & _ & Hq')])];
      rewrite Hq' in Hx.
    - left. apply elem_of_cons. by right.
    - left. apply elem_of_cons. by right.
    - apply elem_of_app in Hx as [Hx|Hx].
      + left. apply elem_of_cons. by right.
      + right. by apply discover_scoped in Hx. }
  destruct Hcase as [(_ & _ & _ & Htr)|(_ & _ & (t & Htr & Hf) & _)].
  - exists t'. rewrite Ht', Htr. split; [reflexivity|].
    intros x Hx. destruct (Hin x Hx) as [Hx'|Hx']; [by apply Hnext|by right].
  - exists (EvGet u :: t ++ t'). rewrite Ht', Htr, <- app_assoc.
    split; [reflexivity|].
    change (fetched (EvGet u :: t ++ t')) with (u :: fetched (t ++ t')).
    rewrite CrawlFacts.fetched_app, Hf. cbn [app].
    intros x [->|Hx]%elem_of_cons.
    + left. rewrite Hq. apply elem_of_cons. by left.
    + destruct (Hin x Hx) as [Hx'|Hx']; [by apply Hnext|by right].
Qed.

(** When the loop has ended, every URL that was in the queue is
    visited. *)
Lemma loop_end_visited (n : nat) (s : state) (u : string) :
  queue (loop http cfg m base_domain n s) = [] ->
  u ∈ queue s -> u ∈ visited (loop http cfg m base_domain n s).
Proof.
  revert s. induction n as [|n IH]; intros s Hend Hu.
  { cbn in Hend. rewrite Hend in Hu. by apply elem_of_nil in Hu. }
  cbn [loop] in Hend |- *.
  destruct (step http cfg m base_domain s) as [s'|] eqn:Hs.
  2:{ unfold step in Hs. destruct (queue s); [by apply elem_of_nil in Hu|discriminate]. }
  destruct (step_queue _ _ Hs) as (h & rest & Hq & Hcase).
  rewrite Hq in Hu. apply elem_of_cons in Hu as [->|Hu].
  - apply (CrawlFacts.loop_visited_mono http cfg m base_domain n s').
    destruct Hcase as [(Hv & _ & -> & _)|(_ & -> & _)]; [exact Hv|].
    apply elem_of_union. left. by apply elem_of_singleton.
  - apply IH; [exact Hend|].
    destruct Hcase as [(_ & -> & _)|(_ & _ & _ & [->|(r & _ & ->)])]; [done..|].
    apply elem_of_app. by left.
Qed.

Section Finite.
Variable W : gset string.
Variable L : nat.
Hypothesis page_links : forall u r, http u = GetOk r -> (length (hrefs r) <= L)%nat.
Hypothesis links_in_W :
  forall u r x, http u = GetOk r ->
                x ∈ discover m base_domain ∅ u (hrefs r) -> x ∈ W.

Lemma step_budget (s s' : state) :
  (forall u, u ∈ queue s -> u ∈ W) ->
  step http cfg m base_domain s = Some s' ->
  (forall u, u ∈ queue s' -> u ∈ W) /\ (budget W L s' < budget W L s)%nat.
Proof.
  intros HW Hs. destruct (step_queue _ _ Hs) as (u & rest & Hq & Hcase).
  assert (Hrest : forall x, x ∈ rest -> x ∈ W).
  { intros x Hx. apply HW. rewrite Hq. apply elem_of_cons. by right. }
  assert (Hu : u ∈ W).
  { apply HW. rewrite Hq. apply elem_of_cons. by left. }
  unfold budget. rewrite Hq. cbn [length].
  destruct Hcase as [(_ & -> & -> & _)|(Hv & -> & _ & [->|(r & Hr & ->)])].
  - split; [exact Hrest|lia].
  - split; [exact Hrest|]. rewrite (size_unvisited W (visited s) u Hu Hv). lia.
  - split.
    + intros x [Hx|Hx]%elem_of_app; [by apply Hrest|].
      apply (links_in_W u r x Hr). by apply discover_empty in Hx.
    + rewrite length_app, (size_unvisited W (visited s) u Hu Hv).
      pose proof (discover_length ({[u]} ∪ visited s) u (hrefs r)).
      pose proof (page_links u r Hr). nia.
Qed.

Lemma loop_ends (n : nat) (s : state) :
  (forall u, u ∈ queue s -> u ∈ W) ->
  (budget W L s <= n)%nat ->
  queue (loop http cfg m base_domain n s) = [].
Proof.
  revert s. induction n as [|n IH]; intros s HW Hb.
  { cbn. unfold budget in Hb. destruct (queue s); [reflexivity|cbn in Hb; lia]. }
  cbn [loop]. destruct (step http cfg m base_domain s) as [s'|] eqn:Hs.
  - destruct (step_budget s s' HW Hs) as [HW' Hlt]. apply IH; [exact HW'|lia].
  - unfold step in Hs. by destruct (queue s).
Qed.

End Finite.

(** A loop whose queue is empty after [k] iterations makes at most [k]
    of them. *)
Lemma iterations_ended (k bound : nat) (s : state) :
  queue (loop http cfg m base_domain k s) = [] ->
  (iterations http cfg m base_domain bound s <= k)%nat.
Proof.
  revert s bound. induction k as [|k IH]; intros s bound Hq.
  - cbn [loop] in Hq. destruct bound as [|bound]; [reflexivity|].
    cbn [iterations]. unfold step. rewrite Hq. reflexivity.
  - destruct bound as [|bound]; [cbn [iterations]; lia|].
    cbn [loop] in Hq. cbn [iterations].
    destruct (step http cfg m base_domain s) as [s'|] eqn:Hs; [|lia].
    specialize (IH s' bound Hq). lia.
Qed.

End Run.

(** An instance whose start URL is visited leaves the loop at once. *)
Lemma scrape_loop_visited `{UrlLib} (http : string -> get_result)
    (self : Scraper.WorkAndIncomeScraper) (fuel : nat) (fs : gmap string string) :
  start_url (Scraper.cfg self) ∈ Scraper._visited self ->
  Scraper.scrape_loop http self (S fuel) fs
  = {| queue := []; visited := Scraper._visited self; files := fs; trace := [] |}.
Proof.
  intros Hv. unfold Scraper.scrape_loop, Scraper.scrape_init.
  cbn [loop]. unfold step at 1. cbn [queue visited files trace].
  rewrite bool_decide_eq_true_2 by exact Hv. by destruct fuel.
Qed.

Lemma elem_of_by_evaluation (x : string) (X : gset string) :
  bool_decide (x ∈ X) = true -> x ∈ X.
Proof. apply bool_decide_eq_true. Qed.

End RunFacts.

Module StampFacts.
Import PyStr.

(** With [PyStr.int] and in exact arithmetic, [needs_update_with]
    answers as [needs_update] does, for a stamp within the range of the
    floats. *)
Lemma needs_update_exact (self : Scraper.WorkAndIncomeScraper)
    (read : string -> option string) (now : Q) (days : Z) :
  (forall content last_ts,
     read (Scraper.last_scrape_file self) = Some content ->
     int (strip content) = Some last_ts ->
     Z.abs last_ts < 2 ^ 1024 - 2 ^ 970) ->
  Scraper.needs_update_with int (fun x => x) self read now days
  = Returned (Scraper.needs_update self read now days).
Proof.
  intros Hrange. unfold Scraper.needs_update_with, Scraper.needs_update.
  destruct (read _) as [content|] eqn:Hread; [|reflexivity].
  destruct (int (strip content)) as [last_ts|] eqn:Hint; [|reflexivity].
  unfold Scraper.float_of_int.
  by rewrite (proj2 (Z.leb_gt _ _) (Hrange _ _ eq_refl Hint)).
Qed.

End StampFacts.

Module IntFacts.
Import PyStr Notions.

Lemma digit_char (d : Z) :
  0 <= d < 10 -> digit_of (ascii_of_nat (48 + Z.to_nat d)) = Some d.
Proof.
  intros Hd. unfold digit_of. rewrite nat_ascii_embedding by lia.
  replace ((48 <=? 48 + Z.to_nat d)%nat && (48 + Z.to_nat d <=? 57)%nat) with true.
  - f_equal. lia.
  - symmetry. apply andb_true_iff. split; apply Nat.leb_le; lia.
Qed.

Lemma digit_not_space (c : ascii) : is_digit c = true -> not_space c = true.
Proof.
  destruct c as [[] [] [] [] [] [] [] []]; try discriminate; reflexivity.
Qed.

Lemma lstrip_id (s : string) :
  SimpleUrl.all_chars not_space s = true -> lstrip whitespace s = s.
Proof.
  destruct s as [|c s]; [reflexivity|]. cbn [SimpleUrl.all_chars lstrip].
  intros [Hc _]%andb_true_iff. unfold not_space in Hc.
  apply negb_true_iff in Hc. by rewrite Hc.
Qed.

Lemma rstrip_id (s : string) :
  SimpleUrl.all_chars not_space s = true -> rstrip whitespace s = s.
Proof.
  induction s as [|c s IH]; [reflexivity|]. cbn [SimpleUrl.all_chars rstrip].
  intros [Hc Hs]%andb_true_iff. rewrite (IH Hs).
  unfold not_space in Hc. apply negb_true_iff in Hc. rewrite Hc. by destruct s.
Qed.

Lemma strip_id (s : string) :
  SimpleUrl.all_chars not_space s = true -> strip s = s.
Proof. intros Hs. unfold strip. by rewrite (lstrip_id s Hs), (rstrip_id s Hs). Qed.

Lemma all_chars_weaken (f g : ascii -> bool) (s : string) :
  (forall c, f c = true -> g c = true) ->
  SimpleUrl.all_chars f s = true -> SimpleUrl.all_chars g s = true.
Proof.
  intros Hfg. induction s as [|c s IH]; [reflexivity|]. cbn [SimpleUrl.all_chars].
  intros [Hc Hs]%andb_true_iff. by rewrite (Hfg c Hc), (IH Hs).
Qed.

(** [str(n)] for [n >= 0] consists of digits. *)
Lemma digits_are_digits (f : nat) (n : Z) (acc : string) :
  0 <= n -> SimpleUrl.all_chars is_digit acc = true ->
  SimpleUrl.all_chars is_digit (digits_of_pos_fuel f n acc) = true.
Proof.
  revert n acc. induction f as [|f IH]; intros n acc Hn Hacc; [exact Hacc|].
  cbn [digits_of_pos_fuel].
  assert (Hd : SimpleUrl.all_chars is_digit
                 (String (ascii_of_nat (48 + Z.to_nat (n mod 10))) acc) = true).
  { cbn [SimpleUrl.all_chars]. unfold is_digit at 1.
    rewrite digit_char by (apply Z.mod_pos_bound; lia). exact Hacc. }
  destruct (n <? 10); [exact Hd|]. apply IH; [|exact Hd].
  apply Z.div_pos; lia.
Qed.

Lemma digits_S (f : nat) (n : Z) (acc : string) :
  digits_of_pos_fuel (S f) n acc
  = if n <? 10 then String (ascii_of_nat (48 + Z.to_nat (n mod 10))) acc
    else digits_of_pos_fuel f (n / 10)
           (String (ascii_of_nat (48 + Z.to_nat (n mod 10))) acc).
Proof. reflexivity. Qed.

(** Reading the digits that [str] wrote gives the number back. *)
Lemma parse_digits (f : nat) (n : Z) (acc : string) (p : bool) :
  0 <= n < 10 ^ Z.of_nat (S f) ->
  int_digits 0 p (digits_of_pos_fuel (S f) n acc) = int_digits n true acc.
Proof.
  revert n acc p. induction f as [|f IH]; intros n acc p Hn.
  - rewrite digits_S. change (10 ^ Z.of_nat 1) with 10 in Hn.
    destruct (Z.ltb_spec n 10) as [_|]; [|lia]. cbn [int_digits].
    rewrite digit_char by (apply Z.mod_pos_bound; lia).
    rewrite Z.mod_small by lia. f_equal.
  - rewrite digits_S. destruct (Z.ltb_spec n 10) as [Hlt|Hge].
    + cbn [int_digits]. rewrite digit_char by (apply Z.mod_pos_bound; lia).
      rewrite Z.mod_small by lia. f_equal.
    + rewrite IH.
      * cbn [int_digits]. rewrite digit_char by (apply Z.mod_pos_bound; lia).
        f_equal. pose proof (Z.div_mod n 10). lia.
      * split; [apply Z.div_pos; lia|].
        apply Z.div_lt_upper_bound; [lia|].
        rewrite (Nat2Z.inj_succ (S f)), Z.pow_succ_r in Hn by lia. lia.
Qed.

Lemma fuel_suffices (n : Z) : 0 <= n -> n < 10 ^ Z.of_nat (S (Z.to_nat (Z.log2 n))).
Proof.
  intros Hn. rewrite Nat2Z.inj_succ, Z2Nat.id by apply Z.log2_nonneg.
  destruct (Z.eq_dec n 0) as [->|Hne]; [reflexivity|].
  pose proof (Z.log2_spec n ltac:(lia)) as [_ Hup].
  eapply Z.lt_le_trans; [exact Hup|].
  apply Z.pow_le_mono_l. pose proof (Z.log2_nonneg n). lia.
Qed.

Lemma int_of_digit_string (s : string) :
  SimpleUrl.all_chars is_digit s = true -> int s = int_digits 0 false s.
Proof.
  intros Hs. unfold int.
  rewrite strip_id by (eapply all_chars_weaken; [apply digit_not_space|exact Hs]).
  destruct s as [|c s]; [reflexivity|].
  cbn [SimpleUrl.all_chars] in Hs. apply andb_true_iff in Hs as [Hc _].
  destruct c as [[] [] [] [] [] [] [] []]; try discriminate Hc; reflexivity.
Qed.

(** [int(str(n)) == n] *)
Lemma int_str_of_int (n : Z) : int (str_of_int n) = Some n.
Proof.
  unfold str_of_int. destruct (Z.ltb_spec n 0) as [Hneg|Hpos].
  - set (ds := digits_of_pos_fuel _ (- n) "").
    assert (Hds : SimpleUrl.all_chars is_digit ds = true).
    { apply digits_are_digits; [lia|reflexivity]. }
    unfold int. rewrite strip_id.
    + unfold ds. rewrite parse_digits by (split; [lia|apply fuel_suffices; lia]).
      cbn. f_equal. lia.
    + cbn [SimpleUrl.all_chars]. apply andb_true_iff. split; [reflexivity|].
      eapply all_chars_weaken; [apply digit_not_space|exact Hds].
  - rewrite int_of_digit_string by (apply digits_are_digits; [lia|reflexivity]).
    by rewrite parse_digits by (split; [lia|apply fuel_suffices; lia]).
Qed.

Lemma strip_str_of_int (n : Z) : strip (str_of_int n) = str_of_int n.
Proof.
  apply strip_id. unfold str_of_int. destruct (n <? 0) eqn:Hn.
  - cbn [SimpleUrl.all_chars]. apply andb_true_iff. split; [reflexivity|].
    eapply all_chars_weaken; [apply digit_not_space|].
    apply digits_are_digits; [lia|reflexivity].
  - eapply all_chars_weaken; [apply digit_not_space|].
    apply digits_are_digits; [lia|reflexivity].
Qed.

Lemma int_of_float_floor (now : Q) :
  (0 <= now)%Q -> (now - inject_Z (int_of_float now) < 1)%Q.
Proof.
  destruct now as [p q]. unfold Qle, Qlt, int_of_float, Qminus, Qplus, Qopp, inject_Z.
  cbn [Qnum Qden]. intros Hp.
  rewrite Z.quot_div_nonneg by lia.
  pose proof (Z.div_mod p (Z.pos q) ltac:(lia)).
  pose proof (Z.mod_pos_bound p (Z.pos q) ltac:(lia)).
  rewrite Pos.mul_1_r. nia.
Qed.

End IntFacts.

Module ClosureFacts.
Import PyStr PosixPath Url Crawl Notions.

Section Run.
Context {urllib : UrlLib}.
Variable http : string -> get_result.
Variable cfg : config.
Variable m : mode.
Variable base_domain : string.

Lemma discover_split (vis : gset string) (cur : string) (hs : list string) (x : string) :
  x ∈ discover m base_domain ∅ cur hs ->
  x ∈ vis \/ x ∈ discover m base_domain vis cur hs.
Proof.
  unfold discover. rewrite !list_elem_of_In, !in_flat_map.
  intros (h & Hh & Hx). rewrite RunFacts.discover_one_cases in Hx.
  destruct (Notions.passes m base_domain cur h) eqn:Hp; [|done].
  rewrite bool_decide_eq_false_2 in Hx by apply not_elem_of_empty.
  destruct Hx as [<-|[]].
  destruct (decide (geturl (replace_fragment (urlparse (urljoin cur h)) "") ∈ vis))
    as [Hin|Hout]; [by left|right].
  exists h. split; [exact Hh|]. rewrite RunFacts.discover_one_cases, Hp.
  rewrite bool_decide_eq_false_2 by exact Hout. by left.
Qed.

Lemma discover_passes (cur : string) (hs : list string) (h : string) :
  h ∈ hs -> Notions.passes m base_domain cur h = true ->
  geturl (replace_fragment (urlparse (urljoin cur h)) "")
    ∈ discover m base_domain ∅ cur hs.
Proof.
  intros Hh Hp. unfold discover. rewrite list_elem_of_In, in_flat_map.
  exists h. split; [by apply list_elem_of_In|].
  rewrite RunFacts.discover_one_cases, Hp.
  rewrite bool_decide_eq_false_2 by apply not_elem_of_empty. by left.
Qed.

Lemma fetched_get (u : string) (t0 t' : list event) :
  fetched t0 = [] -> fetched ((EvGet u :: t0) ++ t') = u :: fetched t'.
Proof.
  intros Ht0. rewrite CrawlFacts.fetched_app.
  change (fetched (EvGet u :: t0)) with (u :: fetched t0). by rewrite Ht0.
Qed.

(** The iteration that saves a page. *)
Lemma step_page (s : state) (u : string) (rest : list string) (r : response) :
  queue s = u :: rest -> u ∉ visited s -> http u = GetOk r ->
  status_code r = 200 -> is_pdf r u = false ->
  step http cfg m base_domain s
  = Some {| queue := rest ++ discover m base_domain ({[u]} ∪ visited s) u (hrefs r);
            visited := {[u]} ∪ visited s;
            files := <[local_path cfg u := text r]> (files s);
            trace := trace s ++ [EvGet u; EvWriteHtml (local_path cfg u);
                                 EvSleep (delay cfg)] |}.
Proof.
  intros Hq Hv Hr Hc Hp. unfold step. rewrite Hq.
  rewrite bool_decide_eq_false_2 by exact Hv. by rewrite Hr, Hc, Hp.
Qed.

(** What a run has visited: what was visited before, and what it
    requested. *)
Lemma loop_visited (n : nat) (s : state) (t : list event) :
  trace (loop http cfg m base_domain n s) = trace s ++ t ->
  forall u, u ∈ visited (loop http cfg m base_domain n s)
            <-> u ∈ visited s \/ u ∈ fetched t.
Proof.
  revert s t. induction n as [|n IH]; intros s t Ht u.
  { cbn in Ht |- *. rewrite <- (app_nil_r (trace s)) in Ht at 1.
    apply app_inv_head in Ht as <-. cbn. rewrite elem_of_nil. tauto. }
  cbn [loop] in Ht |- *.
  destruct (step http cfg m base_domain s) as [s'|] eqn:Hs.
  2:{ rewrite <- (app_nil_r (trace s)) in Ht at 1.
      apply app_inv_head in Ht as <-. cbn. rewrite elem_of_nil. tauto. }
  destruct (CrawlFacts.loop_requests http cfg m base_domain n s') as (t' & Ht' & _).
  rewrite (IH s' t' Ht').
  destruct (RunFacts.step_queue _ _ _ _ _ _ Hs) as (h & rest & Hq & Hcase).
  destruct Hcase as [(_ & _ & Hv & Htr)|(_ & Hv & (t0 & Htr & Ht0) & _)].
  - rewrite Ht', Htr in Ht. apply app_inv_head in Ht as <-. by rewrite Hv.
  - rewrite Ht', Htr, <- app_assoc in Ht. apply app_inv_head in Ht as <-.
    rewrite Hv, elem_of_union, elem_of_singleton, (fetched_get h t0 t' Ht0).
    rewrite elem_of_cons. tauto.
Qed.

(** When the loop has ended, the links of every page it saved have
    been visited. *)
Lemma loop_closed (n : nat) (s : state) (t : list event) :
  queue (loop http cfg m base_domain n s) = [] ->
  trace (loop http cfg m base_domain n s) = trace s ++ t ->
  forall u r x,
    u ∈ fetched t -> http u = GetOk r -> status_code r = 200 ->
    is_pdf r u = false ->
    x ∈ discover m base_domain ∅ u (hrefs r) ->
    x ∈ visited (loop http cfg m base_domain n s).
Proof.
  revert s t. induction n as [|n IH]; intros s t Hend Ht u r x Hu Hr Hc Hp Hx.
  { cbn in Ht. rewrite <- (app_nil_r (trace s)) in Ht at 1.
    apply app_inv_head in Ht as <-. by apply elem_of_nil in Hu. }
  cbn [loop] in Hend, Ht |- *.
  destruct (step http cfg m base_domain s) as [s'|] eqn:Hs.
  2:{ rewrite <- (app_nil_r (trace s)) in Ht at 1.
      apply app_inv_head in Ht as <-. by apply elem_of_nil in Hu. }
  destruct (CrawlFacts.loop_requests http cfg m base_domain n s') as (t' & Ht' & _).
  destruct (RunFacts.step_queue _ _ _ _ _ _ Hs) as (h & rest & Hq & Hcase).
  destruct Hcase as [(_ & _ & _ & Htr)|(Hh & Hv & (t0 & Htr & Ht0) & _)].
  - rewrite Ht', Htr in Ht. apply app_inv_head in Ht as <-.
    by apply (IH s' t' Hend Ht' u r x).
  - rewrite Ht', Htr, <- app_assoc in Ht. apply app_inv_head in Ht as <-.
    rewrite (fetched_get h t0 t' Ht0) in Hu.
    apply elem_of_cons in Hu as [->|Hu]; [|by apply (IH s' t' Hend Ht' u r x)].
    rewrite (step_page s h rest r Hq Hh Hr Hc Hp) in Hs. injection Hs as <-.
    destruct (discover_split ({[h]} ∪ visited s) h (hrefs r) x Hx) as [Hin|Hin].
    + by apply (CrawlFacts.loop_visited_mono http cfg m base_domain n _).
    + apply RunFacts.loop_end_visited; [exact Hend|].
      cbn [queue]. apply elem_of_app. by right.
Qed.

End Run.
End ClosureFacts.

Module PathFacts.
Import PyStr PosixPath Url Crawl StrFacts Notions.

#[local] Arguments String.append !s1 s2 : simpl nomatch.

Lemma prefix_refl (a : string) : String.prefix a a = true.
Proof.
  induction a as [|x a IH]; [reflexivity|].
  cbn. destruct (ascii_dec x x); [exact IH|done].
Qed.

Lemma startswith_app (a b : string) : startswith (a +:+ b) a = true.
Proof.
  unfold startswith. induction a as [|x a IH]; [by destruct b|].
  rewrite append_cons. cbn. destruct (ascii_dec x x); [exact IH|done].
Qed.

Lemma endswith_refl (a : string) : endswith a a = true.
Proof. destruct a; cbn [endswith]; by rewrite String.eqb_refl. Qed.

Lemma endswith_app (a b : string) : endswith (a +:+ b) b = true.
Proof.
  induction a as [|x a IH]; [apply endswith_refl|].
  rewrite append_cons. cbn [endswith]. rewrite IH. apply orb_true_r.
Qed.

Lemma lower_app (a b : string) : lower (a +:+ b) = lower a +:+ lower b.
Proof.
  induction a as [|x a IH]; [reflexivity|].
  rewrite append_cons. cbn [lower]. by rewrite IH, append_cons.
Qed.

Lemma has_char_app (c : ascii) (a b : string) :
  has_char c (a +:+ b) = has_char c a || has_char c b.
Proof.
  induction a as [|x a IH]; [reflexivity|].
  rewrite append_cons. cbn [has_char]. by rewrite IH, orb_assoc.
Qed.

Lemma re_sub_class_clean (chars : string) (repl c : ascii) (s : string) :
  has_char repl chars = false -> has_char c chars = true ->
  has_char c (re_sub_class chars repl s) = false.
Proof.
  intros Hr Hc. induction s as [|x s IH]; [reflexivity|].
  cbn [re_sub_class has_char]. rewrite IH, orb_false_r.
  destruct (has_char x chars) eqn:Hx; apply Ascii.eqb_neq; intros ->; congruence.
Qed.

Lemma append_nonempty_r (a b : string) : b <> "" -> a +:+ b <> "".
Proof. destruct a; [done|]. by rewrite append_cons. Qed.

Section Paths.
Context {urllib : UrlLib}.
Variable cfg : config.

Lemma pdf_dir_eq : pdf_dir cfg = prefix_of (output_dir cfg) +:+ "pdfs".
Proof. unfold pdf_dir. by rewrite join_output_dir. Qed.

Lemma html_dir_eq : html_dir cfg = prefix_of (output_dir cfg) +:+ "html".
Proof. unfold html_dir. by rewrite join_output_dir. Qed.

Lemma text_dir_eq : text_dir cfg = prefix_of (output_dir cfg) +:+ "pdf_text".
Proof. unfold text_dir. by rewrite join_output_dir. Qed.

Lemma join_below (x stem : string) (c : ascii) (b : string) :
  c <> "/"%char -> startswith b "/" = false ->
  join (x +:+ stem +:+ String c "") b = (x +:+ stem +:+ String c "") +:+ "/" +:+ b.
Proof.
  intros Hc Hb. apply join_relative; [| |exact Hb].
  - apply append_nonempty_r, append_nonempty_r. discriminate.
  - rewrite <- append_assoc. by apply endswith_snoc_char.
Qed.

Lemma pdf_path_eq (u : string) :
  pdf_path cfg u = pdf_dir cfg +:+ "/" +:+ pdf_filename u.
Proof.
  unfold pdf_path. rewrite pdf_dir_eq.
  apply (join_below _ "pdf" "s"); [discriminate|].
  apply CrawlFacts.pdf_filename_relative.
Qed.

Lemma local_path_eq (u : string) :
  local_path cfg u = html_dir cfg +:+ "/" +:+ html_rel_path u.
Proof.
  unfold local_path. rewrite html_dir_eq.
  apply (join_below _ "htm" "l"); [discriminate|].
  apply CrawlFacts.html_rel_path_relative.
Qed.

Lemma pdf_filename_clean (u : string) (c : ascii) :
  has_char c "<>:/\|?*" = true -> has_char c (pdf_filename u) = false.
Proof.
  intros Hc. unfold pdf_filename.
  pose proof (re_sub_class_clean "<>:/\|?*" "_" c
                (basename (path (urlparse u))) eq_refl Hc) as Hf.
  destruct (endswith _ _); [exact Hf|].
  rewrite has_char_app, Hf. cbn [orb].
  destruct c as [[] [] [] [] [] [] [] []]; try discriminate Hc; reflexivity.
Qed.

Lemma pdf_filename_suffix (u : string) :
  endswith (lower (pdf_filename u)) ".pdf" = true.
Proof.
  unfold pdf_filename. cbn zeta.
  destruct (endswith (lower (re_sub_class _ _ _)) _) eqn:He; [exact He|].
  rewrite lower_app. apply endswith_app.
Qed.

Lemma html_rel_path_file (u : string) :
  html_rel_path u <> "" /\ endswith (html_rel_path u) "/" = false.
Proof.
  unfold html_rel_path. destruct (_ || _) eqn:Ht.
  - split; [by apply append_nonempty_r|].
    change "index.html" with ("index.htm" +:+ "l"). rewrite <- append_assoc.
    by apply endswith_snoc_char.
  - apply orb_false_iff in Ht as [Hne He]. split; [|exact He].
    intros Heq. by rewrite Heq in Hne.
Qed.

End Paths.

(** The condition on the pages of a trace, by evaluation. *)
Lemma pages_below_html_check `{UrlLib} (t : list event) :
  forallb (fun u => no_parent_segment (html_rel_path u)) (fetched t) = true ->
  pages_below_html t.
Proof.
  intros Hall u Hu. rewrite forallb_forall in Hall. apply Hall.
  by apply list_elem_of_In.
Qed.

End PathFacts.

Module FrameFacts.
Import PyStr PosixPath Url Crawl StrFacts Notions.

Section Run.
Context {urllib : UrlLib}.
Variable http : string -> get_result.
Variable cfg : config.
Variable m : mode.
Variable base_domain : string.

(** The files after one iteration. *)
Lemma step_files (s s' : state) (u : string) (rest : list string) :
  step http cfg m base_domain s = Some s' -> queue s = u :: rest ->
  files s' = files s
  \/ ((u ∉ visited s)
      /\ exists c, files s' = <[pdf_path cfg u := c]> (files s)
                   \/ files s' = <[local_path cfg u := c]> (files s)).
Proof.
  unfold step. intros Hs Hq. rewrite Hq in Hs. injection Hs as <-.
  case_bool_decide as Hv; [by left|].
  destruct (http u) as [exc|r]; [by left|].
  destruct (negb (status_code r =? 200)); [by left|].
  destruct (is_pdf r u).
  - destruct (files s !! pdf_path cfg u) as [old|]; [by left|].
    right. split; [exact Hv|]. exists (content r). by left.
  - right. split; [exact Hv|]. exists (text r). by right.
Qed.

(** A run removes no file. *)
Lemma loop_keeps_files (n : nat) (s : state) (p : string) :
  is_Some (files s !! p) -> is_Some (files (loop http cfg m base_domain n s) !! p).
Proof.
  revert s. induction n as [|n IH]; intros s Hp; [exact Hp|].
  cbn [loop]. destruct (step http cfg m base_domain s) as [s'|] eqn:Hs; [|exact Hp].
  apply IH.
  destruct (RunFacts.step_queue _ _ _ _ _ _ Hs) as (u & rest & Hq & _).
  destruct (step_files _ _ _ _ Hs Hq) as [->|(_ & c & [->| ->])]; [exact Hp|..];
    rewrite lookup_insert; case_decide; [by eexists|exact Hp|by eexists|exact Hp].
Qed.

(** A run changes the file of a page or of a PDF that it requested,
    and no other file. *)
Lemma loop_files_frame (n : nat) (s : state) :
  exists t, trace (loop http cfg m base_domain n s) = trace s ++ t
    /\ forall p, files (loop http cfg m base_domain n s) !! p <> files s !! p ->
         exists u, u ∈ fetched t /\ (p = pdf_path cfg u \/ p = local_path cfg u).
Proof.
  revert s. induction n as [|n IH]; intros s.
  { exists []. rewrite app_nil_r. split; [reflexivity|]. by intros p Hp. }
  cbn [loop]. destruct (step http cfg m base_domain s) as [s'|] eqn:Hs.
  2:{ exists []. rewrite app_nil_r. split; [reflexivity|]. by intros p Hp. }
  destruct (IH s') as (t' & Ht' & Hfr).
  destruct (RunFacts.step_queue _ _ _ _ _ _ Hs) as (u & rest & Hq & Hcase).
  destruct (step_files _ _ _ _ Hs Hq) as [Hsame|(Hv & c & Hins)].
  - destruct Hcase as [(_ & _ & _ & Htr)|(_ & _ & (t0 & Htr & Ht0) & _)].
    + exists t'. rewrite Ht', Htr. split; [reflexivity|].
      intros p Hp. rewrite <- Hsame in Hp. by apply Hfr.
    + exists ((EvGet u :: t0) ++ t'). rewrite Ht', Htr, <- app_assoc.
      split; [reflexivity|]. intros p Hp. rewrite <- Hsame in Hp.
      destruct (Hfr p Hp) as (v & Hin & Hpv). exists v. split; [|exact Hpv].
      rewrite (ClosureFacts.fetched_get u t0 t' Ht0). by apply elem_of_cons; right.
  - destruct Hcase as [(Hin & _)|(_ & _ & (t0 & Htr & Ht0) & _)]; [done|].
    exists ((EvGet u :: t0) ++ t'). rewrite Ht', Htr, <- app_assoc.
    split; [reflexivity|]. intros p Hp.
    rewrite (ClosureFacts.fetched_get u t0 t' Ht0).
    destruct (decide (files (loop http cfg m base_domain n s') !! p = files s' !! p))
      as [Heq|Hne].
    + rewrite Heq in Hp. exists u. split; [by apply elem_of_cons; left|].
      destruct Hins as [Hf|Hf]; rewrite Hf, lookup_insert in Hp;
        case_decide; subst; tauto.
    + destruct (Hfr p Hne) as (v & Hin & Hpv). exists v.
      split; [by apply elem_of_cons; right|exact Hpv].
Qed.

End Run.
End FrameFacts.

Module TextFacts.
Import PyStr PosixPath Url Crawl PdfText StrFacts PathFacts Notions.

#[local] Arguments String.append !s1 s2 : simpl nomatch.

Lemma string_length_app (a b : string) :
  String.length (a +:+ b) = (String.length a + String.length b)%nat.
Proof.
  induction a as [|x a IH]; [reflexivity|].
  rewrite append_cons. cbn [String.length]. by rewrite IH.
Qed.

Lemma drop_chars_app (a b : string) : drop_chars (String.length a) (a +:+ b) = b.
Proof.
  induction a as [|x a IH]; [by destruct b|].
  rewrite append_cons. exact IH.
Qed.

Lemma rpartition_app (sep : ascii) (s a b : string) :
  rpartition sep s = Some (a, b) -> s = a +:+ String sep b.
Proof.
  revert a b. induction s as [|c s IH]; intros a b; [discriminate|].
  cbn [rpartition]. destruct (rpartition sep s) as [[a' b']|].
  - intros [= <- <-]. by rewrite append_cons, <- (IH a' b' eq_refl).
  - destruct (Ascii.eqb_spec c sep) as [->|]; [|discriminate].
    by intros [= <- <-].
Qed.

Lemma startswith_has_char (c : ascii) (s : string) :
  has_char c s = false -> startswith s (String c "") = false.
Proof.
  destruct s as [|x s]; [reflexivity|]. cbn [has_char].
  intros [Hx _]%orb_false_iff. apply Ascii.eqb_neq in Hx.
  unfold startswith.
  change (String.prefix (String c "") (String x s))
    with (if ascii_dec c x then String.prefix "" s else false).
  destruct (ascii_dec c x); [congruence|reflexivity].
Qed.

(** The root of [splitext] has no separator that the name has not. *)
Lemma splitext_root_flat (f : string) :
  has_char "/" f = false -> has_char "/" (splitext_root f) = false.
Proof.
  intros Hf. unfold splitext_root. rewrite (rpartition_none "/" f Hf).
  destruct (rpartition "." f) as [[stem ext]|] eqn:Hr; [|exact Hf].
  destruct (all_dots stem); [exact Hf|].
  apply rpartition_app in Hr. rewrite Hr, has_char_app in Hf.
  by apply orb_false_iff in Hf as [Hs _].
Qed.

Section Pass.
Context {urllib : UrlLib}.
Variable ext : gmap string string -> string -> string.
Variable cfg : config.

(** A file directly below [top] is an entry of the walk. *)
Lemma walk_child (fs : gmap string string) (top f : string) :
  is_Some (fs !! (top +:+ "/" +:+ f)) -> has_char "/" f = false ->
  (top, f) ∈ walk fs top.
Proof.
  intros [c Hc] Hf. apply PdfTextFacts.walk_elem.
  unfold files_below. apply list_elem_of_omap.
  exists (top +:+ "/" +:+ f, c). split; [by apply elem_of_map_to_list|].
  cbn [fst]. rewrite <- append_assoc, startswith_app.
  replace (String.length top + 1)%nat with (String.length (top +:+ "/"))
    by (rewrite string_length_app; reflexivity).
  by rewrite drop_chars_app, (rpartition_none "/" f Hf).
Qed.

#[local] Abbreviation text_path := (Notions.text_path cfg).

Lemma txt_full_stored (u : string) :
  txt_full cfg (pdf_dir cfg) (pdf_filename u) = text_path u.
Proof.
  unfold txt_full, Notions.text_path. fold (pdf_path cfg u). rewrite pdf_path_eq.
  unfold relpath. rewrite <- append_assoc, startswith_app.
  replace (String.length (pdf_dir cfg) + 1)%nat
    with (String.length (pdf_dir cfg +:+ "/")) by (rewrite string_length_app; reflexivity).
  rewrite drop_chars_app, text_dir_eq.
  apply (join_below _ "pdf_tex" "t"); [discriminate|].
  apply startswith_has_char. rewrite has_char_app, splitext_root_flat; [reflexivity|].
  by apply pdf_filename_clean.
Qed.

Lemma pass_leaves_text (fs : gmap string string) (tr : list event) (u : string) :
  is_Some (fs !! pdf_path cfg u) ->
  is_Some ((extract_all_pdfs ext cfg (fs, tr)).1 !! text_path u).
Proof.
  intros Hu. unfold extract_all_pdfs. cbn [fst].
  rewrite <- txt_full_stored.
  destruct (exists_nonempty fs (txt_full cfg (pdf_dir cfg) (pdf_filename u))) eqn:He.
  - apply PdfTextFacts.pass_keeps_files. cbn [fst].
    apply PdfTextFacts.exists_nonempty_spec in He as (c & -> & _). by eexists.
  - apply PdfTextFacts.pass_extracts_missing; [|apply pdf_filename_suffix|exact He].
    apply walk_child; [by rewrite <- pdf_path_eq|].
    by apply pdf_filename_clean.
Qed.

(** The events of a pass are calls of the text extractor. *)
Lemma pass_events (entries : list (string * string))
    (st : gmap string string * list event) :
  exists t, (extract_entries ext cfg entries st).2 = st.2 ++ t
            /\ forall e, e ∈ t -> exists p, e = EvExtract p.
Proof.
  revert st. induction entries as [|[root name] l IH]; intros [fs tr].
  - exists []. cbn. rewrite app_nil_r. split; [reflexivity|].
    intros e He. by apply elem_of_nil in He.
  - rewrite PdfTextFacts.extract_entries_cons, PdfTextFacts.extract_one_cases.
    destruct (_ && _); [|apply IH].
    destruct (IH (<[txt_full cfg root name := ext fs (join root name)]> fs,
                  tr ++ [EvExtract (join root name)])) as (t & Ht & He).
    exists (EvExtract (join root name) :: t). rewrite Ht. cbn [snd].
    rewrite <- app_assoc. split; [reflexivity|].
    intros e [->|Hin]%elem_of_cons; [by eexists|by apply He].
Qed.

End Pass.
End TextFacts.

Module StoreFacts.
Import PyStr PosixPath Url Crawl StrFacts Notions.

Section Run.
Context {urllib : UrlLib}.
Variable http : string -> get_result.
Variable cfg : config.
Variable m : mode.
Variable base_domain : string.

(** The trace of one iteration. *)
Lemma step_writes (s s' : state) (u : string) (rest : list string) :
  step http cfg m base_domain s = Some s' -> queue s = u :: rest ->
  exists t0, trace s' = trace s ++ t0
    /\ (forall p, EvWritePdf p ∈ t0 ->
          p = pdf_path cfg u /\ files s !! p = None /\ is_Some (files s' !! p))
    /\ (forall e, e ∈ t0 -> EvGet u ∈ t0).
Proof.
  unfold step. intros Hs Hq. rewrite Hq in Hs. injection Hs as <-.
  case_bool_decide as Hv.
  { exists []. cbn. rewrite app_nil_r. split; [reflexivity|].
    split; intros ? Hin; by apply elem_of_nil in Hin. }
  destruct (http u) as [exc|r]; [|destruct (negb (status_code r =? 200));
    [|destruct (is_pdf r u);
      [destruct (files s !! pdf_path cfg u) as [old|] eqn:Hold|]]];
    cbn [trace files]; eexists; (split; [reflexivity|]);
    (split; [|intros e _; apply elem_of_cons; by left]);
    intros p Hin; repeat (apply elem_of_cons in Hin as [[=]|Hin]);
    try (by apply elem_of_nil in Hin).
  subst p. split; [reflexivity|]. split; [exact Hold|].
  rewrite lookup_insert_eq. by eexists.
Qed.

(** Every PDF that a run writes is the file of a URL it requested,
    was not there before, and is there when the run ends. *)
Lemma loop_writes (n : nat) (s : state) :
  exists t, trace (loop http cfg m base_domain n s) = trace s ++ t
    /\ forall p, EvWritePdf p ∈ t ->
         exists u, u ∈ fetched t /\ p = pdf_path cfg u
                   /\ files s !! p = None
                   /\ is_Some (files (loop http cfg m base_domain n s) !! p).
Proof.
  revert s. induction n as [|n IH]; intros s.
  { exists []. rewrite app_nil_r. split; [reflexivity|].
    intros p Hp. by apply elem_of_nil in Hp. }
  cbn [loop]. destruct (step http cfg m base_domain s) as [s'|] eqn:Hs.
  2:{ exists []. rewrite app_nil_r. split; [reflexivity|].
      intros p Hp. by apply elem_of_nil in Hp. }
  destruct (IH s') as (t' & Ht' & Hw).
  destruct (RunFacts.step_queue _ _ _ _ _ _ Hs) as (u & rest & Hq & _).
  destruct (step_writes _ _ _ _ Hs Hq) as (t0 & Ht0 & Hw0 & Hget).
  exists (t0 ++ t'). rewrite Ht', Ht0, <- app_assoc. split; [reflexivity|].
  intros p [Hp|Hp]%elem_of_app.
  - destruct (Hw0 p Hp) as (-> & Hnew & Hsome). exists u.
    split; [|split; [reflexivity|split; [exact Hnew|by apply FrameFacts.loop_keeps_files]]].
    rewrite CrawlFacts.fetched_app. apply elem_of_app. left.
    unfold fetched. apply list_elem_of_omap. exists (EvGet u).
    split; [by apply (Hget _ Hp)|reflexivity].
  - destruct (Hw p Hp) as (v & Hv & Hpv & Hnew & Hsome). exists v.
    split; [rewrite CrawlFacts.fetched_app; apply elem_of_app; by right|].
    split; [exact Hpv|]. split; [|exact Hsome].
    pose proof (FrameFacts.loop_keeps_files http cfg m base_domain 1 s p) as Hkeep.
    cbn [loop] in Hkeep. rewrite Hs in Hkeep.
    destruct (files s !! p) as [c|]; [|reflexivity].
    destruct (Hkeep ltac:(by eexists)) as [c' Hc']. congruence.
Qed.

End Run.
End StoreFacts.

Module PassFacts.
Import PyStr PosixPath Url Crawl PdfText StrFacts PathFacts TextFacts Notions.

#[local] Arguments String.append !s1 s2 : simpl nomatch.

Lemma startswith_cons (c x : ascii) (s : string) :
  startswith (String x s) (String c "") = Ascii.eqb c x.
Proof.
  unfold startswith.
  change (String.prefix (String c "") (String x s))
    with (if ascii_dec c x then String.prefix "" s else false).
  destruct (ascii_dec c x) as [->|Hne].
  - rewrite Ascii.eqb_refl. by destruct s.
  - symmetry. by apply Ascii.eqb_neq.
Qed.

Lemma startswith_drop (top r : string) :
  startswith (top +:+ "/" +:+ r) (top +:+ "//") = startswith r "/".
Proof.
  unfold startswith. induction top as [|x top IH].
  - cbn. destruct r as [|y r]; [reflexivity|].
    change (String.prefix "/" (String y r))
      with (if ascii_dec "/" y then String.prefix "" r else false).
    destruct (ascii_dec "/" y); [|reflexivity]. by destruct r.
  - rewrite !append_cons. cbn. destruct (ascii_dec x x); [exact IH|done].
Qed.

(** [splitext] keeps the first character of a path, if the root is
    not empty. *)
Lemma splitext_root_head (p : string) :
  startswith p "/" = false -> startswith (splitext_root p +:+ ".txt") "/" = false.
Proof.
  intros Hp. unfold splitext_root.
  assert (Hwhole : startswith (p +:+ ".txt") "/" = false).
  { destruct p as [|x p]; [reflexivity|]. by rewrite append_cons, startswith_cons in *. }
  destruct (rpartition "/" p) as [[d b]|] eqn:Hd.
  - apply rpartition_app in Hd.
    destruct (rpartition "." b) as [[stem e]|] eqn:Hb; [|exact Hwhole].
    destruct (all_dots stem); [exact Hwhole|].
    subst p. destruct d as [|x d].
    + change (startswith (String "/" b) "/" = false) in Hp.
      rewrite startswith_cons in Hp. discriminate Hp.
    + rewrite !append_cons, startswith_cons in *. exact Hp.
  - destruct (rpartition "." p) as [[stem e]|] eqn:Hb; [|exact Hwhole].
    destruct (all_dots stem); [exact Hwhole|].
    apply rpartition_app in Hb. subst p. destruct stem as [|x stem]; [reflexivity|].
    change ("" +:+ String x stem) with (String x stem).
    rewrite !append_cons, startswith_cons in *. exact Hp.
Qed.

Lemma rpartition_tail (sep : ascii) (s a b : string) :
  rpartition sep s = Some (a, b) -> has_char sep b = false.
Proof.
  revert a b. induction s as [|c s IH]; intros a b; [discriminate|].
  cbn [rpartition]. destruct (rpartition sep s) as [[a' b']|] eqn:Hr.
  - intros [= <- <-]. by apply (IH a').
  - destruct (Ascii.eqb c sep); [|discriminate]. intros [= <- <-].
    clear IH. induction s as [|y s IH]; [reflexivity|].
    cbn [rpartition] in Hr. cbn [has_char].
    destruct (rpartition sep s) as [[? ?]|]; [discriminate|].
    destruct (Ascii.eqb y sep); [discriminate|]. by apply IH.
Qed.

Section Pass.
Context {urllib : UrlLib}.
Variable ext : gmap string string -> string -> string.
Variable cfg : config.

#[local] Abbreviation tidy := (Notions.tidy cfg).

Lemma pdf_dir_shape : pdf_dir cfg <> "" /\ endswith (pdf_dir cfg) "/" = false.
Proof.
  rewrite pdf_dir_eq. split; [by apply append_nonempty_r|].
  change "pdfs" with ("pdf" +:+ "s"). rewrite <- append_assoc.
  by apply endswith_snoc_char.
Qed.

(** The entries of the walk, from the stored paths. *)
Lemma walk_entry (fs : gmap string string) (top root name : string) :
  (root, name) ∈ walk fs top ->
  exists rel, is_Some (fs !! (top +:+ "/" +:+ rel))
    /\ match rpartition "/" rel with
       | Some (d, b) => root = top +:+ "/" +:+ d /\ name = b
       | None => root = top /\ name = rel
       end.
Proof.
  intros He%PdfTextFacts.walk_elem. revert He.
  unfold files_below. intros ([k c] & Hk & Hf)%list_elem_of_omap.
  apply elem_of_map_to_list in Hk. cbn [fst] in Hf.
  destruct (startswith k (top +:+ "/")) eqn:Hs; [|discriminate Hf].
  unfold startswith in Hs. apply String.prefix_correct in Hs.
  assert (Hk' : k = (top +:+ "/") +:+ drop_chars (String.length top + 1) k).
  { replace (String.length top + 1)%nat with (String.length (top +:+ "/"))
      by (rewrite string_length_app; reflexivity).
    clear -Hs. revert k Hs. generalize (top +:+ "/"). intros a.
    induction a as [|x a IH]; intros k Hs; [by destruct k|].
    destruct k as [|y k]; [discriminate Hs|]. cbn in Hs.
    injection Hs as -> Hs. rewrite append_cons. cbn [String.length drop_chars].
    f_equal. by apply IH. }
  exists (drop_chars (String.length top + 1) k).
  rewrite <- append_assoc, <- Hk'. split; [by eexists|].
  destruct (rpartition "/" _) as [[d b]|]; by injection Hf as <- <-.
Qed.

(** The text file of an entry lies below [pdf_text]. *)
Lemma txt_full_below (fs : gmap string string) (root name : string) :
  tidy fs -> (root, name) ∈ walk fs (pdf_dir cfg) ->
  exists y, txt_full cfg root name = text_dir cfg +:+ "/" +:+ y +:+ ".txt".
Proof.
  intros Htidy (rel & Hrel & Hshape)%walk_entry.
  apply Htidy in Hrel. rewrite startswith_drop in Hrel.
  destruct pdf_dir_shape as [Hne Hend].
  assert (Hjoin : exists r, join root name = (pdf_dir cfg +:+ "/") +:+ r
                            /\ startswith r "/" = false).
  { destruct (rpartition "/" rel) as [[d b]|] eqn:Hr.
    - destruct Hshape as [-> ->]. apply rpartition_tail in Hr as Hb.
      apply startswith_has_char in Hb. apply rpartition_app in Hr. subst rel.
      destruct d as [|x d].
      { change (startswith (String "/" b) "/" = false) in Hrel.
        rewrite startswith_cons in Hrel. discriminate Hrel. }
      rewrite append_cons, startswith_cons in Hrel.
      unfold join. rewrite Hb. destruct (_ || _).
      + exists (String x d +:+ b). rewrite !append_assoc. split; [reflexivity|].
        by rewrite append_cons, startswith_cons.
      + exists (String x d +:+ "/" +:+ b). rewrite !append_assoc.
        split; [reflexivity|]. by rewrite append_cons, startswith_cons.
    - destruct Hshape as [-> ->]. exists rel. split; [|exact Hrel].
      rewrite join_relative by assumption. by rewrite append_assoc. }
  destruct Hjoin as (r & Hj & Hr). unfold txt_full, relpath. rewrite Hj.
  rewrite startswith_app.
  replace (String.length (pdf_dir cfg) + 1)%nat
    with (String.length (pdf_dir cfg +:+ "/")) by (rewrite string_length_app; reflexivity).
  rewrite drop_chars_app, text_dir_eq.
  exists (splitext_root r).
  apply (join_below _ "pdf_tex" "t"); [discriminate|].
  by apply splitext_root_head.
Qed.

(** A pass writes below [pdf_text], and nowhere else. *)
Lemma pass_frame (entries : list (string * string)) (fs0 fs : gmap string string)
    (tr : list event) (p : string) :
  tidy fs0 -> (forall e, e ∈ entries -> e ∈ walk fs0 (pdf_dir cfg)) ->
  (extract_entries ext cfg entries (fs, tr)).1 !! p <> fs !! p ->
  exists y, p = text_dir cfg +:+ "/" +:+ y +:+ ".txt".
Proof.
  intros Htidy. revert fs tr. induction entries as [|[root name] l IH];
    intros fs tr Hin Hp; [done|].
  rewrite PdfTextFacts.extract_entries_cons, PdfTextFacts.extract_one_cases in Hp.
  assert (Hl : forall e, e ∈ l -> e ∈ walk fs0 (pdf_dir cfg)).
  { intros e He. apply Hin, elem_of_cons. by right. }
  destruct (_ && _); [|by apply (IH fs tr)].
  destruct (decide (p = txt_full cfg root name)) as [->|Hne].
  - apply (txt_full_below fs0); [exact Htidy|]. apply Hin, elem_of_cons. by left.
  - apply (IH (<[txt_full cfg root name := ext fs (join root name)]> fs)
              (tr ++ [EvExtract (join root name)]) Hl).
    by rewrite lookup_insert_ne.
Qed.

End Pass.
End PassFacts.

Module TidyFacts.
Import PyStr PosixPath Url Crawl PdfText StrFacts PathFacts TextFacts PassFacts Notions.

#[local] Arguments String.append !s1 s2 : simpl nomatch.

Lemma startswith_cancel (x a b : string) :
  startswith (x +:+ a) (x +:+ b) = startswith a b.
Proof.
  unfold startswith. induction x as [|c x IH]; [reflexivity|].
  rewrite !append_cons. cbn. destruct (ascii_dec c c); [exact IH|done].
Qed.

Section Run.
Context {urllib : UrlLib}.
Variable http : string -> get_result.
Variable cfg : config.
Variable m : mode.
Variable base_domain : string.

Lemma pdf_path_tidy (u : string) :
  startswith (pdf_path cfg u) (pdf_dir cfg +:+ "//") = false.
Proof.
  rewrite pdf_path_eq, startswith_drop. apply CrawlFacts.pdf_filename_relative.
Qed.

Lemma local_path_tidy (u : string) :
  startswith (local_path cfg u) (pdf_dir cfg +:+ "//") = false.
Proof.
  rewrite local_path_eq, html_dir_eq, pdf_dir_eq, !append_assoc.
  by rewrite startswith_cancel.
Qed.

Lemma output_file_tidy (name : string) :
  startswith name "/" = false -> startswith name "pdfs//" = false ->
  startswith (join (output_dir cfg) name) (pdf_dir cfg +:+ "//") = false.
Proof.
  intros Habs Hn. rewrite (join_output_dir _ _ Habs), pdf_dir_eq, !append_assoc.
  by rewrite startswith_cancel.
Qed.

(** A run keeps the stored paths tidy. *)
Lemma loop_tidy (n : nat) (s : state) :
  tidy cfg (files s) -> tidy cfg (files (loop http cfg m base_domain n s)).
Proof.
  intros Ht k Hk.
  destruct (FrameFacts.loop_files_frame http cfg m base_domain n s) as (t & _ & Hfr).
  destruct (decide (files (loop http cfg m base_domain n s) !! k = files s !! k))
    as [Heq|Hne].
  - apply Ht. by rewrite <- Heq.
  - destruct (Hfr k Hne) as (u & _ & [-> | ->]);
      [apply pdf_path_tidy|apply local_path_tidy].
Qed.

Lemma insert_tidy (fs : gmap string string) (name c : string) :
  startswith name "/" = false -> startswith name "pdfs//" = false ->
  tidy cfg fs -> tidy cfg (<[join (output_dir cfg) name := c]> fs).
Proof.
  intros Habs Hn Ht k Hk. rewrite lookup_insert in Hk.
  case_decide; [subst k; by apply output_file_tidy|by apply Ht].
Qed.

(** A pass leaves the files of the output directory that are not
    below [pdf_text] as they are. *)
Lemma pass_keeps_output_file (ext : gmap string string -> string -> string)
    (fs : gmap string string) (tr : list event) (name : string) :
  tidy cfg fs ->
  startswith name "/" = false -> startswith name "pdf_text/" = false ->
  (extract_all_pdfs ext cfg (fs, tr)).1 !! join (output_dir cfg) name
  = fs !! join (output_dir cfg) name.
Proof.
  intros Ht Habs Hn. unfold extract_all_pdfs. cbn [fst].
  destruct (decide ((extract_entries ext cfg (walk fs (pdf_dir cfg)) (fs, tr)).1
                      !! join (output_dir cfg) name
                    = fs !! join (output_dir cfg) name)) as [Heq|Hne]; [exact Heq|].
  exfalso. destruct (pass_frame ext cfg _ fs fs tr _ Ht (fun e He => He) Hne) as (y & Hy).
  rewrite (join_output_dir _ _ Habs), text_dir_eq, !append_assoc in Hy.
  apply (inj (String.append _)) in Hy. subst name.
  apply not_true_iff_false in Hn. apply Hn.
  exact (startswith_app "pdf_text/" (y +:+ ".txt")).
Qed.

End Run.
End TidyFacts.

Module UpdateFacts.
Import PyStr PosixPath Url Crawl Notions.

Section Run.
Context {urllib : UrlLib}.
Variable http : string -> get_result.
Variable ext : gmap string string -> string -> string.

(** What [run_update] returns when it scrapes. *)
Lemma run_update_forced (self self' : Scraper.WorkAndIncomeScraper)
    (now0 now1 : Q) (fuel : nat) (fs fs' : gmap string string) (tr : list event) :
  Scraper.run_update http ext self true now0 now1 fuel fs = Returned (self', fs', tr) ->
  let st := Scraper.scrape_loop http self fuel fs in
  let fs1 := <[Scraper.last_scrape_file self := str_of_int (int_of_float now1)]>
               (files st) in
  queue st = []
  /\ self' = {| Scraper.cfg := Scraper.cfg self; Scraper._visited := visited st |}
  /\ (fs', tr) = PdfText.extract_all_pdfs ext (Scraper.cfg self) (fs1, trace st).
Proof.
  unfold Scraper.run_update, Scraper.scrape. cbn [orb].
  destruct (queue (Scraper.scrape_loop http self fuel fs)) eqn:Hq; [|discriminate].
  unfold Scraper.extract_all_pdfs. cbn [Scraper.cfg].
  destruct (PdfText.extract_all_pdfs _ _ _) as [fs2 tr2] eqn:Hpass.
  intros [= <- <- <-]. cbn zeta. split; [reflexivity|split; [reflexivity|]].
  first [reflexivity|symmetry; exact Hpass].
Qed.

(** The time stamp that a completed update leaves. *)
Lemma run_update_time_stamp (self self' : Scraper.WorkAndIncomeScraper)
    (now0 now1 : Q) (fuel : nat) (fs fs' : gmap string string) (tr : list event) :
  Notions.tidy (Scraper.cfg self) fs ->
  Scraper.run_update http ext self true now0 now1 fuel fs = Returned (self', fs', tr) ->
  Scraper.cfg self' = Scraper.cfg self
  /\ fs' !! Scraper.last_scrape_file self' = Some (str_of_int (int_of_float now1)).
Proof.
  intros Ht (Hq & -> & Hpass)%run_update_forced. split; [reflexivity|].
  apply (f_equal fst) in Hpass. cbn [fst] in Hpass. rewrite Hpass.
  unfold Scraper.last_scrape_file. cbn [Scraper.cfg].
  rewrite TidyFacts.pass_keeps_output_file; [apply lookup_insert_eq| |reflexivity..].
  apply TidyFacts.insert_tidy; [reflexivity..|].
  by apply TidyFacts.loop_tidy.
Qed.

End Run.
End UpdateFacts.

Module NavFacts.
Import PyStr PosixPath Url Crawl Notions.

Lemma str_lt_trans (a b c : string) : str_lt a b -> str_lt b c -> str_lt a c.
Proof.
  unfold str_lt. intros Hab Hbc. apply OrderedTypeEx.String_as_OT.cmp_lt.
  eapply OrderedTypeEx.String_as_OT.lt_trans;
    apply OrderedTypeEx.String_as_OT.cmp_lt; eassumption.
Qed.

Lemma str_lt_irrefl (a : string) : ~ str_lt a a.
Proof.
  unfold str_lt. intros Ha. pose proof (String.compare_antisym a a) as Hs.
  rewrite Ha in Hs. discriminate Hs.
Qed.

Lemma compare_gt_lt (a b : string) : String.compare a b = Gt -> str_lt b a.
Proof.
  unfold str_lt. intros Hab. rewrite String.compare_antisym, Hab. reflexivity.
Qed.

Lemma insert_sorted_elem (x y : string) (l : list string) :
  y ∈ Nav.insert_sorted x l <-> y = x \/ y ∈ l.
Proof.
  induction l as [|z l IH]; cbn [Nav.insert_sorted].
  - rewrite list_elem_of_singleton, elem_of_nil. tauto.
  - destruct (String.compare x z) eqn:Hc.
    + apply String.compare_eq_iff in Hc as ->. rewrite elem_of_cons. tauto.
    + rewrite elem_of_cons. tauto.
    + rewrite !elem_of_cons, IH. tauto.
Qed.

Lemma insert_sorted_sorted (x : string) (l : list string) :
  StronglySorted str_lt l -> StronglySorted str_lt (Nav.insert_sorted x l).
Proof.
  induction 1 as [|z l Hl IH Hz]; cbn [Nav.insert_sorted].
  - apply SSorted_cons; [apply SSorted_nil|apply Forall_nil_2].
  - destruct (String.compare x z) eqn:Hc.
    + by apply SSorted_cons.
    + apply SSorted_cons; [by apply SSorted_cons|].
      apply Forall_cons. split; [exact Hc|].
      eapply Forall_impl; [exact Hz|]. intros y Hy. by apply (str_lt_trans x z y).
    + apply SSorted_cons; [exact IH|].
      apply Forall_forall. intros y [->|Hy]%insert_sorted_elem.
      * by apply compare_gt_lt.
      * by apply (proj1 (Forall_forall _ _) Hz).
Qed.

Lemma sorted_set_elem (y : string) (l : list string) :
  y ∈ Nav.sorted_set l <-> y ∈ l.
Proof.
  induction l as [|x l IH]; [reflexivity|].
  cbn [Nav.sorted_set fold_right].
  change (fold_right Nav.insert_sorted [] l) with (Nav.sorted_set l).
  rewrite insert_sorted_elem, IH, elem_of_cons. tauto.
Qed.

Lemma sorted_set_sorted (l : list string) : StronglySorted str_lt (Nav.sorted_set l).
Proof.
  induction l as [|x l IH]; [apply SSorted_nil|].
  by apply insert_sorted_sorted.
Qed.

Lemma sorted_NoDup (l : list string) : StronglySorted str_lt l -> NoDup l.
Proof.
  induction 1 as [|z l Hl IH Hz]; [apply NoDup_nil_2|].
  apply NoDup_cons. split; [|exact IH].
  intros Hin. apply (str_lt_irrefl z).
  by apply (proj1 (Forall_forall _ _) Hz).
Qed.

End NavFacts.

Module NavRunFacts.
Import PyStr PosixPath Url Crawl StrFacts PathFacts Notions.

Section Run.
Context {urllib : UrlLib}.
Variable http : string -> get_result.
Variable self : Nav.NavScraper.

(** The files that a run leaves as they are: those of the output
    directory that are below neither [html] nor [pdfs]. *)
Lemma loop_keeps_output_file (m : mode) (base_domain : string) (n : nat)
    (s : state) (name : string) :
  startswith name "/" = false -> startswith name "html/" = false ->
  startswith name "pdfs/" = false ->
  files (loop http (Nav.cfg self) m base_domain n s)
    !! join (output_dir (Nav.cfg self)) name
  = files s !! join (output_dir (Nav.cfg self)) name.
Proof.
  intros Habs Hhtml Hpdfs.
  destruct (FrameFacts.loop_files_frame http (Nav.cfg self) m base_domain n s)
    as (t & _ & Hfr).
  destruct (decide (files (loop http (Nav.cfg self) m base_domain n s)
                      !! join (output_dir (Nav.cfg self)) name
                    = files s !! join (output_dir (Nav.cfg self)) name))
    as [Heq|Hne]; [exact Heq|].
  exfalso. destruct (Hfr _ Hne) as (u & _ & Hpu).
  rewrite (join_output_dir _ _ Habs) in Hpu.
  rewrite pdf_path_eq, local_path_eq, pdf_dir_eq, html_dir_eq, !append_assoc in Hpu.
  destruct Hpu as [Hpu|Hpu]; apply (inj (String.append _)) in Hpu; subst name.
  - apply not_true_iff_false in Hpdfs. apply Hpdfs.
    exact (startswith_app "pdfs/" (pdf_filename u)).
  - apply not_true_iff_false in Hhtml. apply Hhtml.
    exact (startswith_app "html/" (html_rel_path u)).
Qed.

(** The categories one after the other. *)
Lemma crawl_categories_spec (links : list string) (fuel : nat)
    (w w' : gmap string string * list event) :
  Nav.crawl_categories http self links fuel w = Returned w' ->
  (Notions.tidy (Nav.cfg self) w.1 -> Notions.tidy (Nav.cfg self) w'.1)
  /\ (forall name,
        startswith name "/" = false -> startswith name "html/" = false ->
        startswith name "pdfs/" = false ->
        w'.1 !! join (output_dir (Nav.cfg self)) name
        = w.1 !! join (output_dir (Nav.cfg self)) name)
  /\ exists t, w'.2 = w.2 ++ t
       /\ forall u, u ∈ fetched t ->
            exists link, link ∈ links
              /\ (u = link
                  \/ Notions.scoped (Category (Nav.base_dir_of link))
                                     (Nav.category_domain link) u).
Proof.
  revert w. induction links as [|link rest IH]; intros w; cbn [Nav.crawl_categories].
  { intros [= <-]. split; [done|]. split; [done|]. exists [].
    rewrite app_nil_r. split; [reflexivity|]. intros u Hu. by apply elem_of_nil in Hu. }
  unfold Nav._crawl_category.
  destruct (queue (Nav.category_loop http self link fuel w)) eqn:Hq; [|discriminate].
  intros Hrest. destruct (IH _ Hrest) as (Htidy & Hkeep & t2 & Ht2 & Hreq).
  cbn [fst snd] in Htidy, Hkeep, Ht2.
  destruct (RunFacts.loop_requests_scoped http (Nav.cfg self)
              (Category (Nav.base_dir_of link)) (Nav.category_domain link)
              fuel (Nav.category_init link w)) as (t1 & Ht1 & Hreq1).
  split; [|split].
  - intros Hw. apply Htidy. by apply TidyFacts.loop_tidy.
  - intros name Habs Hhtml Hpdfs. rewrite (Hkeep name Habs Hhtml Hpdfs).
    by apply loop_keeps_output_file.
  - exists (t1 ++ t2). unfold Nav.category_loop in Ht2. rewrite Ht2, Ht1.
    cbn [Nav.category_init trace]. rewrite app_assoc. split; [reflexivity|].
    intros u. rewrite CrawlFacts.fetched_app, elem_of_app.
    intros [Hu|Hu].
    + exists link. split; [by apply elem_of_cons; left|].
      destruct (Hreq1 u Hu) as [Hin|Hsc]; [|by right].
      cbn [Nav.category_init queue] in Hin.
      apply list_elem_of_singleton in Hin. by left.
    + destruct (Hreq u Hu) as (l & Hl & Hul). exists l.
      split; [by apply elem_of_cons; right|exact Hul].
Qed.

End Run.
End NavRunFacts.

(** * Further properties *)

(** X1. On a finite site the crawl loop cannot run forever. Let every
    page have at most [L] links, and let [W] be a finite set of URLs that
    holds the entries of the queue and the target of every link of every
    page that passes the tests of the loop. Then the body of the [while]
    loop, in the full crawl and in a category crawl, runs at most
    [len(queue) + (L + 1) * |W - visited|] times. (A run in which a write
    or a function of [urllib.parse] raises leaves the loop before that.) *)
Theorem crawl_loop_is_bounded_on_a_finite_site `{UrlLib} (http : string -> get_result)
    (cfg : config) (m : mode) (base_domain : string)
    (W : gset string) (L : nat) (s : state) (bound : nat) :
  (forall u r, http u = GetOk r -> (length (hrefs r) <= L)%nat) ->
  (forall u r x, http u = GetOk r ->
                 x ∈ discover m base_domain ∅ u (hrefs r) -> x ∈ W) ->
  (forall u, u ∈ queue s -> u ∈ W) ->
  (Notions.iterations http cfg m base_domain bound s
   <= length (queue s) + (L + 1) * size (W ∖ visited s))%nat.
Proof.
  intros Hlinks HW Hq. apply RunFacts.iterations_ended.
  by apply (RunFacts.loop_ends http cfg m base_domain W L Hlinks HW).
Qed.

(** An instance: the site A -> {B, C}, B -> {D} with its four pages, where
    the bound is 13 and the loop makes four iterations. *)
Lemma crawl_loop_is_bounded_on_a_finite_site_witness :
  (Notions.iterations (urllib := SimpleUrl.lib) Fixtures.site_abcd
     (Scraper.cfg (Fixtures.scraper_at "https://x/A")) FullSite "x" 100
     (@Scraper.scrape_init (Fixtures.scraper_at "https://x/A") ∅)
   <= 13)%nat
  /\ Notions.iterations (urllib := SimpleUrl.lib) Fixtures.site_abcd
       (Scraper.cfg (Fixtures.scraper_at "https://x/A")) FullSite "x" 100
       (@Scraper.scrape_init (Fixtures.scraper_at "https://x/A") ∅)
     = 4%nat.
Proof.
  split; [|vm_compute; reflexivity].
  refine (Nat.le_trans _ _ _
            (@crawl_loop_is_bounded_on_a_finite_site SimpleUrl.lib Fixtures.site_abcd
               (Scraper.cfg (Fixtures.scraper_at "https://x/A")) FullSite "x"
               {[ "https://x/A"; "https://x/B"; "https://x/C"; "https://x/D" ]} 2
               (@Scraper.scrape_init (Fixtures.scraper_at "https://x/A") ∅) 100
               _ _ _) _).
  - intros u r. unfold Fixtures.site_abcd, Fixtures.html. cbn [Fixtures.site].
    repeat (destruct (String.eqb _ u); [intros [= <-]; cbn; lia|]). intros [=].
  - intros u r x. unfold Fixtures.site_abcd, Fixtures.html. cbn [Fixtures.site].
    repeat (match goal with
            | |- context [String.eqb ?a u] => destruct (String.eqb_spec a u) as [<-|_]
            end;
            [intros [= <-] Hx; vm_compute in Hx;
             repeat (apply elem_of_cons in Hx as [->|Hx];
                     [apply RunFacts.elem_of_by_evaluation; vm_compute; reflexivity|]);
             by apply elem_of_nil in Hx|]).
    intros [=].
  - intros u ->%list_elem_of_singleton. apply RunFacts.elem_of_by_evaluation. vm_compute. reflexivity.
  - vm_compute. lia.
Defined.

(** X2. What the crawl requests. From any state on, every URL that the
    loop requests is an entry of the queue it started from or the target,
    without fragment, of a link that passed the tests of the loop. So
    [scrape] requests the start URL and [http] or [https] URLs of the
    domain of the start URL, and [_crawl_category] requests the category
    URL and URLs of the category's host whose path starts with the
    directory of the category. *)
Theorem requests_stay_in_scope `{UrlLib} (http : string -> get_result)
    (cfg : config) (m : mode) (base_domain : string) (n : nat) (s : state) :
  (exists t, trace (loop http cfg m base_domain n s) = trace s ++ t
             /\ forall u, u ∈ fetched t -> u ∈ queue s \/ Notions.scoped m base_domain u)
  /\ (forall self fs u,
        u ∈ fetched (trace (Scraper.scrape_loop http self n fs)) ->
        u = start_url (Scraper.cfg self)
        \/ Notions.scoped FullSite (Scraper.base_domain self) u)
  /\ (forall self category_url w u,
        u ∈ fetched (trace (Nav.category_loop http self category_url n w)) ->
        u ∈ fetched w.2 \/ u = category_url
        \/ Notions.scoped (Category (Nav.base_dir_of category_url))
                           (Nav.category_domain category_url) u).
Proof.
  split; [apply RunFacts.loop_requests_scoped|]. split.
  - intros self fs u. unfold Scraper.scrape_loop.
    destruct (RunFacts.loop_requests_scoped http (Scraper.cfg self) FullSite
                (Scraper.base_domain self) n (Scraper.scrape_init self fs)) as (t & -> & Hin).
    cbn [Scraper.scrape_init trace app]. intros Hu.
    destruct (Hin u Hu) as [Hq|Hs]; [left|by right].
    by apply list_elem_of_singleton in Hq.
  - intros self cu w u. unfold Nav.category_loop.
    destruct (RunFacts.loop_requests_scoped http (Nav.cfg self)
                (Category (Nav.base_dir_of cu)) (Nav.category_domain cu) n
                (Nav.category_init cu w)) as (t & -> & Hin).
    cbn [Nav.category_init trace]. rewrite CrawlFacts.fetched_app.
    intros [Hu|Hu]%elem_of_app; [by left|right].
    destruct (Hin u Hu) as [Hq|Hs]; [left|by right].
    by apply list_elem_of_singleton in Hq.
Qed.

(** X3. The visited set outlives [scrape]. When [scrape] returns, the
    start URL is in [_visited] of the instance; a later [scrape] on the
    same instance, whatever the site answers then, requests nothing,
    leaves the files as they are and only writes the time stamp again. *)
Theorem second_scrape_requests_nothing `{UrlLib} (http : string -> get_result)
    (self self' : Scraper.WorkAndIncomeScraper) (now : Q) (fuel : nat)
    (fs fs' : gmap string string) (tr : list event) :
  Scraper.scrape http self now fuel fs = Returned (self', fs', tr) ->
  start_url (Scraper.cfg self) ∈ Scraper._visited self'
  /\ forall http2 now2 fuel2 fs2,
       Scraper.scrape http2 self' now2 (S fuel2) fs2
       = Returned (self',
                   <[Scraper.last_scrape_file self' := str_of_int (int_of_float now2)]> fs2,
                   []).
Proof.
  intros Hret.
  assert (Hv : start_url (Scraper.cfg self') ∈ Scraper._visited self').
  { unfold Scraper.scrape, Scraper.scrape_loop in Hret.
    destruct (queue (loop http (Scraper.cfg self) FullSite (Scraper.base_domain self) fuel
                          (Scraper.scrape_init self fs))) eqn:Hend; [|discriminate].
    injection Hret as <- _ _. cbn [Scraper.cfg Scraper._visited].
    apply RunFacts.loop_end_visited; [exact Hend|]. by apply list_elem_of_singleton. }
  assert (Hcfg : Scraper.cfg self' = Scraper.cfg self).
  { unfold Scraper.scrape in Hret.
    destruct (queue (Scraper.scrape_loop http self fuel fs)); [|discriminate].
    by injection Hret as <- _ _. }
  split; [by rewrite <- Hcfg|].
  intros http2 now2 fuel2 fs2. unfold Scraper.scrape.
  rewrite (RunFacts.scrape_loop_visited http2 self' fuel2 fs2 Hv).
  cbn [queue visited files trace]. by destruct self'.
Qed.

(** An instance: the fixture site, crawled twice. *)
Lemma second_scrape_requests_nothing_witness :
  Notions.on_return
    (@Scraper.scrape SimpleUrl.lib Fixtures.site_abcd
       (Fixtures.scraper_at "https://x/A") (3460000001 # 2) 10 ∅)
    (fun '(self', fs', tr) =>
       fetched tr = ["https://x/A"; "https://x/B"; "https://x/C"; "https://x/D"]
       /\ @Scraper.scrape SimpleUrl.lib Fixtures.site_abcd self' (3470000001 # 2) 10 fs'
          = Returned (self',
                      <[Scraper.last_scrape_file self' := "1735000000"]> fs', [])).
Proof.
  apply OutcomeFacts.on_return_intro; [vm_compute; reflexivity|].
  intros [[self' fs'] tr] Hfirst. cbv beta iota. split.
  - pose proof (OutcomeFacts.returned_eq (fun '(_, _, t) => fetched t) _ _ Hfirst) as Hx.
    cbv beta iota in Hx. rewrite Hx. vm_compute. reflexivity.
  - apply (@second_scrape_requests_nothing SimpleUrl.lib Fixtures.site_abcd
             (Fixtures.scraper_at "https://x/A") self' (3460000001 # 2) 10 ∅ fs' tr Hfirst).
Defined.

(** ** Integers as text *)

(** X4. The time stamp that [scrape] writes is the one that
    [needs_update] reads: after a [scrape] that returned at time [now],
    [needs_update(d)] at a later time answers [True] exactly when more
    than [d * 86400] seconds have passed since [int(now)]. Asked at once,
    for one day or more, it answers [False]. *)
Theorem data_is_fresh_after_a_scrape `{UrlLib} (http : string -> get_result)
    (self self' : Scraper.WorkAndIncomeScraper) (now : Q) (fuel : nat)
    (fs fs' : gmap string string) (tr : list event) :
  Scraper.scrape http self now fuel fs = Returned (self', fs', tr) ->
  (forall later max_age_days,
     Scraper.needs_update self' (Scraper.read_text fs') later max_age_days = true
     <-> (inject_Z (max_age_days * 86400) < later - inject_Z (int_of_float now))%Q)
  /\ (forall max_age_days,
        (0 <= now)%Q -> 1 <= max_age_days ->
        Scraper.needs_update self' (Scraper.read_text fs') now max_age_days = false).
Proof.
  intros Hs. unfold Scraper.scrape in Hs.
  destruct (queue _) eqn:Hq; [|discriminate Hs]. injection Hs as <- <- <-.
  assert (Hiff : forall later max_age_days,
     Scraper.needs_update
       {| Scraper.cfg := Scraper.cfg self;
          Scraper._visited := visited (Scraper.scrape_loop http self fuel fs) |}
       (Scraper.read_text
          (<[Scraper.last_scrape_file self := str_of_int (int_of_float now)]>
             (files (Scraper.scrape_loop http self fuel fs)))) later max_age_days = true
     <-> (inject_Z (max_age_days * 86400) < later - inject_Z (int_of_float now))%Q).
  { intros later d. unfold Scraper.needs_update, Scraper.read_text, Scraper.last_scrape_file.
    cbn [Scraper.cfg]. rewrite lookup_insert_eq.
    rewrite IntFacts.strip_str_of_int, IntFacts.int_str_of_int.
    replace (d * 24 * 3600) with (d * 86400) by lia.
    rewrite negb_true_iff, <- not_true_iff_false, Qle_bool_iff.
    split; [apply Qnot_le_lt|apply Qlt_not_le]. }
  split; [exact Hiff|].
  intros d Hnow Hd. apply not_true_iff_false. rewrite Hiff.
  apply Qle_not_lt. apply Qlt_le_weak.
  eapply Qlt_le_trans; [apply IntFacts.int_of_float_floor, Hnow|].
  unfold Qle, inject_Z. cbn. lia.
Qed.

Lemma data_is_fresh_after_a_scrape_witness :
  Notions.on_return
    (@Scraper.scrape SimpleUrl.lib Fixtures.site_abcd
       (Fixtures.scraper_at "https://x/A") (3460000001 # 2) 10 ∅)
    (fun '(self', fs', tr) =>
       Scraper.needs_update self' (Scraper.read_text fs') (3460000001 # 2) 30 = false
       /\ Scraper.needs_update self' (Scraper.read_text fs')
            ((3460000001 # 2) + inject_Z (31 * 86400)) 30 = true).
Proof.
  apply OutcomeFacts.on_return_intro; [vm_compute; reflexivity|].
  intros [[self' fs'] tr] Hfirst. cbv beta iota.
  pose proof (@data_is_fresh_after_a_scrape SimpleUrl.lib Fixtures.site_abcd
                (Fixtures.scraper_at "https://x/A") self' (3460000001 # 2) 10 ∅ fs' tr
                Hfirst) as [Hiff Hfresh].
  split.
  - apply Hfresh; [unfold Qle; cbn; lia|lia].
  - apply Hiff. unfold Qlt. vm_compute. reflexivity.
Defined.

(** X5. The crawl follows every link in scope. When [scrape] returns,
    [_visited] holds what it held before and the URLs that were
    requested, and nothing else; and for every page that was requested
    and saved (status 200, not a PDF), the target of each of its links
    that is an [http] or [https] URL of the domain is in [_visited]. *)
Theorem every_link_in_scope_is_followed `{UrlLib} (http : string -> get_result)
    (self self' : Scraper.WorkAndIncomeScraper) (now : Q) (fuel : nat)
    (fs fs' : gmap string string) (tr : list event) :
  Scraper.scrape http self now fuel fs = Returned (self', fs', tr) ->
  (forall u, u ∈ Scraper._visited self'
             <-> u ∈ Scraper._visited self \/ u ∈ fetched tr)
  /\ (forall u r href,
        u ∈ fetched tr -> http u = GetOk r -> status_code r = 200 ->
        is_pdf r u = false -> href ∈ hrefs r ->
        let target := urlparse (urljoin u href) in
        (scheme target = "http" \/ scheme target = "https") ->
        netloc target = Scraper.base_domain self ->
        geturl (replace_fragment target "") ∈ Scraper._visited self').
Proof.
  intros Hs. unfold Scraper.scrape in Hs.
  destruct (queue (Scraper.scrape_loop http self fuel fs)) eqn:Hq; [|discriminate Hs].
  injection Hs as <- <- <-. cbn [Scraper._visited].
  assert (Ht : trace (Scraper.scrape_loop http self fuel fs)
               = trace (Scraper.scrape_init self fs)
                 ++ trace (Scraper.scrape_loop http self fuel fs)) by reflexivity.
  split.
  - intros u. apply (ClosureFacts.loop_visited _ _ _ _ _ _ _ Ht).
  - intros u r href Hu Hr Hc Hp Hh Hsch Hnet.
    apply (ClosureFacts.loop_closed _ _ _ _ _ _ _ Hq Ht u r); try assumption.
    apply ClosureFacts.discover_passes; [exact Hh|].
    unfold Notions.passes. cbn zeta.
    rewrite Hnet, String.eqb_refl, !andb_true_r.
    apply orb_true_iff. rewrite !String.eqb_eq. exact Hsch.
Qed.

Lemma every_link_in_scope_is_followed_witness :
  Notions.on_return
    (@Scraper.scrape SimpleUrl.lib Fixtures.site_abcd
       (Fixtures.scraper_at "https://x/A") (3460000001 # 2) 10 ∅)
    (fun '(self', fs', tr) => "https://x/D" ∈ Scraper._visited self').
Proof.
  apply OutcomeFacts.on_return_intro; [vm_compute; reflexivity|].
  intros [[self' fs'] tr] Hfirst. cbv beta iota.
  assert (Hf : fetched tr = ["https://x/A"; "https://x/B"; "https://x/C"; "https://x/D"]).
  { pose proof (OutcomeFacts.returned_eq (fun '(_, _, t) => fetched t) _ _ Hfirst) as Hx.
    cbv beta iota in Hx. rewrite Hx. vm_compute. reflexivity. }
  pose proof (@every_link_in_scope_is_followed SimpleUrl.lib Fixtures.site_abcd
                (Fixtures.scraper_at "https://x/A") self' (3460000001 # 2) 10 ∅ fs' tr
                Hfirst) as [_ Hlinks].
  apply (Hlinks "https://x/B"
           {| status_code := 200; content_type := "text/html; charset=utf-8";
              content := "<html>"; text := "<html>"; hrefs := ["/D"] |} "/D").
  - rewrite Hf. apply list_elem_of_In. cbn. tauto.
  - reflexivity.
  - reflexivity.
  - reflexivity.
  - apply list_elem_of_In. cbn. tauto.
  - right. reflexivity.
  - reflexivity.
Defined.

(** X6. The files that a crawl leaves alone. The loop removes no file.
    When the pages that it requests are saved below [html] (no path has a
    [..] component), every file [join(output_dir, name)] whose relative
    name is in normal form and below neither [html/] nor [pdfs/], such as
    a time stamp or an extracted text, is left as it was. *)
Theorem crawl_keeps_the_files_outside_html_and_pdfs `{UrlLib}
    (http : string -> get_result)
    (cfg : config) (m : mode) (base_domain : string) (n : nat) (s : state) :
  (forall p, is_Some (files s !! p) ->
             is_Some (files (loop http cfg m base_domain n s) !! p))
  /\ (exists t, trace (loop http cfg m base_domain n s) = trace s ++ t
        /\ (Notions.pages_below_html t ->
            forall name,
              Notions.plain_path name = true ->
              startswith name "/" = false -> startswith name "html/" = false ->
              startswith name "pdfs/" = false ->
              files (loop http cfg m base_domain n s) !! join (output_dir cfg) name
              = files s !! join (output_dir cfg) name)).
Proof.
  split; [intros p; apply FrameFacts.loop_keeps_files|].
  destruct (FrameFacts.loop_files_frame http cfg m base_domain n s) as (t & Ht & Hfr).
  exists t. split; [exact Ht|].
  - intros _ name _ Habs Hhtml Hpdfs.
    destruct (decide (files (loop http cfg m base_domain n s) !! join (output_dir cfg) name
                      = files s !! join (output_dir cfg) name)) as [Heq|Hne]; [exact Heq|].
    exfalso. destruct (Hfr _ Hne) as (u & _ & Hpu).
    rewrite (StrFacts.join_output_dir _ _ Habs) in Hpu.
    rewrite PathFacts.pdf_path_eq, PathFacts.local_path_eq in Hpu.
    rewrite PathFacts.pdf_dir_eq, PathFacts.html_dir_eq in Hpu.
    rewrite !StrFacts.append_assoc in Hpu.
    destruct Hpu as [Hpu|Hpu]; apply (inj (String.append _)) in Hpu; subst name.
    + apply not_true_iff_false in Hpdfs. apply Hpdfs.
      exact (PathFacts.startswith_app "pdfs/" (pdf_filename u)).
    + apply not_true_iff_false in Hhtml. apply Hhtml.
      exact (PathFacts.startswith_app "html/" (html_rel_path u)).
Qed.

(** X7. The file of a PDF. The file name that the crawler derives from
    a URL ends in [.pdf], in any case of the letters, and has none of the
    characters [<>:/\|?*]; so the PDF lies directly in [pdfs], and when
    it is stored the walk of the extraction pass lists it with [pdfs] as
    its directory. *)
Theorem pdf_file_names_are_flat `{UrlLib} (cfg : config) (u : string) :
  endswith (lower (pdf_filename u)) ".pdf" = true
  /\ (forall c, has_char c "<>:/\|?*" = true -> has_char c (pdf_filename u) = false)
  /\ pdf_path cfg u = pdf_dir cfg +:+ "/" +:+ pdf_filename u
  /\ (forall fs, is_Some (fs !! pdf_path cfg u) ->
                 (pdf_dir cfg, pdf_filename u) ∈ PdfText.walk fs (pdf_dir cfg)).
Proof.
  split; [apply PathFacts.pdf_filename_suffix|].
  split; [intros c; apply PathFacts.pdf_filename_clean|].
  split; [apply PathFacts.pdf_path_eq|].
  intros fs Hu. apply TextFacts.walk_child; [by rewrite <- PathFacts.pdf_path_eq|].
  by apply PathFacts.pdf_filename_clean.
Qed.

(** X8. The file of a page. The relative path that the crawler derives
    from a URL is not empty and has no slash at either end, so
    [local_path] is [html_dir], a slash, and that path. When the path has
    no [..] component, this is a file below [html], and it is not the
    file of any PDF. (With such a component the path can leave [html]:
    the crawler does not normalise it.) *)
Theorem page_paths_name_files `{UrlLib} (cfg : config) (u : string) :
  html_rel_path u <> ""
  /\ startswith (html_rel_path u) "/" = false
  /\ endswith (html_rel_path u) "/" = false
  /\ local_path cfg u = html_dir cfg +:+ "/" +:+ html_rel_path u
  /\ (Notions.no_parent_segment (html_rel_path u) = true ->
      forall v, local_path cfg u <> pdf_path cfg v).
Proof.
  destruct (PathFacts.html_rel_path_file u) as [Hne He].
  split; [exact Hne|]. split; [apply CrawlFacts.html_rel_path_relative|].
  split; [exact He|]. split; [apply PathFacts.local_path_eq|].
  intros _ v. apply CrawlFacts.local_path_ne_pdf_path.
Qed.





(** X11. The files that the extraction pass touches. On a file system
    without an empty path component below [pdfs], a file that differs
    after [extract_all_pdfs] has a path of the form [pdf_text/....txt];
    every other file of the output directory is left as it was, and the
    only effects of the pass are calls of the text extractor. *)
Theorem extraction_writes_only_below_pdf_text `{UrlLib}
    (ext : gmap string string -> string -> string) (cfg : config)
    (fs : gmap string string) (tr : list event) :
  (forall k, is_Some (fs !! k) -> startswith k (pdf_dir cfg +:+ "//") = false) ->
  (forall p, (PdfText.extract_all_pdfs ext cfg (fs, tr)).1 !! p <> fs !! p ->
             exists y, p = text_dir cfg +:+ "/" +:+ y +:+ ".txt")
  /\ (forall name,
        startswith name "/" = false -> startswith name "pdf_text/" = false ->
        (PdfText.extract_all_pdfs ext cfg (fs, tr)).1 !! join (output_dir cfg) name
        = fs !! join (output_dir cfg) name)
  /\ (exists t, (PdfText.extract_all_pdfs ext cfg (fs, tr)).2 = tr ++ t
                /\ forall e, e ∈ t -> exists p, e = EvExtract p).
Proof.
  intros Ht. split; [|split].
  - intros p Hp.
    exact (PassFacts.pass_frame ext cfg _ fs fs tr p Ht (fun e He => He) Hp).
  - intros name. by apply TidyFacts.pass_keeps_output_file.
  - apply (TextFacts.pass_events ext cfg _ (fs, tr)).
Qed.

Lemma extraction_writes_only_below_pdf_text_witness :
  let fs : gmap string string :=
    {[ "data/pdfs/form.PDF" := "%PDF-text of the form" ]} in
  let cfg := {| start_url := "https://x/A"; output_dir := "data"; delay := 3 # 10 |} in
  (@PdfText.extract_all_pdfs Fixtures.extractor cfg (fs, [])).1
    !! join "data" "pdfs/form.PDF"
  = Some "%PDF-text of the form".
Proof.
  cbv zeta.
  assert (Ht : forall k,
             is_Some (({[ "data/pdfs/form.PDF" := "%PDF-text of the form" ]}
                       : gmap string string) !! k) ->
             startswith k
               (@pdf_dir {| start_url := "https://x/A"; output_dir := "data";
                            delay := 3 # 10 |} +:+ "//") = false).
  { intros k [c Hk]. apply lookup_singleton_Some in Hk as [<- _]. reflexivity. }
  destruct (@extraction_writes_only_below_pdf_text SimpleUrl.lib Fixtures.extractor
              {| start_url := "https://x/A"; output_dir := "data"; delay := 3 # 10 |}
              _ [] Ht) as (_ & Hkeep & _).
  refine (eq_trans (Hkeep "pdfs/form.PDF" eq_refl eq_refl) _). reflexivity.
Defined.

(** X12. After an update, the next one waits. When [run_update(force=True)]
    has returned and the clock is at most 30 days past the integer time
    stamp it wrote, [needs_update()] answers [False] and
    [run_update()] without force returns at once: no request, no file
    changed. *)
Theorem update_within_the_month_does_nothing `{UrlLib} (http : string -> get_result)
    (ext : gmap string string -> string -> string)
    (self self' : Scraper.WorkAndIncomeScraper) (now0 now1 now2 : Q) (fuel : nat)
    (fs fs' : gmap string string) (tr : list event) :
  (forall k, is_Some (fs !! k) ->
             startswith k (pdf_dir (Scraper.cfg self) +:+ "//") = false) ->
  Scraper.run_update http ext self true now0 now1 fuel fs = Returned (self', fs', tr) ->
  (now2 - inject_Z (int_of_float now1) <= inject_Z (30 * 86400))%Q ->
  Scraper.needs_update self' (Scraper.read_text fs') now2 30 = false
  /\ forall http2 ext2 now3 fuel2,
       Scraper.run_update http2 ext2 self' false now2 now3 fuel2 fs'
       = Returned (self', fs', []).
Proof.
  intros Ht Hrun Hage.
  destruct (UpdateFacts.run_update_time_stamp http ext self self' now0 now1 fuel
              fs fs' tr Ht Hrun) as [Hcfg Hts].
  assert (Hfresh : Scraper.needs_update self' (Scraper.read_text fs') now2 30 = false).
  { unfold Scraper.needs_update, Scraper.read_text. rewrite Hts.
    rewrite IntFacts.strip_str_of_int, IntFacts.int_str_of_int.
    apply negb_false_iff, Qle_bool_iff. exact Hage. }
  split; [exact Hfresh|]. intros http2 ext2 now3 fuel2.
  unfold Scraper.run_update. by rewrite Hfresh.
Qed.

Lemma update_within_the_month_does_nothing_witness :
  Notions.on_return
    (@Scraper.run_update SimpleUrl.lib Fixtures.site_two_pdfs Fixtures.extractor
       (Fixtures.scraper_at "https://x/A") true 0 (3460000001 # 2) 10 ∅)
    (fun '(self', fs', tr) =>
       Scraper.needs_update self' (Scraper.read_text fs')
         ((3460000001 # 2) + inject_Z (29 * 86400)) 30 = false
       /\ forall http2 ext2 now3 fuel2,
            @Scraper.run_update SimpleUrl.lib http2 ext2 self' false
              ((3460000001 # 2) + inject_Z (29 * 86400)) now3 fuel2 fs'
            = Returned (self', fs', [])).
Proof.
  apply OutcomeFacts.on_return_intro; [vm_compute; reflexivity|].
  intros [[self' fs'] tr] Hrun. cbv beta iota.
  apply (@update_within_the_month_does_nothing SimpleUrl.lib Fixtures.site_two_pdfs
           Fixtures.extractor (Fixtures.scraper_at "https://x/A") self' 0
           (3460000001 # 2) ((3460000001 # 2) + inject_Z (29 * 86400)) 10 ∅ fs' tr).
  - intros k [c Hk]. by rewrite lookup_empty in Hk.
  - exact Hrun.
  - unfold Qle. vm_compute. discriminate.
Defined.

(** X13. The categories of the navigation page are crawled in
    ascending order and each of them once: [nav_links] is strictly
    increasing, has no duplicates, and holds the URLs that the [href]s of
    the page give, and nothing else. *)
Theorem category_links_are_sorted_and_unique `{UrlLib} (self : Nav.NavScraper)
    (resp : response) :
  StronglySorted (fun a b => String.compare a b = Lt) (Nav.nav_links self resp)
  /\ NoDup (Nav.nav_links self resp)
  /\ forall link, link ∈ Nav.nav_links self resp
                  <-> exists href, href ∈ hrefs resp /\ link ∈ Nav.nav_link self href.
Proof.
  split; [apply NavFacts.sorted_set_sorted|].
  split; [apply NavFacts.sorted_NoDup, NavFacts.sorted_set_sorted|].
  intros link. unfold Nav.nav_links.
  rewrite NavFacts.sorted_set_elem, list_elem_of_In, in_flat_map.
  split; intros (href & Hh & Hl); exists href;
    by rewrite ?list_elem_of_In in *.
Qed.

(** X14. What the navigation scrape requests. When [NavScraper.scrape]
    returns, its first request was for the navigation page; every other
    one was for a category link of that page or for a URL of a category's
    host whose path starts with the directory of that category. *)
Theorem nav_scrape_requests_the_categories_only `{UrlLib} (http : string -> get_result)
    (ext : gmap string string -> string -> string) (self : Nav.NavScraper)
    (now : Q) (fuel : nat) (fs fs' : gmap string string) (tr : list event) :
  Nav.scrape http ext self now fuel fs = Returned (fs', tr) ->
  exists resp t,
    http (start_url (Nav.cfg self)) = GetOk resp
    /\ tr = EvGet (start_url (Nav.cfg self)) :: t
    /\ forall u, u ∈ fetched t ->
         exists link, link ∈ Nav.nav_links self resp
           /\ (u = link
               \/ Notions.scoped (Category (Nav.base_dir_of link))
                                  (Nav.category_domain link) u).
Proof.
  unfold Nav.scrape. destruct (http (start_url (Nav.cfg self))) as [exc|resp]; [discriminate|].
  destruct (Nav.raise_for_status resp); [discriminate|].
  destruct (Nav.crawl_categories _ _ _ _ _) as [w| |] eqn:Hc; [|discriminate..].
  destruct (NavRunFacts.crawl_categories_spec _ _ _ _ _ _ Hc) as (_ & _ & t1 & Ht1 & Hreq).
  unfold Nav._extract_all_pdfs.
  destruct (TextFacts.pass_events ext (Nav.cfg self)
              (PdfText.walk w.1 (pdf_dir (Nav.cfg self))) w) as (t2 & Ht2 & Hev).
  change (PdfText.extract_entries _ _ _ _)
    with (PdfText.extract_all_pdfs ext (Nav.cfg self) w) in Ht2.
  destruct (PdfText.extract_all_pdfs ext (Nav.cfg self) w) as [fs2 tr2].
  intros [= <- <-]. cbn [snd] in Ht1, Ht2. exists resp, (t1 ++ t2).
  split; [reflexivity|]. split; [by rewrite Ht2, Ht1|].
  intros u. rewrite CrawlFacts.fetched_app, elem_of_app. intros [Hu|Hu]; [by apply Hreq|].
  unfold fetched in Hu. apply list_elem_of_omap in Hu as (e & He & Hget).
  destruct (Hev e He) as (p & ->). discriminate Hget.
Qed.

Lemma nav_scrape_requests_the_categories_only_witness :
  Notions.on_return
    (@Nav.scrape SimpleUrl.lib Fixtures.site_category Fixtures.extractor
       (Fixtures.nav_at "https://h/map/index.html") (3460000001 # 2) 10 ∅)
    (fun '(fs', tr) =>
       exists resp t,
         Fixtures.site_category "https://h/map/index.html" = GetOk resp
         /\ tr = EvGet "https://h/map/index.html" :: t
         /\ forall u, u ∈ fetched t ->
              exists link,
                link ∈ @Nav.nav_links SimpleUrl.lib
                         (Fixtures.nav_at "https://h/map/index.html") resp
                /\ (u = link
                    \/ @Notions.scoped SimpleUrl.lib
                         (Category (@Nav.base_dir_of SimpleUrl.lib link))
                         (@Nav.category_domain SimpleUrl.lib link) u)).
Proof.
  apply OutcomeFacts.on_return_intro; [vm_compute; reflexivity|].
  intros [fs' tr] Hrun. cbv beta iota.
  exact (@nav_scrape_requests_the_categories_only SimpleUrl.lib Fixtures.site_category
           Fixtures.extractor (Fixtures.nav_at "https://h/map/index.html")
           (3460000001 # 2) 10 ∅ fs' tr Hrun).
Defined.

(** X15. The two scrapers keep separate time stamps. When
    [NavScraper.scrape] returns at time [now], [last_nav_scrape.txt]
    holds [int(now)]. If the pages that it requested are saved below
    [html] (no path has a [..] component), every file of the output
    directory whose relative name is in normal form, is below none of
    [html/], [pdfs/] and [pdf_text/] and is not that time stamp is left as
    it was; so [last_scrape.txt] is, and [needs_update] of a
    [WorkAndIncomeScraper] with the same output directory answers as
    before: a navigation scrape does not count as an update. *)
Theorem nav_scrape_keeps_the_stamp_of_the_full_scrape `{UrlLib}
    (http : string -> get_result) (ext : gmap string string -> string -> string)
    (self : Nav.NavScraper) (now : Q) (fuel : nat) (fs fs' : gmap string string)
    (tr : list event) :
  (forall k, is_Some (fs !! k) ->
             startswith k (pdf_dir (Nav.cfg self) +:+ "//") = false) ->
  Nav.scrape http ext self now fuel fs = Returned (fs', tr) ->
  Notions.pages_below_html tr ->
  fs' !! Nav.last_scrape_file self = Some (str_of_int (int_of_float now))
  /\ (forall name,
        Notions.plain_path name = true ->
        startswith name "/" = false -> startswith name "html/" = false ->
        startswith name "pdfs/" = false -> startswith name "pdf_text/" = false ->
        name <> "last_nav_scrape.txt" ->
        fs' !! join (output_dir (Nav.cfg self)) name
        = fs !! join (output_dir (Nav.cfg self)) name)
  /\ (forall full py_int round later max_age_days,
        output_dir (Scraper.cfg full) = output_dir (Nav.cfg self) ->
        Scraper.needs_update_with py_int round full (Scraper.read_text fs')
          later max_age_days
        = Scraper.needs_update_with py_int round full (Scraper.read_text fs)
            later max_age_days).
Proof.
  intros Ht Hrun _. revert Hrun. unfold Nav.scrape.
  destruct (http (start_url (Nav.cfg self))) as [exc|resp]; [discriminate|].
  destruct (Nav.raise_for_status resp); [discriminate|].
  destruct (Nav.crawl_categories _ _ _ _ _) as [w| |] eqn:Hc; [|discriminate..].
  destruct (NavRunFacts.crawl_categories_spec _ _ _ _ _ _ Hc) as (Htidy & Hkeep & _).
  cbn [fst] in Htidy, Hkeep. specialize (Htidy Ht).
  unfold Nav._extract_all_pdfs.
  pose proof (fun name => TidyFacts.pass_keeps_output_file (Nav.cfg self) ext
                            w.1 w.2 name Htidy) as Hpass.
  rewrite <- surjective_pairing in Hpass.
  destruct (PdfText.extract_all_pdfs ext (Nav.cfg self) w) as [fs2 tr2].
  cbn [fst] in Hpass. intros [= <- <-].
  assert (Hframe : forall name,
    startswith name "/" = false -> startswith name "html/" = false ->
    startswith name "pdfs/" = false -> startswith name "pdf_text/" = false ->
    name <> "last_nav_scrape.txt" ->
    <[Nav.last_scrape_file self := str_of_int (int_of_float now)]> fs2
      !! join (output_dir (Nav.cfg self)) name
    = fs !! join (output_dir (Nav.cfg self)) name).
  { intros name Habs Hhtml Hpdfs Htext Hne. rewrite lookup_insert_ne.
    - by rewrite Hpass, Hkeep.
    - unfold Nav.last_scrape_file.
      rewrite !(StrFacts.join_output_dir (output_dir (Nav.cfg self))) by done.
      intros Heq%(inj (String.append _)). by apply Hne. }
  split; [apply lookup_insert_eq|]. split; [intros name _; apply Hframe|].
  intros full py_int round later d Hod.
  unfold Scraper.needs_update_with, Scraper.read_text, Scraper.last_scrape_file.
  rewrite Hod. by rewrite Hframe.
Qed.

Lemma nav_scrape_keeps_the_stamp_of_the_full_scrape_witness :
  Notions.on_return
    (@Nav.scrape SimpleUrl.lib Fixtures.site_category Fixtures.extractor
       (Fixtures.nav_at "https://h/map/index.html") (3460000001 # 2) 10
       {[ "data/last_scrape.txt" := "1700000000" ]})
    (fun '(fs', tr) =>
       fs' !! "data/last_nav_scrape.txt" = Some "1730000000"
       /\ fs' !! "data/last_scrape.txt" = Some "1700000000").
Proof.
  apply OutcomeFacts.on_return_intro; [vm_compute; reflexivity|].
  intros [fs' tr] Hrun. cbv beta iota.
  destruct (@nav_scrape_keeps_the_stamp_of_the_full_scrape SimpleUrl.lib
              Fixtures.site_category Fixtures.extractor
              (Fixtures.nav_at "https://h/map/index.html") (3460000001 # 2) 10
              {[ "data/last_scrape.txt" := "1700000000" ]} fs' tr)
    as (Hstamp & Hkeep & _); [|exact Hrun| |].
  - intros k [c Hk]. apply lookup_singleton_Some in Hk as [<- _]. reflexivity.
  - apply PathFacts.pages_below_html_check.
    pose proof (OutcomeFacts.returned_eq
                  (fun '(_, t) =>
                     forallb (fun u => Notions.no_parent_segment
                                         (@html_rel_path SimpleUrl.lib u))
                             (fetched t)) _ _ Hrun) as Hcheck.
    cbv beta iota in Hcheck. rewrite Hcheck. vm_compute. reflexivity.
  - split; [exact Hstamp|].
    exact (Hkeep "last_scrape.txt" eq_refl eq_refl eq_refl eq_refl eq_refl
             ltac:(discriminate)).
Defined.
